(** * Google Workspace OAuth login flow: a shallow embedding

  The development follows [src/google/auth.ts] (environment probe, PKCE
  generation, authorization URL, loopback callback listener, manual
  paste-back parser, token exchange and refresh, login orchestrator) and
  the account selection of the gmail and calendar agent tools
  ([resolveGoogleAccessToken]).

  Conventions.
  - A JavaScript string is a [string]; each character stands for one
    UTF-16 code unit below 256.
  - Raw bytes (a Node [Buffer]) are a [list byte].
  - 32-bit words are [Z] with the wrap-around written out.
  - The platform ([new URL], the HTTP listener, [fetch], the clock, the
    random source, the operator) is an explicit [World]; asynchronous
    code is run to completion in program order, an [await] that never
    settles being the outcome [Pending].  In [Auth] the caller's
    callbacks return at once and do not throw on progress messages;
    [Caller] follows a caller whose progress callback may throw and
    whose URL sink may take time, during which a rejection nobody
    handles yet ends the process.
  - Numbers are doubles as far as the program computes with them: the
    integers among them, NaN and the two infinities ([Doubles]). *)

From Stdlib Require Import ZArith NArith String Ascii List Lia Bool.
From Stdlib Require Import Strings.Byte DecimalString.
From stdpp Require Import base strings gmap list.

Open Scope string_scope.

(** ** JavaScript string primitives *)

Module JsString.

(** [WhiteSpace] and [LineTerminator] code units below 256, the ones
    [String.prototype.trim] strips. *)
Definition isWhiteSpace (c : ascii) : bool :=
  let n := N_of_ascii c in
  (N.leb 9 n && N.leb n 13) || N.eqb n 32 || N.eqb n 160.

Fixpoint trimStart (s : string) : string :=
  match s with
  | EmptyString => EmptyString
  | String c s' => if isWhiteSpace c then trimStart s' else s
  end.

Fixpoint trimEnd (s : string) : string :=
  match s with
  | EmptyString => EmptyString
  | String c s' =>
      let t := trimEnd s' in
      if isWhiteSpace c && String.eqb t "" then "" else String c t
  end.

Definition trim (s : string) : string := trimEnd (trimStart s).

Definition lowerChar (c : ascii) : ascii :=
  let n := N_of_ascii c in
  if (N.leb 65 n && N.leb n 90)
     || (N.leb 192 n && N.leb n 222 && negb (N.eqb n 215))
  then ascii_of_N (n + 32) else c.

Fixpoint toLowerCase (s : string) : string :=
  match s with
  | EmptyString => EmptyString
  | String c s' => String (lowerChar c) (toLowerCase s')
  end.

(** [s.includes(sub)] *)
Fixpoint includes (sub s : string) : bool :=
  if String.prefix sub s then true
  else match s with
       | EmptyString => false
       | String _ s' => includes sub s'
       end.

(** [xs.join(sep)] *)
Fixpoint join (sep : string) (xs : list string) : string :=
  match xs with
  | [] => ""
  | [x] => x
  | x :: rest => x +:+ sep +:+ join sep rest
  end.

(** [s.repeat(n)] *)
Fixpoint repeat (s : string) (n : nat) : string :=
  match n with
  | O => ""
  | S n' => s +:+ repeat s n'
  end.

(** JavaScript truthiness of a [string | undefined] value. *)
Definition truthy (o : option string) : bool :=
  match o with
  | Some s => negb (String.eqb s "")
  | None => false
  end.

End JsString.

(** ** Buffers: hexadecimal and base64url renderings *)

Module Buffer.

Definition hexDigit (b3 b2 b1 b0 : bool) : ascii :=
  match b3, b2, b1, b0 with
  | false, false, false, false => "0"
  | false, false, false, true => "1"
  | false, false, true, false => "2"
  | false, false, true, true => "3"
  | false, true, false, false => "4"
  | false, true, false, true => "5"
  | false, true, true, false => "6"
  | false, true, true, true => "7"
  | true, false, false, false => "8"
  | true, false, false, true => "9"
  | true, false, true, false => "a"
  | true, false, true, true => "b"
  | true, true, false, false => "c"
  | true, true, false, true => "d"
  | true, true, true, false => "e"
  | true, true, true, true => "f"
  end%char.

(** [buf.toString("hex")]: two lower-case digits per byte, high nibble
    first.  [Byte.to_bits] lists the bits least significant first. *)
Fixpoint toHex (bs : list byte) : string :=
  match bs with
  | [] => ""
  | b :: rest =>
      let '(b0, (b1, (b2, (b3, (b4, (b5, (b6, b7))))))) := Byte.to_bits b in
      String (hexDigit b7 b6 b5 b4) (String (hexDigit b3 b2 b1 b0) (toHex rest))
  end.

(** The 64 digits of the URL-safe alphabet of RFC 4648, indexed by a
    sextet given most significant bit first. *)
Definition b64urlDigit (s5 s4 s3 s2 s1 s0 : bool) : ascii :=
  let n := (if s5 then 32 else 0) + (if s4 then 16 else 0) + (if s3 then 8 else 0)
           + (if s2 then 4 else 0) + (if s1 then 2 else 0) + (if s0 then 1 else 0) in
  if Nat.ltb n 26 then ascii_of_nat (65 + n)
  else if Nat.ltb n 52 then ascii_of_nat (97 + (n - 26))
  else if Nat.ltb n 62 then ascii_of_nat (48 + (n - 52))
  else if Nat.eqb n 62 then "-"%char else "_"%char.

(** [buf.toString("base64url")] / [hash.digest("base64url")]: Node emits
    the URL-safe alphabet and no padding. *)
Fixpoint toBase64url (bs : list byte) : string :=
  match bs with
  | [] => ""
  | [a] =>
      let '(a0, (a1, (a2, (a3, (a4, (a5, (a6, a7))))))) := Byte.to_bits a in
      String (b64urlDigit a7 a6 a5 a4 a3 a2)
        (String (b64urlDigit a1 a0 false false false false) "")
  | [a; b] =>
      let '(a0, (a1, (a2, (a3, (a4, (a5, (a6, a7))))))) := Byte.to_bits a in
      let '(b0, (b1, (b2, (b3, (b4, (b5, (b6, b7))))))) := Byte.to_bits b in
      String (b64urlDigit a7 a6 a5 a4 a3 a2)
        (String (b64urlDigit a1 a0 b7 b6 b5 b4)
           (String (b64urlDigit b3 b2 b1 b0 false false) ""))
  | a :: b :: c :: rest =>
      let '(a0, (a1, (a2, (a3, (a4, (a5, (a6, a7))))))) := Byte.to_bits a in
      let '(b0, (b1, (b2, (b3, (b4, (b5, (b6, b7))))))) := Byte.to_bits b in
      let '(c0, (c1, (c2, (c3, (c4, (c5, (c6, c7))))))) := Byte.to_bits c in
      String (b64urlDigit a7 a6 a5 a4 a3 a2)
        (String (b64urlDigit a1 a0 b7 b6 b5 b4)
           (String (b64urlDigit b3 b2 b1 b0 c7 c6)
              (String (b64urlDigit c5 c4 c3 c2 c1 c0) (toBase64url rest))))
  end.

(** [Buffer.from(s, "utf8")] for code units below 256. *)
Fixpoint fromUtf8 (s : string) : list byte :=
  match s with
  | EmptyString => []
  | String c s' =>
      let n := N_of_ascii c in
      if N.ltb n 128 then byte_of_ascii c :: fromUtf8 s'
      else
        byte_of_ascii (ascii_of_N (192 + N.shiftr n 6))
          :: byte_of_ascii (ascii_of_N (128 + N.land n 63))
          :: fromUtf8 s'
  end.

End Buffer.


(** ** SHA-256 (FIPS 180-4), the digest behind [createHash("sha256")] *)

Module Sha256.

Local Open Scope Z_scope.
Local Open Scope list_scope.

Definition w32 (x : Z) : Z := x mod 4294967296.

Definition rotr (n x : Z) : Z :=
  Z.lor (Z.shiftr x n) (w32 (Z.shiftl x (32 - n))).

Definition Ch (x y z : Z) : Z :=
  Z.lxor (Z.land x y) (Z.land (Z.lxor x 4294967295) z).

Definition Maj (x y z : Z) : Z :=
  Z.lxor (Z.lxor (Z.land x y) (Z.land x z)) (Z.land y z).

Definition bsig0 (x : Z) : Z := Z.lxor (Z.lxor (rotr 2 x) (rotr 13 x)) (rotr 22 x).
Definition bsig1 (x : Z) : Z := Z.lxor (Z.lxor (rotr 6 x) (rotr 11 x)) (rotr 25 x).
Definition ssig0 (x : Z) : Z := Z.lxor (Z.lxor (rotr 7 x) (rotr 18 x)) (Z.shiftr x 3).
Definition ssig1 (x : Z) : Z := Z.lxor (Z.lxor (rotr 17 x) (rotr 19 x)) (Z.shiftr x 10).

(** The constants of the standard are fractional parts of roots of the
    first primes; they are computed here rather than tabulated. *)
Definition isPrime (n : nat) : bool :=
  Nat.ltb 1 n
  && forallb (fun d => negb (Nat.eqb (Nat.modulo n d) 0)) (seq 2 (Nat.sqrt n - 1)).

Definition primes : list Z := map Z.of_nat (filter isPrime (seq 2 310)).

(** The largest [r] below [2 ^ bits] with [r ^ 3 <= n], found bit by bit. *)
Fixpoint cubeRoot (bits : nat) (n r : Z) : Z :=
  match bits with
  | O => r
  | S bits' =>
      let candidate := r + 2 ^ Z.of_nat bits' in
      cubeRoot bits' n (if candidate ^ 3 <=? n then candidate else r)
  end.

(** The first 32 bits of the fractional part of the cube root of [p]. *)
Definition cubeRootFraction (p : Z) : Z := w32 (cubeRoot 36 (p * 2 ^ 96) 0).

(** The first 32 bits of the fractional part of the square root of [p]. *)
Definition squareRootFraction (p : Z) : Z := w32 (Z.sqrt (p * 2 ^ 64)).

Definition K : list Z := Eval vm_compute in map cubeRootFraction primes.

Record regs : Type := Regs {
  ra : Z; rb : Z; rc : Z; rd : Z; re : Z; rf : Z; rg : Z; rh : Z
}.

Definition H0 : regs :=
  Eval vm_compute in
    match map squareRootFraction (firstn 8 primes) with
    | [a; b; c; d; e; f; g; h] => Regs a b c d e f g h
    | _ => Regs 0 0 0 0 0 0 0 0
    end.

(** Big-endian 32-bit words of a block. *)
Fixpoint words (bs : list Z) : list Z :=
  match bs with
  | a :: b :: c :: d :: rest =>
      (a * 16777216 + b * 65536 + c * 256 + d) :: words rest
  | _ => []
  end.

(** The message schedule: [n] more words after the ones in [w]. *)
Fixpoint schedule (n : nat) (w : list Z) : list Z :=
  match n with
  | O => w
  | S n' =>
      let t := length w in
      let x := w32 (ssig1 (nth (t - 2) w 0) + nth (t - 7) w 0
                    + ssig0 (nth (t - 15) w 0) + nth (t - 16) w 0) in
      schedule n' (w ++ [x])
  end.

Definition round (r : regs) (kw : Z * Z) : regs :=
  let t1 := w32 (rh r + bsig1 (re r) + Ch (re r) (rf r) (rg r) + fst kw + snd kw) in
  let t2 := w32 (bsig0 (ra r) + Maj (ra r) (rb r) (rc r)) in
  Regs (w32 (t1 + t2)) (ra r) (rb r) (rc r) (w32 (rd r + t1)) (re r) (rf r) (rg r).

Definition compress (h : regs) (block : list Z) : regs :=
  let w := schedule 48 (words block) in
  let r := fold_left round (combine K w) h in
  Regs (w32 (ra h + ra r)) (w32 (rb h + rb r)) (w32 (rc h + rc r)) (w32 (rd h + rd r))
       (w32 (re h + re r)) (w32 (rf h + rf r)) (w32 (rg h + rg r)) (w32 (rh h + rh r)).

(** Feed the padded message byte by byte, compressing each full block. *)
Fixpoint absorb (h : regs) (buf : list Z) (bs : list Z) : regs :=
  match bs with
  | [] => h
  | b :: rest =>
      let buf' := buf ++ [b] in
      if Nat.eqb (length buf') 64 then absorb (compress h buf') [] rest
      else absorb h buf' rest
  end.

Definition be64 (n : Z) : list Z :=
  map (fun i => Z.shiftr n (8 * i) mod 256) [7; 6; 5; 4; 3; 2; 1; 0].

Definition pad (msg : list Z) : list Z :=
  let len := Z.of_nat (length msg) in
  msg ++ [128] ++ repeat 0 (Z.to_nat ((55 - len) mod 64)) ++ be64 (8 * len).

Definition byte_of_Z (z : Z) : byte :=
  match Byte.of_N (Z.to_N (z mod 256)) with
  | Some b => b
  | None => x00
  end.

Definition be32 (x : Z) : list byte :=
  [ byte_of_Z (Z.shiftr x 24); byte_of_Z (Z.shiftr x 16);
    byte_of_Z (Z.shiftr x 8); byte_of_Z x ].

Definition sha256 (msg : list byte) : list byte :=
  let r := absorb H0 [] (pad (map (fun b => Z.of_N (Byte.to_N b)) msg)) in
  be32 (ra r) ++ be32 (rb r) ++ be32 (rc r) ++ be32 (rd r)
    ++ be32 (re r) ++ be32 (rf r) ++ be32 (rg r) ++ be32 (rh r).

End Sha256.

(** ** URLs and form encoding *)

Module Url.

(** What the program reads off a parsed [URL] object. *)
Record URL : Type := mkURL {
  pathname : string;
  searchParams : list (string * string)
}.

(** [params.get(name)]: the value of the first pair named [name]. *)
Fixpoint get (name : string) (params : list (string * string)) : option string :=
  match params with
  | [] => None
  | (k, v) :: rest => if String.eqb k name then Some v else get name rest
  end.

(** The platform's URL parser: [new URL(input)] and
    [new URL(input, base)]; [None] stands for the [TypeError] thrown on
    an input that is not a valid URL. *)
Record Platform : Type := mkPlatform {
  URL_new : string -> option URL;
  URL_new_base : string -> string -> option URL
}.

Definition upperHexDigit (b3 b2 b1 b0 : bool) : ascii :=
  let c := Buffer.hexDigit b3 b2 b1 b0 in
  if N.leb 97 (N_of_ascii c) then ascii_of_N (N_of_ascii c - 32) else c.

Definition isDigit (c : ascii) : bool :=
  let n := N_of_ascii c in N.leb 48 n && N.leb n 57.

Definition isAlpha (c : ascii) : bool :=
  let n := N_of_ascii c in
  (N.leb 65 n && N.leb n 90) || (N.leb 97 n && N.leb n 122).

(** The application/x-www-form-urlencoded byte serializer. *)
Definition formEncodeByte (b : byte) : string :=
  let c := ascii_of_byte b in
  let n := N_of_ascii c in
  if isAlpha c || isDigit c || N.eqb n 42 || N.eqb n 45 || N.eqb n 46 || N.eqb n 95
  then String c ""
  else if N.eqb n 32 then "+"
  else
    let '(b0, (b1, (b2, (b3, (b4, (b5, (b6, b7))))))) := Byte.to_bits b in
    String "%" (String (upperHexDigit b7 b6 b5 b4) (String (upperHexDigit b3 b2 b1 b0) "")).

Fixpoint formEncodeBytes (bs : list byte) : string :=
  match bs with
  | [] => ""
  | b :: rest => formEncodeByte b +:+ formEncodeBytes rest
  end.

Definition formEncode (s : string) : string := formEncodeBytes (Buffer.fromUtf8 s).

(** [new URLSearchParams(obj).toString()] *)
Definition serialize (params : list (string * string)) : string :=
  JsString.join "&" (map (fun kv => formEncode (fst kv) +:+ "=" +:+ formEncode (snd kv)) params).

End Url.

(** ** A model of the WHATWG URL parser of Node

    The fragment covered: an ASCII input; a scheme; for the special
    schemes an authority whose host is a non-empty run of ordinary host
    characters (IPv6 literals and IDNA are outside the fragment and
    rejected) with an optional numeric port; the query split into pairs
    and decoded.  Dot segments of a path are kept as they are. *)

Module NodeUrl.

Import Url.

(** The part before the first [c], and the part after it when [c] occurs. *)
Fixpoint cut (c : ascii) (s : string) : string * option string :=
  match s with
  | EmptyString => ("", None)
  | String d s' =>
      if Ascii.eqb d c then ("", Some s')
      else let '(a, b) := cut c s' in (String d a, b)
  end.

Fixpoint splitOn (c : ascii) (s : string) : list string :=
  match s with
  | EmptyString => [""]
  | String d s' =>
      if Ascii.eqb d c then "" :: splitOn c s'
      else match splitOn c s' with
           | [] => [String d ""]
           | x :: xs => String d x :: xs
           end
  end.

Fixpoint allChars (p : ascii -> bool) (s : string) : bool :=
  match s with
  | EmptyString => true
  | String c s' => p c && allChars p s'
  end.

Fixpoint mapChars (f : ascii -> ascii) (s : string) : string :=
  match s with
  | EmptyString => EmptyString
  | String c s' => String (f c) (mapChars f s')
  end.

Fixpoint filterChars (p : ascii -> bool) (s : string) : string :=
  match s with
  | EmptyString => EmptyString
  | String c s' => if p c then String c (filterChars p s') else filterChars p s'
  end.

Definition isC0OrSpace (c : ascii) : bool := N.leb (N_of_ascii c) 32.

Definition isTabOrNewline (c : ascii) : bool :=
  let n := N_of_ascii c in N.eqb n 9 || N.eqb n 10 || N.eqb n 13.

Fixpoint dropWhile (p : ascii -> bool) (s : string) : string :=
  match s with
  | EmptyString => EmptyString
  | String c s' => if p c then dropWhile p s' else s
  end.

Fixpoint dropWhileEnd (p : ascii -> bool) (s : string) : string :=
  match s with
  | EmptyString => EmptyString
  | String c s' =>
      let t := dropWhileEnd p s' in
      if p c && String.eqb t "" then "" else String c t
  end.

(** Leading and trailing C0 controls and spaces are stripped, tabs and
    newlines removed everywhere. *)
Definition clean (s : string) : string :=
  filterChars (fun c => negb (isTabOrNewline c))
    (dropWhileEnd isC0OrSpace (dropWhile isC0OrSpace s)).

Definition isSchemeChar (c : ascii) : bool :=
  isAlpha c || isDigit c || Ascii.eqb c "+" || Ascii.eqb c "-" || Ascii.eqb c ".".

Fixpoint schemeRest (s : string) : option (string * string) :=
  match s with
  | EmptyString => None
  | String c s' =>
      if Ascii.eqb c ":" then Some ("", s')
      else if isSchemeChar c then
        match schemeRest s' with
        | Some (sch, r) => Some (String (JsString.lowerChar c) sch, r)
        | None => None
        end
      else None
  end.

Definition parseScheme (s : string) : option (string * string) :=
  match s with
  | EmptyString => None
  | String c _ => if isAlpha c then schemeRest s else None
  end.

Definition isSpecial (scheme : string) : bool :=
  String.eqb scheme "http" || String.eqb scheme "https" || String.eqb scheme "ws"
  || String.eqb scheme "wss" || String.eqb scheme "ftp".

Definition hexValue (c : ascii) : option N :=
  let n := N_of_ascii c in
  if isDigit c then Some (n - 48)%N
  else if N.leb 65 n && N.leb n 70 then Some (n - 55)%N
  else if N.leb 97 n && N.leb n 102 then Some (n - 87)%N
  else None.

Fixpoint percentDecode (s : string) : string :=
  match s with
  | String "%" (String h (String l rest) as tl) =>
      match hexValue h, hexValue l with
      | Some a, Some b => String (ascii_of_N (16 * a + b)) (percentDecode rest)
      | _, _ => String "%" (percentDecode tl)
      end
  | String c s' => String c (percentDecode s')
  | EmptyString => EmptyString
  end.

Definition plusToSpace (c : ascii) : ascii := if Ascii.eqb c "+" then " "%char else c.

Definition decodeComponent (s : string) : string := percentDecode (mapChars plusToSpace s).

(** The application/x-www-form-urlencoded parser. *)
Definition parseQuery (q : string) : list (string * string) :=
  flat_map
    (fun piece =>
       if String.eqb piece "" then []
       else let '(k, v) := cut "=" piece in
            [(decodeComponent k, decodeComponent (default "" v))])
    (splitOn "&" q).

Definition isSlash (c : ascii) : bool := Ascii.eqb c "/" || Ascii.eqb c "\".

Definition isHostChar (c : ascii) : bool :=
  isAlpha c || isDigit c || Ascii.eqb c "-" || Ascii.eqb c "." || Ascii.eqb c "_".

Fixpoint decimal (acc : N) (s : string) : N :=
  match s with
  | EmptyString => acc
  | String c s' => decimal (10 * acc + (N_of_ascii c - 48))%N s'
  end.

(** The part of an authority after the last [@]. *)
Fixpoint afterLastAt (s : string) : string :=
  match s with
  | EmptyString => EmptyString
  | String c s' =>
      if Ascii.eqb c "@" && negb (JsString.includes "@" s') then s'
      else if JsString.includes "@" s then afterLastAt s' else s
  end.

Definition validAuthority (authority : string) : bool :=
  let '(host, port) := cut ":" (afterLastAt authority) in
  negb (String.eqb host "") && allChars isHostChar host
  && match port with
     | None => true
     | Some p => allChars isDigit p && N.leb (decimal 0 p) 65535
     end.

(** The first run of non-slash characters and what follows it. *)
Fixpoint cutSlash (s : string) : string * string :=
  match s with
  | EmptyString => ("", "")
  | String d s' =>
      if isSlash d then ("", s)
      else let '(a, b) := cutSlash s' in (String d a, b)
  end.

Definition slashed (c : ascii) : ascii := if Ascii.eqb c "\" then "/"%char else c.

(** After the scheme: fragment dropped, query split off, authority and
    path of a special scheme. *)
Definition parseAfterScheme (scheme rest : string) : option URL :=
  let '(noFragment, _) := cut "#" rest in
  let '(pathish, query) := cut "?" noFragment in
  let params := parseQuery (default "" query) in
  if isSpecial scheme then
    let '(authority, path) := cutSlash (dropWhile isSlash pathish) in
    if validAuthority authority
    then Some (mkURL (if String.eqb path "" then "/" else mapChars slashed path) params)
    else None
  else Some (mkURL pathish params).

Definition URL_new (input : string) : option URL :=
  match parseScheme (clean input) with
  | Some (scheme, rest) => parseAfterScheme scheme rest
  | None => None
  end.

(** A reference resolved against a base that is an [http] origin with
    the path [/], such as [http://localhost:51122]. *)
Definition URL_new_base (input base : string) : option URL :=
  let s := clean input in
  match parseScheme s with
  | Some (scheme, rest) => parseAfterScheme scheme rest
  | None =>
      match URL_new base with
      | None => None
      | Some _ =>
          let '(noFragment, _) := cut "#" s in
          let '(pathish, query) := cut "?" noFragment in
          let params := parseQuery (default "" query) in
          match pathish with
          | String c1 (String c2 more) =>
              if isSlash c1 && isSlash c2 then
                let '(authority, path) := cutSlash (dropWhile isSlash more) in
                if validAuthority authority
                then Some (mkURL (if String.eqb path "" then "/" else mapChars slashed path) params)
                else None
              else if isSlash c1 then Some (mkURL (mapChars slashed pathish) params)
              else Some (mkURL (String "/" (mapChars slashed pathish)) params)
          | String c1 EmptyString =>
              if isSlash c1 then Some (mkURL "/" params)
              else Some (mkURL (String "/" pathish) params)
          | EmptyString => Some (mkURL "/" params)
          end
      end
  end.

Definition platform : Platform := mkPlatform URL_new URL_new_base.

End NodeUrl.

(** ** Numbers: the integers among the doubles, NaN and the infinities

    [Date.now()], a lifetime in whole seconds and the constants of the
    program are integers, and sums and products of integers round to
    integers, so that no other finite value arises. *)

Module Doubles.

Local Open Scope Z_scope.

(** [Int z] stands for the double of value [z]; the operations below
    produce such values only through [round]. *)
Inductive Number : Type :=
| Int (z : Z)
| NaN
| PosInf
| NegInf.

(** The double nearest to an integer, a tie going to the even
    significand of 53 bits; beyond the largest double, an infinity. *)
Definition round (z : Z) : Number :=
  let a := Z.abs z in
  if a <? 2 ^ 53 then Int z
  else
    let k := Z.log2 a - 52 in
    let q := Z.shiftr a k in
    let r := a - Z.shiftl q k in
    let half := Z.shiftl 1 (k - 1) in
    let m := if (half <? r) || ((r =? half) && Z.odd q) then q + 1 else q in
    let v := Z.shiftl m k in
    if 2 ^ 1024 <=? v then (if z <? 0 then NegInf else PosInf)
    else Int (if z <? 0 then - v else v).

Definition neg (a : Number) : Number :=
  match a with
  | Int x => Int (- x)
  | NaN => NaN
  | PosInf => NegInf
  | NegInf => PosInf
  end.

(** [a + b] *)
Definition add (a b : Number) : Number :=
  match a, b with
  | NaN, _ | _, NaN => NaN
  | Int x, Int y => round (x + y)
  | PosInf, NegInf | NegInf, PosInf => NaN
  | PosInf, _ | _, PosInf => PosInf
  | NegInf, _ | _, NegInf => NegInf
  end.

(** [a - b] *)
Definition sub (a b : Number) : Number := add a (neg b).

(** [a * b] *)
Definition mul (a b : Number) : Number :=
  match a, b with
  | NaN, _ | _, NaN => NaN
  | Int x, Int y => round (x * y)
  | Int x, PosInf | PosInf, Int x =>
      if x =? 0 then NaN else if 0 <? x then PosInf else NegInf
  | Int x, NegInf | NegInf, Int x =>
      if x =? 0 then NaN else if 0 <? x then NegInf else PosInf
  | PosInf, PosInf | NegInf, NegInf => PosInf
  | PosInf, NegInf | NegInf, PosInf => NegInf
  end.

(** An integer all doubles up to which are exact. *)
Definition exact (z : Z) : Prop := Z.abs z < 2 ^ 53.

End Doubles.

(** ** The runtime: process environment, platform events, outcomes *)

Module Runtime.

(** [process.platform], [process.env] and what reading [/proc/version]
    gives ([None]: the read throws). *)
Record ProcessEnv : Type := mkProcessEnv {
  platform : string;
  env : gmap string string;
  procVersion : option string
}.

(** A thrown JavaScript value: an [Error] instance with its message, or
    anything else. *)
Inductive Thrown : Type :=
| ErrorObj (message : string)
| NonError (value : string).

(** A [fetch] response: [response.ok], [await response.text()] and
    [await response.json()] (which throws on a body that is not JSON). *)
Record Response (J : Type) : Type := mkResponse {
  ok : bool;
  text : string;
  json : Thrown + J
}.
Arguments mkResponse {J} _ _ _.
Arguments ok {J} _.
Arguments text {J} _.
Arguments json {J} _.

Inductive FetchResult (J : Type) : Type :=
| FetchRejects (e : Thrown)
| FetchResolves (r : Response J).
Arguments FetchRejects {J} _.
Arguments FetchResolves {J} _.

(** The token endpoint's JSON, with the fields the program reads.
    [expires_in] is the field as the multiplication by 1000 takes it,
    that is converted to a number: a lifetime in whole seconds, and NaN
    when the answer has no such field. *)
Record TokenJson : Type := mkTokenJson {
  access_token : string;
  refresh_token : option string;
  expires_in : Doubles.Number
}.

Record UserinfoJson : Type := mkUserinfoJson {
  userinfo_email : option string
}.

Record Request : Type := mkRequest {
  req_url : string;
  req_method : string;
  req_headers : list (string * string);
  req_body : list (string * string)
}.

(** What the program does to the outside, in order. *)
Inductive Event : Type :=
| EvUrlSink (url : string)
| EvProgress (message : string)
| EvConsole (line : string)
| EvPrompt (message : string)
| EvListen (port : N)
| EvClose
| EvRespond (status : N) (body : string)
| EvFetch (r : Request).

(** Everything the outside decides. *)
Record World : Type := mkWorld {
  proc : ProcessEnv;
  entropy : nat -> byte;              (* the bytes [randomBytes] delivers, in order *)
  now : Z;                            (* [Date.now()] *)
  listenError : option Thrown;        (* the listener's "error" event, if binding fails *)
  requests : list (option string);    (* [req.url] of the requests reaching the listener *)
  onUrl : string -> option Thrown;    (* the caller's URL sink; [Some e]: it throws [e] *)
  withProgress : bool;                (* whether [onProgress] was supplied *)
  pasted : option string;             (* the operator's answer; [None]: never answers *)
  tokenEndpoint : FetchResult TokenJson;
  userinfoEndpoint : FetchResult UserinfoJson
}.

Record St : Type := mkSt {
  rngPos : nat;          (* bytes of [entropy] consumed so far *)
  portBound : bool;      (* whether this process holds the callback port *)
  trace : list Event
}.

Definition initial : St := mkSt 0 false [].

(** How a computation ends: it returns, it throws, its promise never
    settles, or an exception escapes an event handler and ends the
    process. *)
Inductive Outcome (A : Type) : Type :=
| Returned (a : A)
| Threw (e : Thrown)
| Pending
| Crashed (e : Thrown).
Arguments Returned {A} _.
Arguments Threw {A} _.
Arguments Pending {A}.
Arguments Crashed {A} _.

Definition M (A : Type) : Type := St -> Outcome A * St.

Definition ret {A} (a : A) : M A := fun st => (Returned a, st).

Definition bind {A B} (m : M A) (k : A -> M B) : M B :=
  fun st =>
    match m st with
    | (Returned a, st') => k a st'
    | (Threw e, st') => (Threw e, st')
    | (Pending, st') => (Pending, st')
    | (Crashed e, st') => (Crashed e, st')
    end.

Definition throw {A} (e : Thrown) : M A := fun st => (Threw e, st).

Definition pending {A} : M A := fun st => (Pending, st).

Definition crash {A} (e : Thrown) : M A := fun st => (Crashed e, st).

(** [try { m } catch (err) { h err }] *)
Definition tryCatch {A} (m : M A) (h : Thrown -> M A) : M A :=
  fun st =>
    match m st with
    | (Threw e, st') => h e st'
    | r => r
    end.

Definition emit (ev : Event) : M unit :=
  fun st => (Returned tt, mkSt (rngPos st) (portBound st) (trace st ++ [ev])).

Definition setBound (b : bool) : M unit :=
  fun st => (Returned tt, mkSt (rngPos st) b (trace st)).

Definition getBound : M bool := fun st => (Returned (portBound st), st).

End Runtime.

Declare Scope js_scope.
Delimit Scope js_scope with js.
Notation "'let*' x ':=' m 'in' k" := (Runtime.bind m (fun x => k))
  (at level 10, x pattern, m at level 100, k at level 200) : js_scope.
Notation "m ';;' k" := (Runtime.bind m (fun _ => k))
  (at level 100, k at level 200, right associativity) : js_scope.

(** ** The environment probe *)

Module Probe.

Import Runtime.

Definition envTruthy (pe : ProcessEnv) (name : string) : bool :=
  JsString.truthy (env pe !! name).

(** Detect if running in WSL. *)
Definition isWSL (pe : ProcessEnv) : bool :=
  if negb (String.eqb (platform pe) "linux") then false
  else match procVersion pe with
       | Some contents =>
           let release := JsString.toLowerCase contents in
           JsString.includes "microsoft" release || JsString.includes "wsl" release
       | None => false
       end.

(** Detect if running in WSL2 specifically. *)
Definition isWSL2 (pe : ProcessEnv) : bool :=
  if negb (isWSL pe) then false
  else match procVersion pe with
       | Some contents =>
           let version := JsString.toLowerCase contents in
           JsString.includes "wsl2" version || JsString.includes "microsoft-standard" version
       | None => false
       end.

(** Detect a remote or headless environment, where the localhost
    callback cannot work. *)
Definition isRemoteEnvironment (pe : ProcessEnv) : bool :=
  if envTruthy pe "SSH_CLIENT" || envTruthy pe "SSH_TTY" || envTruthy pe "SSH_CONNECTION"
  then true
  else if envTruthy pe "REMOTE_CONTAINERS" || envTruthy pe "CODESPACES"
  then true
  else if String.eqb (platform pe) "linux"
          && negb (envTruthy pe "DISPLAY")
          && negb (envTruthy pe "WAYLAND_DISPLAY")
          && negb (isWSL pe)
  then true
  else false.

(** Whether to skip the local OAuth callback server. *)
Definition shouldUseManualOAuthFlow (pe : ProcessEnv) : bool :=
  isWSL2 pe || isRemoteEnvironment pe.

End Probe.

(** ** The probe as the specification words it *)

Module ProbeSpec.

Import Runtime.

(** A marker counts as set when the variable has a non-empty value. *)
Definition markerSet (pe : ProcessEnv) (name : string) : Prop :=
  exists v, env pe !! name = Some v /\ v <> "".

Definition remoteMarkers : list string :=
  ["SSH_CLIENT"; "SSH_TTY"; "SSH_CONNECTION"; "REMOTE_CONTAINERS"; "CODESPACES"].

Definition displayMarkers : list string := ["DISPLAY"; "WAYLAND_DISPLAY"].

(** The kernel-version string: read on a Linux platform only. *)
Definition kernelVersion (pe : ProcessEnv) : option string :=
  if String.eqb (platform pe) "linux" then procVersion pe else None.

Definition versionMentions (pe : ProcessEnv) (needles : list string) : bool :=
  match kernelVersion pe with
  | Some v => existsb (fun n => JsString.includes n (JsString.toLowerCase v)) needles
  | None => false
  end.

(** Any remote-session, container or cloud-IDE marker is present. *)
Definition isContainerish (pe : ProcessEnv) : bool :=
  existsb (Probe.envTruthy pe) remoteMarkers.

(** The Linux-on-Windows compatibility layer, of either generation. *)
Definition isLinuxCompatLayer (pe : ProcessEnv) : bool :=
  versionMentions pe ["microsoft"; "wsl"].

(** Its second generation. *)
Definition isLinuxCompatLayerGen2 (pe : ProcessEnv) : bool :=
  versionMentions pe ["wsl2"; "microsoft-standard"].

(** Linux, no graphical display marker, and not the compatibility layer. *)
Definition isHeadlessLinux (pe : ProcessEnv) : bool :=
  String.eqb (platform pe) "linux"
  && negb (existsb (Probe.envTruthy pe) displayMarkers)
  && negb (isLinuxCompatLayer pe).

End ProbeSpec.

(** ** The OAuth flow of [src/google/auth.ts] *)

Module Auth.

Import Runtime.
Local Open Scope js_scope.

Definition nl : string := String (ascii_of_N 10) "".
Definition dq : string := String (ascii_of_N 34) "".

Definition REDIRECT_PORT : N := 51122.
Definition portText : string := NilZero.string_of_uint (N.to_uint REDIRECT_PORT).
Definition REDIRECT_URI : string := "http://localhost:" +:+ portText +:+ "/oauth-callback".
Definition AUTH_URL : string := "https://accounts.google.com/o/oauth2/v2/auth".
Definition TOKEN_URL : string := "https://oauth2.googleapis.com/token".
Definition USERINFO_URL : string := "https://www.googleapis.com/oauth2/v1/userinfo?alt=json".

(** Read-only scopes for Gmail and Calendar. *)
Definition SCOPES : list string :=
  [ "https://www.googleapis.com/auth/gmail.readonly";
    "https://www.googleapis.com/auth/calendar.readonly";
    "https://www.googleapis.com/auth/userinfo.email";
    "https://www.googleapis.com/auth/userinfo.profile" ].

Record GoogleWorkspaceCredentials : Type := mkCredentials {
  access : string;
  refresh : string;
  expires : Doubles.Number;
  email : option string
}.

(** The result of [refreshGoogleToken]. *)
Record Refreshed : Type := mkRefreshed {
  refreshed_access : string;
  refreshed_expires : Doubles.Number
}.

(** The result of [parseCallbackInput]. *)
Inductive Parsed : Type :=
| ParsedOk (code state : string)
| ParsedError (error : string).

(** What the callback listener resolves with. *)
Record CallbackOk : Type := mkCallbackOk {
  cb_code : string;
  cb_close : M unit
}.

(** How one request settles the listener's promise. *)
Inductive Settled : Type :=
| Resolve (code : string)
| Reject (e : Thrown).

Definition credentialsMissing : string :=
  "Google OAuth credentials not configured." +:+ nl +:+ nl
  +:+ "To use Gmail/Calendar integration:" +:+ nl
  +:+ "1. Go to https://console.cloud.google.com/" +:+ nl
  +:+ "2. Create a project and enable Gmail API + Calendar API" +:+ nl
  +:+ "3. Create OAuth 2.0 credentials (Desktop app type)" +:+ nl
  +:+ "4. Set environment variables:" +:+ nl
  +:+ "   export GOOGLE_CLIENT_ID='your-client-id'" +:+ nl
  +:+ "   export GOOGLE_CLIENT_SECRET='your-client-secret'" +:+ nl.

Definition successPage : string :=
  nl +:+ "        <html>" +:+ nl
  +:+ "          <body style=" +:+ dq
  +:+ "font-family: system-ui; text-align: center; padding: 50px;" +:+ dq +:+ ">" +:+ nl
  +:+ "            <h1>Success!</h1>" +:+ nl
  +:+ "            <p>Google Workspace connected. You can close this window.</p>" +:+ nl
  +:+ "          </body>" +:+ nl
  +:+ "        </html>" +:+ nl
  +:+ "      ".

Definition missingRefreshToken : string :=
  "No refresh token received. You may need to revoke access at https://myaccount.google.com/permissions and try again.".

Definition switchingToManual : string :=
  "Local callback server failed. Switching to manual mode...".

Definition addressInUse : string :=
  "listen EADDRINUSE: address already in use :::" +:+ portText.

Section Flow.

Context (P : Url.Platform) (w : World).

Definition getGoogleCredentials : M (string * string) :=
  let clientId := env (proc w) !! "GOOGLE_CLIENT_ID" in
  let clientSecret := env (proc w) !! "GOOGLE_CLIENT_SECRET" in
  match clientId, clientSecret with
  | Some id, Some secret =>
      if negb (JsString.truthy clientId) || negb (JsString.truthy clientSecret)
      then throw (ErrorObj credentialsMissing)
      else ret (id, secret)
  | _, _ => throw (ErrorObj credentialsMissing)
  end.

(** [randomBytes(n)]: the next [n] bytes of the random source. *)
Definition randomBytes (n : nat) : M (list byte) :=
  fun st =>
    (Returned (map (entropy w) (seq (rngPos st) n)),
     mkSt (rngPos st + n) (portBound st) (trace st)).

(** [onProgress?.(message)] *)
Definition progress (message : string) : M unit :=
  if withProgress w then emit (EvProgress message) else ret tt.

(** [await onUrl(url)] *)
Definition callOnUrl (url : string) : M unit :=
  emit (EvUrlSink url) ;;
  match onUrl w url with
  | Some e => throw e
  | None => ret tt
  end.

(** [await fetch(...)] against an endpoint whose answer the world fixes. *)
Definition fetch {J} (endpoint : FetchResult J) (r : Request) : M (Response J) :=
  emit (EvFetch r) ;;
  match endpoint with
  | FetchRejects e => throw e
  | FetchResolves resp => ret resp
  end.

(** [await response.json()] *)
Definition jsonOf {J} (resp : Response J) : M J :=
  match json resp with
  | inl e => throw e
  | inr data => ret data
  end.

(** Generate PKCE verifier and challenge. *)
Definition generatePKCE : M (string * string) :=
  let* bytes := randomBytes 32 in
  let verifier := Buffer.toHex bytes in
  let challenge := Buffer.toBase64url (Sha256.sha256 (Buffer.fromUtf8 verifier)) in
  ret (verifier, challenge).

Definition authParams (clientId challenge state : string) : list (string * string) :=
  [ ("client_id", clientId);
    ("response_type", "code");
    ("redirect_uri", REDIRECT_URI);
    ("scope", JsString.join " " SCOPES);
    ("code_challenge", challenge);
    ("code_challenge_method", "S256");
    ("state", state);
    ("access_type", "offline");
    ("prompt", "consent") ].

(** Build the Google OAuth authorization URL. *)
Definition buildAuthUrl (challenge state : string) : M string :=
  let* (clientId, _) := getGoogleCredentials in
  ret (AUTH_URL +:+ "?" +:+ Url.serialize (authParams clientId challenge state)).

(** Parse the OAuth callback URL or code input. *)
Definition parseCallbackInput (input expectedState : string) : Parsed :=
  let trimmed := JsString.trim input in
  if String.eqb trimmed "" then ParsedError "No input provided"
  else
    match Url.URL_new P trimmed with
    | Some url =>
        let code := Url.get "code" (Url.searchParams url) in
        let state :=
          match Url.get "state" (Url.searchParams url) with
          | Some s => s
          | None => expectedState
          end in
        match code with
        | Some c =>
            if String.eqb c "" then ParsedError "Missing 'code' parameter in URL"
            else if String.eqb state "" then ParsedError "Missing 'state' parameter. Paste the full URL."
            else ParsedOk c state
        | None => ParsedError "Missing 'code' parameter in URL"
        end
    | None =>
        if String.eqb expectedState "" then ParsedError "Paste the full redirect URL, not just the code."
        else ParsedOk trimmed expectedState
    end.

(** Get user email from access token. *)
Definition getUserEmail (accessToken : string) : M (option string) :=
  tryCatch
    (let* response :=
       fetch (userinfoEndpoint w)
         (mkRequest USERINFO_URL "GET" [("Authorization", "Bearer " +:+ accessToken)] []) in
     if ok response
     then let* data := jsonOf response in ret (userinfo_email data)
     else ret None)
    (fun _ => ret None).

(** Exchange authorization code for tokens. *)
Definition exchangeCodeForTokens (code verifier : string) : M GoogleWorkspaceCredentials :=
  let* (clientId, clientSecret) := getGoogleCredentials in
  let* response :=
    fetch (tokenEndpoint w)
      (mkRequest TOKEN_URL "POST"
         [("Content-Type", "application/x-www-form-urlencoded")]
         [ ("client_id", clientId);
           ("client_secret", clientSecret);
           ("code", code);
           ("grant_type", "authorization_code");
           ("redirect_uri", REDIRECT_URI);
           ("code_verifier", verifier) ]) in
  if negb (ok response)
  then throw (ErrorObj ("Token exchange failed: " +:+ text response))
  else
    let* data := jsonOf response in
    match refresh_token data with
    | Some r =>
        if String.eqb r "" then throw (ErrorObj missingRefreshToken)
        else
          let* mail := getUserEmail (access_token data) in
          let expiresAt :=
            Doubles.sub
              (Doubles.add (Doubles.Int (now w))
                 (Doubles.mul (expires_in data) (Doubles.Int 1000)))
              (Doubles.mul (Doubles.mul (Doubles.Int 5) (Doubles.Int 60))
                 (Doubles.Int 1000)) in
          ret (mkCredentials (access_token data) r expiresAt mail)
    | None => throw (ErrorObj missingRefreshToken)
    end.

(** Refresh an expired access token. *)
Definition refreshGoogleToken (refreshToken : string) : M Refreshed :=
  let* (clientId, clientSecret) := getGoogleCredentials in
  let* response :=
    fetch (tokenEndpoint w)
      (mkRequest TOKEN_URL "POST"
         [("Content-Type", "application/x-www-form-urlencoded")]
         [ ("client_id", clientId);
           ("client_secret", clientSecret);
           ("refresh_token", refreshToken);
           ("grant_type", "refresh_token") ]) in
  if negb (ok response)
  then throw (ErrorObj ("Token refresh failed: " +:+ text response))
  else
    let* data := jsonOf response in
    let expiresAt :=
      Doubles.sub
        (Doubles.add (Doubles.Int (now w))
           (Doubles.mul (expires_in data) (Doubles.Int 1000)))
        (Doubles.mul (Doubles.mul (Doubles.Int 5) (Doubles.Int 60)) (Doubles.Int 1000)) in
    ret (mkRefreshed (access_token data) expiresAt).

(** Prompt user for input via readline. *)
Definition promptInput (message : string) : M string :=
  emit (EvPrompt message) ;;
  match pasted w with
  | Some answer => ret (JsString.trim answer)
  | None => pending
  end.

(** [server.close()] *)
Definition serverClose : M unit := setBound false ;; emit EvClose.

(** [res.writeHead(status); res.end(body)] *)
Definition respond (status : N) (body : string) : M unit := emit (EvRespond status body).

(** The listener's request handler; the result tells whether and how the
    request settled the promise. *)
Definition handleRequest (expectedState : string) (reqUrl : option string) : M (option Settled) :=
  match Url.URL_new_base P (default "/" reqUrl) ("http://localhost:" +:+ portText) with
  | None => crash (ErrorObj "Invalid URL")
  | Some url =>
      if negb (String.eqb (Url.pathname url) "/oauth-callback")
      then respond 404 "Not found" ;; ret None
      else
        let code := Url.get "code" (Url.searchParams url) in
        let state := Url.get "state" (Url.searchParams url) in
        let error := Url.get "error" (Url.searchParams url) in
        if JsString.truthy error
        then
          let message := "OAuth error: " +:+ default "" error in
          respond 400 message ;;
          serverClose ;;
          ret (Some (Reject (ErrorObj message)))
        else
          match code with
          | Some c =>
              if String.eqb c ""
              then
                respond 400 "Missing authorization code" ;;
                serverClose ;;
                ret (Some (Reject (ErrorObj "Missing authorization code")))
              else if negb (bool_decide (state = Some expectedState))
              then
                respond 400 "State mismatch" ;;
                serverClose ;;
                ret (Some (Reject (ErrorObj "OAuth state mismatch")))
              else
                respond 200 successPage ;;
                ret (Some (Resolve c))
          | None =>
              respond 400 "Missing authorization code" ;;
              serverClose ;;
              ret (Some (Reject (ErrorObj "Missing authorization code")))
          end
  end.

(** The listener takes the incoming requests one after the other until one
    of them settles the promise; with none left it waits for ever. *)
Fixpoint serve (expectedState : string) (reqs : list (option string)) : M CallbackOk :=
  match reqs with
  | [] => pending
  | r :: rest =>
      let* settled := handleRequest expectedState r in
      match settled with
      | None => serve expectedState rest
      | Some (Resolve code) => ret (mkCallbackOk code serverClose)
      | Some (Reject e) => throw e
      end
  end.

(** Start a local HTTP server to receive the OAuth callback.  The call
    binds the port and returns the promise, which is the computation that
    an [await] of it runs. *)
Definition startCallbackServer (expectedState : string) : M (M CallbackOk) :=
  let* held := getBound in
  match listenError w with
  | Some e => ret (throw e)
  | None =>
      if held then ret (throw (ErrorObj addressInUse))
      else
        setBound true ;;
        emit (EvListen REDIRECT_PORT) ;;
        ret (serve expectedState (requests w))
  end.

(** Local Google Workspace OAuth login with automatic callback server. *)
Definition loginGoogleWorkspaceLocal : M GoogleWorkspaceCredentials :=
  let* (verifier, challenge) := generatePKCE in
  let* stateBytes := randomBytes 16 in
  let state := Buffer.toHex stateBytes in
  let* authUrl := buildAuthUrl challenge state in
  let* serverPromise := startCallbackServer state in
  callOnUrl authUrl ;;
  progress "Waiting for authorization in browser..." ;;
  let* result := serverPromise in
  cb_close result ;;
  progress "Exchanging authorization code for tokens..." ;;
  exchangeCodeForTokens (cb_code result) verifier.

Definition manualInstructions : list string :=
  [ nl;
    JsString.repeat "=" 60;
    "VPS/Remote Mode - Manual OAuth";
    JsString.repeat "=" 60;
    nl +:+ "1. Open the URL above in your LOCAL browser";
    "2. Complete the Google sign-in";
    "3. Your browser will redirect to a localhost URL that won't load";
    "4. Copy the ENTIRE URL from your browser's address bar";
    "5. Paste it below" +:+ nl;
    "The URL will look like:";
    "http://localhost:" +:+ portText +:+ "/oauth-callback?code=xxx&state=yyy" +:+ nl ].

Fixpoint consoleLog (lines : list string) : M unit :=
  match lines with
  | [] => ret tt
  | l :: rest => emit (EvConsole l) ;; consoleLog rest
  end.

(** Manual Google Workspace OAuth login for VPS/headless environments. *)
Definition loginGoogleWorkspaceManual : M (option GoogleWorkspaceCredentials) :=
  let* (verifier, challenge) := generatePKCE in
  let* stateBytes := randomBytes 16 in
  let state := Buffer.toHex stateBytes in
  let* authUrl := buildAuthUrl challenge state in
  callOnUrl authUrl ;;
  progress "Waiting for you to paste the callback URL..." ;;
  consoleLog manualInstructions ;;
  let* callbackInput := promptInput "Paste the redirect URL here: " in
  match parseCallbackInput callbackInput state with
  | ParsedError error => throw (ErrorObj error)
  | ParsedOk code parsedState =>
      if negb (String.eqb parsedState state)
      then throw (ErrorObj "OAuth state mismatch - please try again")
      else
        progress "Exchanging authorization code for tokens..." ;;
        let* creds := exchangeCodeForTokens code verifier in
        ret (Some creds)
  end.

(** The test of the orchestrator's [catch]: an [Error] whose message
    mentions a bind failure. *)
Definition looksLikeBindFailure (err : Thrown) : bool :=
  match err with
  | ErrorObj message =>
      JsString.includes "EADDRINUSE" message
      || JsString.includes "port" message
      || JsString.includes "listen" message
  | NonError _ => false
  end.

(** VPS-aware Google Workspace OAuth login. *)
Definition loginGoogleWorkspace : M (option GoogleWorkspaceCredentials) :=
  if Probe.shouldUseManualOAuthFlow (proc w) then loginGoogleWorkspaceManual
  else
    tryCatch
      (let* creds := loginGoogleWorkspaceLocal in ret (Some creds))
      (fun err =>
         if looksLikeBindFailure err
         then progress switchingToManual ;; loginGoogleWorkspaceManual
         else throw err).

End Flow.

(** The URLs handed to the sink, in order. *)
Fixpoint sinkCalls (t : list Event) : list string :=
  match t with
  | [] => []
  | EvUrlSink url :: rest => url :: sinkCalls rest
  | _ :: rest => sinkCalls rest
  end.

Fixpoint fetches (t : list Event) : list Request :=
  match t with
  | [] => []
  | EvFetch r :: rest => r :: fetches rest
  | _ :: rest => fetches rest
  end.

End Auth.

(** ** Account selection of the gmail and calendar tools *)

Module Tools.

Import Runtime.

Definition noAccountConfigured : string :=
  "No Google Workspace account configured. Run: clawdbot google login".

(** [profiles.find((p) => p.includes(accountFilter))] *)
Fixpoint findIncluding (accountFilter : string) (profiles : list string) : option string :=
  match profiles with
  | [] => None
  | p :: rest =>
      if JsString.includes accountFilter p then Some p
      else findIncluding accountFilter rest
  end.

Section Resolve.

(** The auth-profile store of [auth-profiles.js] enters through what the
    function asks of it: the profile ids [listProfilesForProvider] lists
    for the provider, and the key [resolveApiKeyForProfile] finds for a
    profile id ([None]: nothing resolved). *)
Context (profiles : list string) (resolveApiKeyForProfile : string -> option string).

(** Resolve Google Workspace access token from auth profiles; the same
    function stands in both tools. *)
Definition resolveGoogleAccessToken (account : option string) : Outcome string :=
  match profiles with
  | [] => Threw (ErrorObj noAccountConfigured)
  | first :: _ =>
      let selected : Outcome string :=
        match account with
        | Some accountFilter =>
            if negb (String.eqb accountFilter "") then
              match findIncluding accountFilter profiles with
              | Some found =>
                  if String.eqb found ""
                  then Threw (ErrorObj ("Google account not found: " +:+ accountFilter
                                        +:+ ". Available: " +:+ JsString.join ", " profiles))
                  else Returned found
              | None =>
                  Threw (ErrorObj ("Google account not found: " +:+ accountFilter
                                   +:+ ". Available: " +:+ JsString.join ", " profiles))
              end
            else Returned first
        | None => Returned first
        end in
      match selected with
      | Returned profileId =>
          match resolveApiKeyForProfile profileId with
          | Some apiKey => Returned apiKey
          | None =>
              Threw (ErrorObj ("Failed to resolve Google credentials for " +:+ profileId
                               +:+ ". Try: clawdbot google login"))
          end
      | other => other
      end
  end.

End Resolve.

End Tools.

(** ** base64url without padding, as RFC 4648 words it

    The standard alphabet with [=] padding, then [+] and [/] replaced by
    [-] and [_], then the padding removed. *)

Module Rfc4648.

Definition b64Digit (s5 s4 s3 s2 s1 s0 : bool) : ascii :=
  let n := (if s5 then 32 else 0) + (if s4 then 16 else 0) + (if s3 then 8 else 0)
           + (if s2 then 4 else 0) + (if s1 then 2 else 0) + (if s0 then 1 else 0) in
  if Nat.ltb n 26 then ascii_of_nat (65 + n)
  else if Nat.ltb n 52 then ascii_of_nat (97 + (n - 26))
  else if Nat.ltb n 62 then ascii_of_nat (48 + (n - 52))
  else if Nat.eqb n 62 then "+"%char else "/"%char.

Fixpoint base64 (bs : list byte) : string :=
  match bs with
  | [] => ""
  | [a] =>
      let '(a0, (a1, (a2, (a3, (a4, (a5, (a6, a7))))))) := Byte.to_bits a in
      String (b64Digit a7 a6 a5 a4 a3 a2)
        (String (b64Digit a1 a0 false false false false) "==")
  | [a; b] =>
      let '(a0, (a1, (a2, (a3, (a4, (a5, (a6, a7))))))) := Byte.to_bits a in
      let '(b0, (b1, (b2, (b3, (b4, (b5, (b6, b7))))))) := Byte.to_bits b in
      String (b64Digit a7 a6 a5 a4 a3 a2)
        (String (b64Digit a1 a0 b7 b6 b5 b4)
           (String (b64Digit b3 b2 b1 b0 false false) "="))
  | a :: b :: c :: rest =>
      let '(a0, (a1, (a2, (a3, (a4, (a5, (a6, a7))))))) := Byte.to_bits a in
      let '(b0, (b1, (b2, (b3, (b4, (b5, (b6, b7))))))) := Byte.to_bits b in
      let '(c0, (c1, (c2, (c3, (c4, (c5, (c6, c7))))))) := Byte.to_bits c in
      String (b64Digit a7 a6 a5 a4 a3 a2)
        (String (b64Digit a1 a0 b7 b6 b5 b4)
           (String (b64Digit b3 b2 b1 b0 c7 c6)
              (String (b64Digit c5 c4 c3 c2 c1 c0) (base64 rest))))
  end.

Definition urlSafe (c : ascii) : ascii :=
  if Ascii.eqb c "+" then "-"%char else if Ascii.eqb c "/" then "_"%char else c.

Definition notPad (c : ascii) : bool := negb (Ascii.eqb c "=").

Definition base64url_nopad (bs : list byte) : string :=
  NodeUrl.filterChars notPad (NodeUrl.mapChars urlSafe (base64 bs)).

(** The characters RFC 7636 allows in a code verifier. *)
Definition isUnreserved (c : ascii) : bool :=
  Url.isAlpha c || Url.isDigit c
  || Ascii.eqb c "-" || Ascii.eqb c "." || Ascii.eqb c "_" || Ascii.eqb c "~".

(** The URL-safe alphabet. *)
Definition isBase64urlChar (c : ascii) : bool :=
  Url.isAlpha c || Url.isDigit c || Ascii.eqb c "-" || Ascii.eqb c "_".

End Rfc4648.

(** ** Three sentences of the specification, as they are worded *)

Module Stated.

Import Runtime Auth.

(** [sub] occurs somewhere in [s]. *)
Definition occursIn (sub s : string) : Prop :=
  exists before after, s = before +:+ sub +:+ after.


(** A valid URL gives its [code] (whose absence is a failure) and its
    [state], the expected one standing in for an absent parameter;
    anything else is taken as the code itself. *)
Definition parsesAsStated (P : Url.Platform) (input expectedState : string) : Prop :=
  let trimmed := JsString.trim input in
  match Url.URL_new P trimmed with
  | Some url =>
      match Url.get "code" (Url.searchParams url) with
      | Some code =>
          parseCallbackInput P input expectedState
          = ParsedOk code (default expectedState (Url.get "state" (Url.searchParams url)))
      | None => exists error, parseCallbackInput P input expectedState = ParsedError error
      end
  | None => parseCallbackInput P input expectedState = ParsedOk trimmed expectedState
  end.

(** Every credential the exchange returns expires at the clock's reading
    plus the reported lifetime in milliseconds minus 300000. *)
Definition expiresAsStated (w : World) : Prop :=
  forall code verifier st creds st',
    exchangeCodeForTokens w code verifier st = (Returned creds, st') ->
    exists resp data ttl,
      tokenEndpoint w = FetchResolves resp /\ json resp = inr data
      /\ expires_in data = Doubles.Int ttl
      /\ expires creds = Doubles.Int (now w + ttl * 1000 - 300000)%Z.

(** With an account given that no profile id contains, the call fails
    with the "Google account not found" error. *)
Definition notFoundAsStated (profiles : list string)
    (resolveApiKeyForProfile : string -> option string) (account : string) : Prop :=
  (forall p, In p profiles -> ~ occursIn account p) ->
  exists message,
    Tools.resolveGoogleAccessToken profiles resolveApiKeyForProfile (Some account)
    = Threw (ErrorObj message)
    /\ String.prefix "Google account not found" message = true.

End Stated.

(** ** Decoding one base64url digit *)

Module Base64Decode.


End Base64Decode.

(** ** Summaries used to state what a run does *)

Module Summary.

Import Runtime Auth.

(** The client id and secret are both set to non-empty values. *)
Definition configured (w : World) (clientId clientSecret : string) : Prop :=
  env (proc w) !! "GOOGLE_CLIENT_ID" = Some clientId /\ clientId <> ""
  /\ env (proc w) !! "GOOGLE_CLIENT_SECRET" = Some clientSecret /\ clientSecret <> "".

(** [Date.now() + data.expires_in * 1000 - 5 * 60 * 1000], each step
    rounded as doubles are. *)
Definition expiresAt (w : World) (data : TokenJson) : Doubles.Number :=
  Doubles.sub
    (Doubles.add (Doubles.Int (now w)) (Doubles.mul (expires_in data) (Doubles.Int 1000)))
    (Doubles.Int 300000).

(** The state after one more event. *)
Definition after (st : St) (evs : list Event) : St :=
  mkSt (rngPos st) (portBound st) (trace st ++ evs).

(** What the userinfo endpoint lets the lookup recover. *)
Definition emailLookup (w : World) : option string :=
  match userinfoEndpoint w with
  | FetchRejects _ => None
  | FetchResolves resp =>
      if ok resp then
        match json resp with
        | inl _ => None
        | inr data => userinfo_email data
        end
      else None
  end.

Definition userinfoRequest (accessToken : string) : Request :=
  mkRequest USERINFO_URL "GET" [("Authorization", "Bearer " +:+ accessToken)] [].

Definition exchangeRequest (clientId clientSecret code verifier : string) : Request :=
  mkRequest TOKEN_URL "POST"
    [("Content-Type", "application/x-www-form-urlencoded")]
    [ ("client_id", clientId);
      ("client_secret", clientSecret);
      ("code", code);
      ("grant_type", "authorization_code");
      ("redirect_uri", REDIRECT_URI);
      ("code_verifier", verifier) ].

Definition refreshRequest (clientId clientSecret refreshToken : string) : Request :=
  mkRequest TOKEN_URL "POST"
    [("Content-Type", "application/x-www-form-urlencoded")]
    [ ("client_id", clientId);
      ("client_secret", clientSecret);
      ("refresh_token", refreshToken);
      ("grant_type", "refresh_token") ].

(** The same world with another answer from the userinfo endpoint. *)
Definition withUserinfo (w : World) (u : FetchResult UserinfoJson) : World :=
  mkWorld (proc w) (entropy w) (now w) (listenError w) (requests w) (onUrl w)
    (withProgress w) (pasted w) (tokenEndpoint w) u.

Definition isReturned {A} (o : Outcome A) : bool :=
  match o with
  | Returned _ => true
  | _ => false
  end.

(** A computation that settles: it returned or it threw. *)
Definition settled {A} (o : Outcome A) : Prop :=
  (exists v, o = Returned v) \/ (exists e, o = Threw e).

(** The errors a request can reject the listener's promise with. *)
Definition protocolFailure (e : Thrown) : Prop :=
  e = ErrorObj "Missing authorization code"
  \/ e = ErrorObj "OAuth state mismatch"
  \/ exists reason, e = ErrorObj ("OAuth error: " +:+ reason).

(** A computation that leaves an observation [f] of the state as it was. *)
Definition preserves {X A} (f : St -> X) (m : M A) : Prop :=
  forall st r st', m st = (r, st') -> f st' = f st.

(** The URLs the sink has received so far. *)
Definition sinks (st : St) : list string := sinkCalls (trace st).

(** The secrets of the attempt that starts drawing at position [pos] of
    the random source, and the URL built from them. *)
Definition draw (w : World) (pos n : nat) : list byte := map (entropy w) (seq pos n).

Definition attemptVerifier (w : World) (pos : nat) : string := Buffer.toHex (draw w pos 32).

Definition attemptChallenge (w : World) (pos : nat) : string :=
  Buffer.toBase64url (Sha256.sha256 (Buffer.fromUtf8 (attemptVerifier w pos))).

Definition attemptState (w : World) (pos : nat) : string := Buffer.toHex (draw w (pos + 32) 16).

Definition attemptUrl (w : World) (clientId : string) (pos : nat) : string :=
  AUTH_URL +:+ "?"
  +:+ Url.serialize (authParams clientId (attemptChallenge w pos) (attemptState w pos)).


(** The state once an attempt has drawn its 48 bytes. *)
Definition drawn (st : St) : St := mkSt (rngPos st + 32 + 16) (portBound st) (trace st).

End Summary.

(** ** Sample environments and worlds *)

Module Samples.

Import Runtime.

Definition desktop : ProcessEnv :=
  mkProcessEnv "darwin"
    (list_to_map [ ("GOOGLE_CLIENT_ID", "client-id");
                   ("GOOGLE_CLIENT_SECRET", "client-secret");
                   ("DISPLAY", ":0") ])
    None.

Definition sshSession : ProcessEnv :=
  mkProcessEnv "darwin"
    (list_to_map [ ("SSH_CLIENT", "10.0.0.7 50114 22"); ("DISPLAY", ":0") ])
    None.

(** A random source whose first 256 bytes are all different. *)
Definition counting (n : nat) : byte := Sha256.byte_of_Z (Z.of_nat n).

Definition tokenOk : FetchResult TokenJson :=
  FetchResolves
    (mkResponse true "{}"
       (inr (mkTokenJson "access-1" (Some "refresh-1") (Doubles.Int 3599)))).

Definition userinfoOk : FetchResult UserinfoJson :=
  FetchResolves (mkResponse true "{}" (inr (mkUserinfoJson (Some "ada@example.com")))).

Definition world (listenError : option Thrown) (requests : list (option string))
    (pasted : option string) (token : FetchResult TokenJson) : World :=
  mkWorld desktop counting 1700000000000 listenError requests (fun _ => None) true
    pasted token userinfoOk.

(** The token endpoint reports a lifetime of 2^53 seconds. *)
Definition longLived : World :=
  world None [] None
    (FetchResolves
       (mkResponse true "{}"
          (inr (mkTokenJson "access-1" (Some "refresh-1") (Doubles.Int (2 ^ 53)))))).

(** The state token the first attempt draws from [counting]. *)
Definition firstState : string := "202122232425262728292a2b2c2d2e2f".

(** The browser comes back with the code and the right state. *)
Definition granted : World :=
  world None
    [Some "/favicon.ico"; Some ("/oauth-callback?code=abc&state=" +:+ firstState)]
    None tokenOk.

(** The provider reports an error on the callback. *)
Definition providerError : World :=
  world None [Some "/oauth-callback?error=unsupported_response_type"]
    (Some "pasted-code") tokenOk.


(** The token endpoint refuses the code. *)
Definition refused : World :=
  world None [] None (FetchResolves (mkResponse false "invalid_grant" (inl (ErrorObj "no body")))).

(** No client id or secret in the environment. *)
Definition unconfigured : World :=
  mkWorld (mkProcessEnv "darwin" (list_to_map [("DISPLAY", ":0")]) None)
    counting 1700000000000 None [] (fun _ => None) true None tokenOk userinfoOk.

Definition profiles : list string :=
  ["google-workspace:ada@example.com"; "google-workspace:bob@example.com"].

Definition keyOf (profileId : string) : option string := Some ("key of " +:+ profileId).

End Samples.

(** ** Further observations of a run *)

Module Observed.

Import Runtime Auth.

(** The address the listener resolves request targets against. *)
Definition listenerBase : string := "http://localhost:" +:+ portText.

(** A request the platform parses to a path other than the callback's. *)
Definition otherPath (P : Url.Platform) (reqUrl : option string) : Prop :=
  exists url,
    Url.URL_new_base P (default "/" reqUrl) listenerBase = Some url
    /\ Url.pathname url <> "/oauth-callback".

(** What a request must carry for the listener to resolve with [code]. *)
Definition grants (P : Url.Platform) (expectedState : string) (reqUrl : option string)
    (code : string) : Prop :=
  exists url,
    Url.URL_new_base P (default "/" reqUrl) listenerBase = Some url
    /\ Url.pathname url = "/oauth-callback"
    /\ JsString.truthy (Url.get "error" (Url.searchParams url)) = false
    /\ Url.get "code" (Url.searchParams url) = Some code
    /\ code <> ""
    /\ Url.get "state" (Url.searchParams url) = Some expectedState.

(** The requests sent with [fetch] so far. *)
Definition fetchesOf (st : St) : list Request := fetches (trace st).

Definition isListen (ev : Event) : bool :=
  match ev with
  | EvListen _ => true
  | _ => false
  end.

(** The times a listener was bound so far. *)
Definition listens (st : St) : list Event := filter isListen (trace st).

(** Either the client id or the client secret is missing or empty. *)
Definition unconfigured (w : World) : Prop :=
  JsString.truthy (env (proc w) !! "GOOGLE_CLIENT_ID") = false
  \/ JsString.truthy (env (proc w) !! "GOOGLE_CLIENT_SECRET") = false.

(** The 404 answers given to a run of requests to other paths. *)
Definition notFounds (others : list (option string)) : list Event :=
  map (fun _ => EvRespond 404 "Not found") others.

(** A request to the userinfo endpoint. *)
Definition isUserinfo (r : Request) : Prop := req_url r = USERINFO_URL.

(** Between two states, no request was sent, or one token request with
    the given verifier, followed at most by userinfo lookups. *)
Definition sentOnlyVerifier (clientId clientSecret verifier : string) (st st' : St) : Prop :=
  fetchesOf st' = fetchesOf st
  \/ exists code rest,
      fetchesOf st'
      = (fetchesOf st
           ++ Summary.exchangeRequest clientId clientSecret code verifier :: rest)%list
      /\ Forall isUserinfo rest.

(** A computation that only adds to the record of events. *)
Definition extends {A} (m : M A) : Prop :=
  forall st r st', m st = (r, st') -> exists evs, trace st' = (trace st ++ evs)%list.

(** [f] applied to what a computation returned. *)
Definition mapOutcome {A B} (f : A -> B) (o : Outcome A) : Outcome B :=
  match o with
  | Returned a => Returned (f a)
  | Threw e => Threw e
  | Pending => Pending
  | Crashed e => Crashed e
  end.

End Observed.

(** ** Decoding base64, as [Buffer.from(text, "base64")] does

    Decoding stops at the first padding sign; other characters outside
    the alphabet are passed over; [+] and [-] both stand for 62, [/] and
    [_] for 63. *)

Module Base64.

Definition sextet : Type := bool * bool * bool * bool * bool * bool.

Definition sextetOfNat (v : nat) : sextet :=
  (Nat.testbit v 5, Nat.testbit v 4, Nat.testbit v 3,
   Nat.testbit v 2, Nat.testbit v 1, Nat.testbit v 0).

Definition valueOf (c : ascii) : option sextet :=
  let n := nat_of_ascii c in
  if Nat.leb 65 n && Nat.leb n 90 then Some (sextetOfNat (n - 65))
  else if Nat.leb 97 n && Nat.leb n 122 then Some (sextetOfNat (n - 97 + 26))
  else if Nat.leb 48 n && Nat.leb n 57 then Some (sextetOfNat (n - 48 + 52))
  else if Nat.eqb n 43 || Nat.eqb n 45 then Some (sextetOfNat 62)
  else if Nat.eqb n 47 || Nat.eqb n 95 then Some (sextetOfNat 63)
  else None.

Fixpoint sextets (s : string) : list sextet :=
  match s with
  | EmptyString => []
  | String c s' =>
      match valueOf c with
      | Some v => v :: sextets s'
      | None => if Ascii.eqb c "=" then [] else sextets s'
      end
  end.

Definition byteOf (b7 b6 b5 b4 b3 b2 b1 b0 : bool) : byte :=
  Byte.of_bits (b0, (b1, (b2, (b3, (b4, (b5, (b6, b7))))))).

(** Four sextets give three bytes; three left over give two, two give
    one, one gives none. *)
Fixpoint bytesOf (l : list sextet) : list byte :=
  match l with
  | (a5, a4, a3, a2, a1, a0) :: (b5, b4, b3, b2, b1, b0)
      :: (c5, c4, c3, c2, c1, c0) :: (d5, d4, d3, d2, d1, d0) :: rest =>
      byteOf a5 a4 a3 a2 a1 a0 b5 b4
        :: byteOf b3 b2 b1 b0 c5 c4 c3 c2
        :: byteOf c1 c0 d5 d4 d3 d2 d1 d0 :: bytesOf rest
  | [(a5, a4, a3, a2, a1, a0); (b5, b4, b3, b2, b1, b0); (c5, c4, c3, c2, c1, c0)] =>
      [byteOf a5 a4 a3 a2 a1 a0 b5 b4; byteOf b3 b2 b1 b0 c5 c4 c3 c2]
  | [(a5, a4, a3, a2, a1, a0); (b5, b4, b3, b2, b1, b0)] =>
      [byteOf a5 a4 a3 a2 a1 a0 b5 b4]
  | _ => []
  end.

(** [Buffer.from(text, "base64")] *)
Definition fromBase64 (text : string) : list byte := bytesOf (sextets text).

(** base64url with its padding, as RFC 4648 words it. *)
Definition base64url_padded (bs : list byte) : string :=
  NodeUrl.mapChars Rfc4648.urlSafe (Rfc4648.base64 bs).

End Base64.

(** ** The Gmail client of [src/google/gmail-client.ts] *)

Module Gmail.

(** What the host platform decides: [new Date(text).toISOString()]
    ([None]: the date is invalid and the call throws), and
    [buffer.toString("utf-8")]. *)
Record Host : Type := mkHost {
  toISOString : string -> option string;
  utf8ToString : list byte -> string
}.

(** The parts of [gmail_v1.Schema$Message] the client reads; a field
    that may be absent or null is an [option]. *)
Record Header : Type := mkHeader {
  h_name : option string;
  h_value : option string
}.

Record PartBody : Type := mkPartBody {
  attachmentId : option string;
  data : option string;
  size : option Z
}.

#[warnings="-register-all"]
Inductive MessagePart : Type :=
| mkPart (mimeType filename : option string) (headers : option (list Header))
         (body : option PartBody) (parts : option (list MessagePart)).

Definition partMimeType (p : MessagePart) : option string :=
  match p with mkPart m _ _ _ _ => m end.
Definition partFilename (p : MessagePart) : option string :=
  match p with mkPart _ f _ _ _ => f end.
Definition partHeaders (p : MessagePart) : option (list Header) :=
  match p with mkPart _ _ h _ _ => h end.
Definition partBody (p : MessagePart) : option PartBody :=
  match p with mkPart _ _ _ b _ => b end.
Definition partParts (p : MessagePart) : option (list MessagePart) :=
  match p with mkPart _ _ _ _ ps => ps end.

Record Message : Type := mkMessage {
  m_id : option string;
  m_threadId : option string;
  m_snippet : option string;
  m_labelIds : option (list string);
  m_payload : option MessagePart
}.

(** The types of [types.ts]. *)
Record Attachment : Type := mkAttachment {
  a_filename : string;
  a_mimeType : string;
  a_size : Z
}.

Record GmailMessageFull : Type := mkGmailMessageFull {
  id : string;
  threadId : string;
  from : string;
  to : list string;
  cc : option (list string);
  subject : string;
  date : string;
  snippet : string;
  labels : list string;
  hasAttachments : bool;
  bodyText : option string;
  bodyHtml : option string;
  attachments : option (list Attachment)
}.

(** The double quotes in a text. *)
Fixpoint countQuotes (s : string) : nat :=
  match s with
  | EmptyString => 0
  | String c s' => (if Ascii.eqb c (ascii_of_N 34) then 1 else 0) + countQuotes s'
  end.

(** [value.split(separator)], the separator being the regular expression
    of [parseAddressList]: a comma, looking ahead to an end of text that
    an even number of double quotes precedes.  The text is cut at each
    comma that an even number of double quotes follows. *)
Fixpoint splitOutsideQuotes (s : string) : list string :=
  match s with
  | EmptyString => [""]
  | String c s' =>
      if Ascii.eqb c "," && Nat.even (countQuotes s') then "" :: splitOutsideQuotes s'
      else
        match splitOutsideQuotes s' with
        | piece :: pieces => String c piece :: pieces
        | [] => [String c ""]
        end
  end.

(** Parse email address list. *)
Definition parseAddressList (value : string) : list string :=
  if String.eqb (JsString.trim value) "" then []
  else
    List.filter (fun s => negb (String.eqb s ""))
      (map JsString.trim (splitOutsideQuotes value)).

Definition dashToPlus (c : ascii) : ascii := if Ascii.eqb c "-" then "+"%char else c.
Definition underscoreToSlash (c : ascii) : ascii := if Ascii.eqb c "_" then "/"%char else c.

(** The sextets [decodeBase64] finds in a text. *)
Definition readSextets (s : string) : list Base64.sextet :=
  Base64.sextets (NodeUrl.mapChars underscoreToSlash (NodeUrl.mapChars dashToPlus s)).

Section WithHost.

Context (H : Host).

(** Convert email date string to ISO 8601. *)
Definition parseEmailDate (dateStr : string) : string :=
  match toISOString H dateStr with
  | Some iso => iso
  | None => dateStr
  end.

(** Decode base64url-encoded string. *)
Definition decodeBase64 (data : string) : string :=
  let base64 := NodeUrl.mapChars underscoreToSlash (NodeUrl.mapChars dashToPlus data) in
  utf8ToString H (Base64.fromBase64 base64).

(** [part.body?.data] and [part.body?.attachmentId] *)
Definition bodyData (part : MessagePart) : option string :=
  match partBody part with
  | Some b => data b
  | None => None
  end.

Definition bodyAttachmentId (part : MessagePart) : option string :=
  match partBody part with
  | Some b => attachmentId b
  | None => None
  end.

(** The inner [processPayload] of [extractBodyContent]; the two variables
    it assigns are passed along. *)
Fixpoint processBody (part : MessagePart) (acc : option string * option string)
  : option string * option string :=
  let mime := match partMimeType part with Some m => m | None => "" end in
  let acc1 :=
    if String.eqb mime "text/plain" && JsString.truthy (bodyData part)
    then (Some (decodeBase64 (match bodyData part with Some d => d | None => "" end)), snd acc)
    else if String.eqb mime "text/html" && JsString.truthy (bodyData part)
    then (fst acc, Some (decodeBase64 (match bodyData part with Some d => d | None => "" end)))
    else acc in
  match part with
  | mkPart _ _ _ _ (Some subParts) =>
      (fix each (l : list MessagePart) (a : option string * option string) :=
         match l with
         | [] => a
         | subPart :: rest => each rest (processBody subPart a)
         end) subParts acc1
  | mkPart _ _ _ _ None => acc1
  end.

(** Extract body content from message payload. *)
Definition extractBodyContent (payload : MessagePart) : option string * option string :=
  processBody payload (None, None).

End WithHost.

(** The inner [processPayload] of [extractAttachments]; the array it
    pushes to is passed along. *)
Fixpoint processAttachments (part : MessagePart) (acc : list Attachment) : list Attachment :=
  let acc1 :=
    if JsString.truthy (partFilename part) && JsString.truthy (bodyAttachmentId part)
    then
      (acc ++ [mkAttachment
                 (match partFilename part with Some f => f | None => "" end)
                 (match partMimeType part with
                  | Some m => m
                  | None => "application/octet-stream"
                  end)
                 (match partBody part with
                  | Some b => match size b with Some n => n | None => 0%Z end
                  | None => 0%Z
                  end)])%list
    else acc in
  match part with
  | mkPart _ _ _ _ (Some subParts) =>
      (fix each (l : list MessagePart) (a : list Attachment) :=
         match l with
         | [] => a
         | subPart :: rest => each rest (processAttachments subPart a)
         end) subParts acc1
  | mkPart _ _ _ _ None => acc1
  end.

(** Extract attachment metadata from message payload. *)
Definition extractAttachments (payload : option MessagePart) : list Attachment :=
  match payload with
  | Some part => processAttachments part []
  | None => []
  end.

(** [getHeader] of [parseGmailMessage]: the value of the first header
    whose name is [name] whatever the case, the empty text when there is
    none or when it has no value. *)
Definition getHeader (headers : list Header) (name : string) : string :=
  match
    find (fun h =>
            match h_name h with
            | Some n => String.eqb (JsString.toLowerCase n) (JsString.toLowerCase name)
            | None => false
            end) headers
  with
  | Some h => match h_value h with Some v => v | None => "" end
  | None => ""
  end.

(** Parse Gmail API message response into our types. *)
Definition parseGmailMessage (H : Host) (message : Message) (includeBody : bool)
  : GmailMessageFull :=
  let headers :=
    match m_payload message with
    | Some payload => match partHeaders payload with Some hs => hs | None => [] end
    | None => []
    end in
  let from := getHeader headers "from" in
  let to := parseAddressList (getHeader headers "to") in
  let cc := parseAddressList (getHeader headers "cc") in
  let subject := getHeader headers "subject" in
  let date := getHeader headers "date" in
  let '(textBody, htmlBody) :=
    match includeBody, m_payload message with
    | true, Some payload => extractBodyContent H payload
    | _, _ => (None, None)
    end in
  let attachments := extractAttachments (m_payload message) in
  mkGmailMessageFull
    (match m_id message with Some i => i | None => "" end)
    (match m_threadId message with Some t => t | None => "" end)
    from
    to
    (if Nat.ltb 0 (length cc) then Some cc else None)
    subject
    (parseEmailDate H date)
    (match m_snippet message with Some s => s | None => "" end)
    (match m_labelIds message with Some l => l | None => [] end)
    (Nat.ltb 0 (length attachments))
    textBody
    htmlBody
    (if Nat.ltb 0 (length attachments) then Some attachments else None).

(** The parts of a payload, each before its sub-parts, in order. *)
Fixpoint flatten (part : MessagePart) : list MessagePart :=
  part ::
  match part with
  | mkPart _ _ _ _ (Some subParts) =>
      (fix each (l : list MessagePart) : list MessagePart :=
         match l with
         | [] => []
         | subPart :: rest => (flatten subPart ++ each rest)%list
         end) subParts
  | mkPart _ _ _ _ None => []
  end.

(** A part that counts as an attachment, and what is recorded of it. *)
Definition attachmentOf (part : MessagePart) : option Attachment :=
  if JsString.truthy (partFilename part) && JsString.truthy (bodyAttachmentId part)
  then
    Some (mkAttachment
            (match partFilename part with Some f => f | None => "" end)
            (match partMimeType part with
             | Some m => m
             | None => "application/octet-stream"
             end)
            (match partBody part with
             | Some b => match size b with Some n => n | None => 0%Z end
             | None => 0%Z
             end))
  else None.

(** The data of a part of the given type that carries some. *)
Definition dataOfType (mime : string) (part : MessagePart) : option string :=
  if String.eqb (match partMimeType part with Some m => m | None => "" end) mime
     && JsString.truthy (bodyData part)
  then bodyData part
  else None.

(** The last element of a list, or else the given one. *)
Definition lastOr {A : Type} (d : option A) (l : list A) : option A :=
  match last l with
  | Some x => Some x
  | None => d
  end.

End Gmail.

(** ** More sample inputs *)

Module MoreSamples.

Import Runtime.

(** The operator pastes a callback URL that carries another state. *)
Definition wrongState : World :=
  Samples.world None []
    (Some "http://localhost:51122/oauth-callback?code=abc&state=0000") Samples.tokenOk.

(** A configured machine reached over SSH. *)
Definition remote : World :=
  mkWorld
    (mkProcessEnv "linux"
       (list_to_map [ ("GOOGLE_CLIENT_ID", "client-id");
                      ("GOOGLE_CLIENT_SECRET", "client-secret");
                      ("SSH_TTY", "/dev/pts/0") ])
       None)
    Samples.counting 1700000000000 None [] (fun _ => None) true None
    Samples.tokenOk Samples.userinfoOk.

(** A desktop whose URL sink throws. *)
Definition sinkFails : World :=
  mkWorld Samples.desktop Samples.counting 1700000000000 None []
    (fun _ => Some (ErrorObj "browser unavailable")) true None
    Samples.tokenOk Samples.userinfoOk.

Definition quote : ascii := ascii_of_N 34.

(** A header with a comma inside a quoted display name. *)
Definition quotedHeader : string :=
  String quote ("Doe, John" +:+ String quote " <j@x.org>, Jane <jane@x.org>").

(** Two headers named To, in different case. *)
Definition headers : list Gmail.Header :=
  [ Gmail.mkHeader (Some "Subject") (Some "Hello");
    Gmail.mkHeader (Some "TO") (Some "ada@example.com");
    Gmail.mkHeader (Some "to") (Some "bob@example.com") ].

End MoreSamples.

(** ** JavaScript numbers and values, as far as the tools look at them *)

From Stdlib Require QArith.

Module Js.

(** A number: a finite value, NaN or an infinity. *)
Inductive Num : Type :=
| Finite (q : QArith_base.Q)
| NaN
| PosInf
| NegInf.

Definition ofZ (z : Z) : Num := Finite (QArith_base.inject_Z z).

(** [Math.max(a, b)] *)
Definition max (a b : Num) : Num :=
  match a, b with
  | NaN, _ | _, NaN => NaN
  | PosInf, _ | _, PosInf => PosInf
  | NegInf, x | x, NegInf => x
  | Finite p, Finite q => if QArith_base.Qle_bool q p then a else b
  end.

(** [Math.min(a, b)] *)
Definition min (a b : Num) : Num :=
  match a, b with
  | NaN, _ | _, NaN => NaN
  | NegInf, _ | _, NegInf => NegInf
  | PosInf, x | x, PosInf => x
  | Finite p, Finite q => if QArith_base.Qle_bool p q then a else b
  end.

(** A value of unknown type, as the arguments of a tool call hold them. *)
#[warnings="-register-all"]
Inductive Value : Type :=
| VUndefined
| VNull
| VBool (b : bool)
| VNumber (n : Num)
| VString (s : string)
| VArray (items : list Value)
| VObject.

(** The arguments of a tool call; a key that is absent reads as
    [undefined]. *)
Abbreviation Params := (gmap string Value).

(** [typeof v === "string"] *)
Definition isString (v : Value) : bool :=
  match v with
  | VString _ => true
  | _ => false
  end.

(** The elements of an array of strings, as strings. *)
Definition strings (items : list Value) : list string :=
  omap (fun v => match v with VString s => Some s | _ => None end) items.

(** A number below an integer, and one above it. *)
Definition below (z : Z) (n : Num) : Prop :=
  match n with
  | Finite q => QArith_base.Qlt q (QArith_base.inject_Z z)
  | NegInf => True
  | _ => False
  end.

Definition above (z : Z) (n : Num) : Prop :=
  match n with
  | Finite q => QArith_base.Qlt (QArith_base.inject_Z z) q
  | PosInf => True
  | _ => False
  end.

(** A finite number between two integers, both included. *)
Definition within (lo hi : Z) (n : Num) : Prop :=
  exists q, n = Finite q
            /\ QArith_base.Qle (QArith_base.inject_Z lo) q
            /\ QArith_base.Qle q (QArith_base.inject_Z hi).

End Js.

(** ** Promises without the event loop: how an awaited call ends *)

Module Pure.

Import Runtime.

Definition andThen {A B} (o : Outcome A) (k : A -> Outcome B) : Outcome B :=
  match o with
  | Returned a => k a
  | Threw e => Threw e
  | Pending => Pending
  | Crashed e => Crashed e
  end.

Definition rejections {A} (outs : list (Outcome A)) : list Thrown :=
  omap (fun o => match o with Threw e => Some e | _ => None end) outs.

Definition crashes {A} (outs : list (Outcome A)) : list Thrown :=
  omap (fun o => match o with Crashed e => Some e | _ => None end) outs.

Fixpoint fulfilled {A} (outs : list (Outcome A)) : option (list A) :=
  match outs with
  | [] => Some []
  | Returned a :: rest =>
      match fulfilled rest with
      | Some l => Some (a :: l)
      | None => None
      end
  | _ :: _ => None
  end.

(** [await Promise.all(promises)]: the values in the order of the
    promises when all are fulfilled; the rejection that comes first in
    time, which [soonest] picks among the rejections, when there is one;
    and no end when some promise never settles and none rejects. *)
Definition promiseAll {A} (soonest : list Thrown -> Thrown) (outs : list (Outcome A))
  : Outcome (list A) :=
  match crashes outs with
  | e :: _ => Crashed e
  | [] =>
      match rejections outs with
      | _ :: _ => Threw (soonest (rejections outs))
      | [] =>
          match fulfilled outs with
          | Some l => Returned l
          | None => Pending
          end
      end
  end.

End Pure.

Declare Scope pure_scope.
Delimit Scope pure_scope with pure.
Notation "'let!' x ':=' m 'in' k" := (Pure.andThen m (fun x => k))
  (at level 10, x pattern, m at level 100, k at level 200) : pure_scope.

(** ** The client methods of [src/google/gmail-client.ts] *)

Module GmailClient.

Import Runtime Gmail.
Local Open Scope pure_scope.

Inductive Format : Type := Full | Metadata | Minimal.

Definition isFull (format : Format) : bool :=
  match format with
  | Full => true
  | _ => false
  end.

(** [gmail_v1.Schema$Label], the fields read. *)
Record ApiLabel : Type := mkApiLabel {
  l_id : option string;
  l_name : option string;
  l_type : option string;
  l_messagesTotal : option Z;
  l_messagesUnread : option Z
}.

Record GmailLabel : Type := mkGmailLabel {
  label_id : string;
  label_name : string;
  label_type : string;
  label_messagesTotal : option Z;
  label_messagesUnread : option Z
}.

(** The Gmail API behind [google.gmail({ version: "v1", auth })]: what
    each request is answered with ([response.data.messages] and the like;
    [None]: the field is absent), the same request being answered the
    same way; and which of several rejections comes first. *)
Record Api : Type := mkApi {
  messages_list : string -> Js.Num -> Outcome (option (list Message));
  messages_get : string -> Format -> Outcome Message;
  labels_list : Outcome (option (list ApiLabel));
  threads_get : string -> Format -> Outcome (option (list Message));
  soonest : list Thrown -> Thrown
}.

Record Client : Type := mkClient {
  searchMessages : string -> Js.Num -> bool -> Outcome (list GmailMessageFull);
  getMessage : string -> Format -> Outcome GmailMessageFull;
  listLabels : Outcome (list GmailLabel);
  getThread : string -> bool -> Outcome (list GmailMessageFull)
}.

Section Methods.

Context (H : Host) (api : Api).

(** Get a specific message by ID. *)
Definition getMessage_ (messageId : string) (format : Format) : Outcome GmailMessageFull :=
  let! response := messages_get api messageId format in
  Returned (parseGmailMessage H response (isFull format)).

(** Search messages using Gmail query syntax. *)
Definition searchMessages_ (query : string) (maxResults : Js.Num) (includeBody : bool)
  : Outcome (list GmailMessageFull) :=
  let! response := messages_list api query maxResults in
  let messages := match response with Some l => l | None => [] end in
  if Nat.eqb (length messages) 0 then Returned []
  else
    Pure.promiseAll (soonest api)
      (map (fun m =>
              getMessage_ (match m_id m with Some i => i | None => "" end)
                (if includeBody then Full else Metadata))
         (List.filter (fun m => JsString.truthy (m_id m)) messages)).

(** List all labels in the mailbox. *)
Definition listLabels_ : Outcome (list GmailLabel) :=
  let! response := labels_list api in
  let labels := match response with Some l => l | None => [] end in
  Returned
    (map (fun label =>
            mkGmailLabel
              (match l_id label with Some i => i | None => "" end)
              (match l_name label with Some n => n | None => "" end)
              (match l_type label with
               | Some t => if String.eqb t "system" then "system" else "user"
               | None => "user"
               end)
              (l_messagesTotal label)
              (l_messagesUnread label))
       (List.filter (fun label => JsString.truthy (l_id label) && JsString.truthy (l_name label))
          labels)).

(** Get thread with all messages. *)
Definition getThread_ (threadId : string) (includeBody : bool)
  : Outcome (list GmailMessageFull) :=
  let! response := threads_get api threadId (if includeBody then Full else Metadata) in
  let messages := match response with Some l => l | None => [] end in
  Returned (map (fun m => parseGmailMessage H m includeBody) messages).

End Methods.

(** Create a Gmail API client with the given access token; [service]
    is the API as the token opens it. *)
Definition createGmailClient (H : Host) (service : string -> Api) (accessToken : string)
  : Client :=
  let api := service accessToken in
  mkClient (searchMessages_ H api) (getMessage_ H api) (listLabels_ api) (getThread_ H api).

End GmailClient.

(** ** The Gmail tool of [agents/tools/google-gmail-tool.ts] *)

Module GmailTool.

Import Runtime Gmail GmailClient.
Local Open Scope pure_scope.

(** The objects handed to [jsonResult]. *)
Inductive Payload : Type :=
| SearchResult (query : string) (count : nat) (messages : list GmailMessageFull)
| ReadResult (message : GmailMessageFull)
| ThreadResult (threadId : string) (messageCount : nat) (messages : list GmailMessageFull)
| LabelsResult (count : nat) (labels : list GmailLabel).

Section Execute.

(** [jsonResult] and [readStringParam] of [common.js] enter as they are
    used: [readRequired] is the call with [{ required: true }], which
    returns a string or throws; [readOptional] the call without it.  The
    profile store enters as in [Tools.resolveGoogleAccessToken]. *)
Context {R : Type} (jsonResult : Payload -> R)
        (readRequired : Js.Params -> string -> Outcome string)
        (readOptional : Js.Params -> string -> Outcome (option string))
        (profiles : list string) (resolveApiKeyForProfile : string -> option string)
        (createGmailClient : string -> Client).

Definition execute (params : Js.Params) : Outcome R :=
  let! action := readRequired params "action" in
  let! account := readOptional params "account" in
  let! accessToken :=
    Tools.resolveGoogleAccessToken profiles resolveApiKeyForProfile account in
  let gmail := createGmailClient accessToken in
  if String.eqb action "search" then
    let! query := readRequired params "query" in
    let maxResultsRaw :=
      match params !! "maxResults" with
      | Some (Js.VNumber n) => n
      | _ => Js.ofZ 10
      end in
    let maxResults := Js.min (Js.max maxResultsRaw (Js.ofZ 1)) (Js.ofZ 50) in
    let includeBody :=
      match params !! "includeBody" with
      | Some (Js.VBool true) => true
      | _ => false
      end in
    let! messages := searchMessages gmail query maxResults includeBody in
    Returned (jsonResult (SearchResult query (length messages) messages))
  else if String.eqb action "read" then
    let! messageId := readRequired params "messageId" in
    let! message := getMessage gmail messageId Full in
    Returned (jsonResult (ReadResult message))
  else if String.eqb action "thread" then
    let! threadId := readRequired params "threadId" in
    let includeBody :=
      match params !! "includeBody" with
      | Some (Js.VBool true) => true
      | _ => false
      end in
    let! messages := getThread gmail threadId includeBody in
    Returned (jsonResult (ThreadResult threadId (length messages) messages))
  else if String.eqb action "labels" then
    let! labels := listLabels gmail in
    Returned (jsonResult (LabelsResult (length labels) labels))
  else Threw (ErrorObj ("Unknown gmail action: " +:+ action)).

End Execute.

End GmailTool.

(** ** The calendar tool of [agents/tools/google-calendar-tool.ts] *)

Module CalendarTool.

Import Runtime.
Local Open Scope pure_scope.

(** The options [execute] passes to [listEvents]. *)
Record ListOptions : Type := mkListOptions {
  o_calendarId : string;
  o_timeMin : option string;
  o_timeMax : option string;
  o_maxResults : Js.Num;
  o_query : option string
}.

Section Execute.

(** The events, calendars and busy times are handed on as the client
    returns them. *)
Context {CalendarEvent CalendarInfo FreeBusy : Type}.

(** The client of [calendar-client.ts], by its methods. *)
Record Client : Type := mkClient {
  listEvents : ListOptions -> Outcome (list CalendarEvent);
  getEvent : string -> string -> Outcome CalendarEvent;
  listCalendars : Outcome (list CalendarInfo);
  getFreeBusy : list string -> string -> string -> Outcome FreeBusy
}.

Inductive Payload : Type :=
| ListResult (calendarId : string) (count : nat) (events : list CalendarEvent)
| GetResult (event : CalendarEvent)
| CalendarsResult (count : nat) (calendars : list CalendarInfo)
| FreeBusyResult (timeMin timeMax : string) (freeBusy : FreeBusy).

Context {R : Type} (jsonResult : Payload -> R)
        (readRequired : Js.Params -> string -> Outcome string)
        (readOptional : Js.Params -> string -> Outcome (option string))
        (profiles : list string) (resolveApiKeyForProfile : string -> option string)
        (createCalendarClient : string -> Client).

Definition calendarIdsInvalid : string := "calendarIds must be a non-empty array of strings".

Definition execute (params : Js.Params) : Outcome R :=
  let! action := readRequired params "action" in
  let! account := readOptional params "account" in
  let! accessToken :=
    Tools.resolveGoogleAccessToken profiles resolveApiKeyForProfile account in
  let calendar := createCalendarClient accessToken in
  if String.eqb action "list" then
    let! calendarIdRead := readOptional params "calendarId" in
    let calendarId := match calendarIdRead with Some c => c | None => "primary" end in
    let! timeMin := readOptional params "timeMin" in
    let! timeMax := readOptional params "timeMax" in
    let! query := readOptional params "query" in
    let maxResultsRaw :=
      match params !! "maxResults" with
      | Some (Js.VNumber n) => n
      | _ => Js.ofZ 10
      end in
    let maxResults := Js.min (Js.max maxResultsRaw (Js.ofZ 1)) (Js.ofZ 250) in
    let! events :=
      listEvents calendar (mkListOptions calendarId timeMin timeMax maxResults query) in
    Returned (jsonResult (ListResult calendarId (length events) events))
  else if String.eqb action "get" then
    let! eventId := readRequired params "eventId" in
    let! calendarIdRead := readOptional params "calendarId" in
    let calendarId := match calendarIdRead with Some c => c | None => "primary" end in
    let! event := getEvent calendar eventId calendarId in
    Returned (jsonResult (GetResult event))
  else if String.eqb action "calendars" then
    let! calendars := listCalendars calendar in
    Returned (jsonResult (CalendarsResult (length calendars) calendars))
  else if String.eqb action "freebusy" then
    match params !! "calendarIds" with
    | Some (Js.VArray calendarIds) =>
        if Nat.eqb (length calendarIds) 0 || negb (forallb Js.isString calendarIds)
        then Threw (ErrorObj calendarIdsInvalid)
        else
          let! timeMin := readRequired params "timeMin" in
          let! timeMax := readRequired params "timeMax" in
          let! freeBusy := getFreeBusy calendar (Js.strings calendarIds) timeMin timeMax in
          Returned (jsonResult (FreeBusyResult timeMin timeMax freeBusy))
    | _ => Threw (ErrorObj calendarIdsInvalid)
    end
  else Threw (ErrorObj ("Unknown calendar action: " +:+ action)).

End Execute.

Arguments Client : clear implicits.
Arguments Payload : clear implicits.

End CalendarTool.

(** ** The logout command of the CLI *)

Module Cli.

Import Runtime.

Definition PROVIDER_NAME : string := "google-workspace".

(** A stored credential, the fields the commands read. *)
Record Credential : Type := mkCredential {
  cred_type : string;
  cred_email : option string
}.

(** [store.profiles] *)
Abbreviation Profiles := (gmap string Credential).

(** What a command does to the outside, in order. *)
Inductive Output : Type :=
| Logged (line : string)
| Errored (line : string)
| Exited (code : Z)
| Saved (profiles : Profiles).

Section Logout.

(** [info], [success] and [danger] of [globals.js] colour a line;
    [stringOf] is [String(err)].  The store of [auth-profiles.js] enters
    by what [ensureAuthProfileStore] gives (a store, or it throws), by
    the ids [listProfilesForProvider] lists in it for the provider, and
    by whether [saveAuthProfileStore] throws. *)
Context (info success danger : string -> string) (stringOf : Thrown -> string)
        (ensureAuthProfileStore : Thrown + Profiles)
        (listProfilesForProvider : Profiles -> string -> list string)
        (saveAuthProfileStore : Profiles -> option Thrown).

(** When the loop passes over a profile: an account is given, and the
    credential ([store.profiles[profileId]]) is of type oauth with
    another e-mail address, or none. *)
Definition spared (targetEmail : option string) (cred : option Credential) : bool :=
  JsString.truthy targetEmail
  && match cred with
     | Some cred =>
         String.eqb (cred_type cred) "oauth"
         && negb (match cred_email cred, targetEmail with
                  | Some e, Some t => String.eqb e t
                  | _, _ => false
                  end)
     | None => false
     end.

(** The loop over the profiles: the store, the count of removals and
    what was printed are passed along. *)
Fixpoint removeEach (targetEmail : option string) (ids : list string)
    (profiles : Profiles) (removed : nat) (out : list Output)
  : Profiles * nat * list Output :=
  match ids with
  | [] => (profiles, removed, out)
  | profileId :: rest =>
      if spared targetEmail (profiles !! profileId)
      then removeEach targetEmail rest profiles removed out
      else
        removeEach targetEmail rest (delete profileId profiles) (S removed)
          (out ++ [Logged (success ("Removed: " +:+ profileId))])%list
  end.

Definition failed (e : Thrown) (out : list Output) : list Output :=
  (out ++ [Errored (danger ("Google logout failed: " +:+ stringOf e)); Exited 1])%list.

(** The action of [google logout]; the result is what was printed and
    saved, in order. *)
Definition logout (account : option string) : list Output :=
  match ensureAuthProfileStore with
  | inl e => failed e []
  | inr store =>
      let profiles := listProfilesForProvider store PROVIDER_NAME in
      if Nat.eqb (length profiles) 0
      then [Logged (info "No Google Workspace accounts configured.")]
      else
        let '(kept, removed, out) := removeEach account profiles store 0 [] in
        if Nat.ltb 0 removed then
          match saveAuthProfileStore kept with
          | Some e => failed e out
          | None =>
              (out ++ [Saved kept;
                       Logged (success (String (ascii_of_N 10) "Removed "
                                        +:+ NilZero.string_of_uint (Nat.to_uint removed)
                                        +:+ " Google Workspace account(s)."))])%list
          end
        else if JsString.truthy account
        then (out ++ [Logged (info ("No account found matching: "
                                      +:+ match account with Some a => a | None => "" end))])%list
        else out
  end.

End Logout.

End Cli.

(** ** Sample tool calls *)

Module ToolSamples.

Import Runtime.

(** A reading of string arguments: a required one must be a non-empty
    string, an optional one is absent otherwise. *)
Definition readRequired (params : Js.Params) (key : string) : Outcome string :=
  match params !! key with
  | Some (Js.VString s) =>
      if String.eqb s "" then Threw (ErrorObj (key +:+ " required")) else Returned s
  | _ => Threw (ErrorObj (key +:+ " required"))
  end.

Definition readOptional (params : Js.Params) (key : string) : Outcome (option string) :=
  match params !! key with
  | Some (Js.VString s) => Returned (if String.eqb s "" then None else Some s)
  | _ => Returned None
  end.

Definition host : Gmail.Host := Gmail.mkHost (fun _ => None) string_of_list_byte.

Definition mail (id : string) : Gmail.Message :=
  Gmail.mkMessage (Some id) (Some "t1") (Some "hello") (Some ["INBOX"])
    (Some (Gmail.mkPart (Some "text/plain") None
             (Some [Gmail.mkHeader (Some "From") (Some "ada@example.com")])
             (Some (Gmail.mkPartBody None (Some "aGVsbG8") (Some 5%Z))) None)).

(** A mailbox of two messages and two labels, one of them unnamed. *)
Definition mailbox : GmailClient.Api :=
  GmailClient.mkApi
    (fun _ _ => Returned (Some [mail "m1"; mail "m2"]))
    (fun id _ => Returned (mail id))
    (Returned (Some [ GmailClient.mkApiLabel (Some "INBOX") (Some "INBOX") (Some "system")
                        (Some 2%Z) None;
                      GmailClient.mkApiLabel (Some "Label_1") None None None None ]))
    (fun _ _ => Returned (Some [mail "m1"]))
    (fun errors => match errors with e :: _ => e | [] => ErrorObj "" end).

Definition gmailClient (accessToken : string) : GmailClient.Client :=
  GmailClient.createGmailClient host (fun _ => mailbox) accessToken.

Definition calendarClient (accessToken : string) : CalendarTool.Client string string string :=
  CalendarTool.mkClient
    (fun _ => Returned ["standup"])
    (fun eventId _ => Returned eventId)
    (Returned ["primary"])
    (fun _ _ _ => Returned "busy").

Definition searchCall : Js.Params :=
  list_to_map [ ("action", Js.VString "search"); ("query", Js.VString "is:unread");
                ("maxResults", Js.VNumber (Js.ofZ 500)) ].

Definition listCall : Js.Params :=
  list_to_map [ ("action", Js.VString "list"); ("maxResults", Js.VNumber (Js.ofZ 0)) ].

Definition freebusyCall : Js.Params :=
  list_to_map [ ("action", Js.VString "freebusy");
                ("calendarIds", Js.VArray [Js.VString "primary"]);
                ("timeMin", Js.VString "2025-01-01T00:00:00Z");
                ("timeMax", Js.VString "2025-01-02T00:00:00Z") ].

Definition sendCall : Js.Params := list_to_map [ ("action", Js.VString "send") ].

End ToolSamples.

(** ** The process around a login: rejections that nothing handles *)

Module Process.

Import Runtime.

(** What [Runtime.St] records, together with the rejection of a promise
    that has no handler yet.  Node ends the process with such a
    rejection once the program has nothing left to run and waits for
    the outside. *)
Record State : Type := mkState {
  seen : St;
  unhandled : option Thrown
}.

(** A process in which every rejection has a handler. *)
Definition clean (st : St) : State := mkState st None.

Definition Run (A : Type) : Type := State -> Outcome A * State.

Definition ret {A} (a : A) : Run A := fun p => (Returned a, p).

Definition bind {A B} (m : Run A) (k : A -> Run B) : Run B :=
  fun p =>
    match m p with
    | (Returned a, p') => k a p'
    | (Threw e, p') => (Threw e, p')
    | (Pending, p') => (Pending, p')
    | (Crashed e, p') => (Crashed e, p')
    end.

Definition throw {A} (e : Thrown) : Run A := fun p => (Threw e, p).

(** [try { m } catch (err) { h err }] *)
Definition tryCatch {A} (m : Run A) (h : Thrown -> Run A) : Run A :=
  fun p =>
    match m p with
    | (Threw e, p') => h e p'
    | r => r
    end.

(** A step of the program that does not touch the promises. *)
Definition step {A} (m : M A) : Run A :=
  fun p => (fst (m (seen p)), mkState (snd (m (seen p))) (unhandled p)).

(** The program waits for the outside; with a rejection unhandled the
    process ends there. *)
Definition wait : Run unit :=
  fun p =>
    match unhandled p with
    | Some e => (Crashed e, p)
    | None => (Returned tt, p)
    end.

(** A promise is rejected and nothing awaits it yet. *)
Definition reject (e : Thrown) : Run unit :=
  fun p => (Returned tt, mkState (seen p) (Some e)).

(** The [await] of that promise: the rejection has its handler from here
    on, and is thrown. *)
Definition awaitRejected {A} (e : Thrown) : Run A :=
  fun p => (Threw e, mkState (seen p) None).

(** A computation that leaves an observation [f] of the recorded state
    as it was. *)
Definition keeps {X A} (f : St -> X) (m : Run A) : Prop :=
  forall p r p', m p = (r, p') -> f (seen p') = f (seen p).

(** A computation of [Runtime.M] and one of [Run] that do the same in a
    process where every rejection has a handler, and leave it so. *)
Definition agrees {A} (m : M A) (m' : Run A) : Prop :=
  forall st, m' (clean st) = (fst (m st), clean (snd (m st))).

End Process.

Declare Scope run_scope.
Delimit Scope run_scope with run.
Notation "'let*' x ':=' m 'in' k" := (Process.bind m (fun x => k))
  (at level 10, x pattern, m at level 100, k at level 200) : run_scope.
Notation "m ';;' k" := (Process.bind m (fun _ => k))
  (at level 100, k at level 200, right associativity) : run_scope.

(** ** The login flows under any caller

  [Auth] runs the flows for a caller whose callbacks return at once.
  Here the progress callback may throw, and the promise of the URL sink
  may settle only after the outside has acted (a browser is started, a
  reader answers).  A login starts with no rejection unhandled.  The
  one promise of the flows that can be rejected before it is awaited is
  the listener's, when the port cannot be bound; [wait] stands at the
  waits this rejection can reach without a handler: the sink's, and the
  operator's answer in the manual flow.  The browser's requests reach
  the listener once the local flow awaits it. *)

Module Caller.

Import Runtime Auth Process.
Local Open Scope run_scope.

(** When the sink's promise settles. *)
Inductive Settles : Type :=
| AtOnce     (* before the program next waits for the outside *)
| Later.     (* only after the outside has acted *)

Record Callbacks : Type := mkCallbacks {
  onProgress : string -> option Thrown;   (* [Some e]: [onProgress(message)] throws [e] *)
  sinkSettles : Settles
}.

(** Callbacks that return at once, whatever the message. *)
Definition prompt : Callbacks := mkCallbacks (fun _ => None) AtOnce.

Section Flow.

Context (P : Url.Platform) (w : World) (cb : Callbacks).

(** [onProgress?.(message)] *)
Definition progress (message : string) : Run unit :=
  if withProgress w
  then
    step (emit (EvProgress message)) ;;
    match onProgress cb message with
    | Some e => throw e
    | None => ret tt
    end
  else ret tt.

(** [await onUrl(url)] *)
Definition callOnUrl (url : string) : Run unit :=
  step (emit (EvUrlSink url)) ;;
  match sinkSettles cb with
  | AtOnce => ret tt
  | Later => wait
  end ;;
  match onUrl w url with
  | Some e => throw e
  | None => ret tt
  end.

(** Prompt user for input via readline. *)
Definition promptInput (message : string) : Run string :=
  step (emit (EvPrompt message)) ;;
  wait ;;
  match pasted w with
  | Some answer => ret (JsString.trim answer)
  | None => step pending
  end.

(** The listener could not bind: its promise is rejected on the next
    tick, whoever awaits it or not. *)
Definition bindFails (e : Thrown) : Run (Run CallbackOk) :=
  reject e ;; ret (awaitRejected e).

(** Start a local HTTP server to receive the OAuth callback. *)
Definition startCallbackServer (expectedState : string) : Run (Run CallbackOk) :=
  let* held := step getBound in
  match listenError w with
  | Some e => bindFails e
  | None =>
      if held then bindFails (ErrorObj addressInUse)
      else
        step (setBound true) ;;
        step (emit (EvListen REDIRECT_PORT)) ;;
        ret (step (serve P expectedState (requests w)))
  end.

(** Local Google Workspace OAuth login with automatic callback server. *)
Definition loginGoogleWorkspaceLocal : Run GoogleWorkspaceCredentials :=
  let* (verifier, challenge) := step (generatePKCE w) in
  let* stateBytes := step (randomBytes w 16) in
  let state := Buffer.toHex stateBytes in
  let* authUrl := step (buildAuthUrl w challenge state) in
  let* serverPromise := startCallbackServer state in
  callOnUrl authUrl ;;
  progress "Waiting for authorization in browser..." ;;
  let* result := serverPromise in
  step (cb_close result) ;;
  progress "Exchanging authorization code for tokens..." ;;
  step (exchangeCodeForTokens w (cb_code result) verifier).

(** Manual Google Workspace OAuth login for VPS/headless environments. *)
Definition loginGoogleWorkspaceManual : Run (option GoogleWorkspaceCredentials) :=
  let* (verifier, challenge) := step (generatePKCE w) in
  let* stateBytes := step (randomBytes w 16) in
  let state := Buffer.toHex stateBytes in
  let* authUrl := step (buildAuthUrl w challenge state) in
  callOnUrl authUrl ;;
  progress "Waiting for you to paste the callback URL..." ;;
  step (consoleLog manualInstructions) ;;
  let* callbackInput := promptInput "Paste the redirect URL here: " in
  match parseCallbackInput P callbackInput state with
  | ParsedError error => throw (ErrorObj error)
  | ParsedOk code parsedState =>
      if negb (String.eqb parsedState state)
      then throw (ErrorObj "OAuth state mismatch - please try again")
      else
        progress "Exchanging authorization code for tokens..." ;;
        let* creds := step (exchangeCodeForTokens w code verifier) in
        ret (Some creds)
  end.

(** VPS-aware Google Workspace OAuth login. *)
Definition loginGoogleWorkspace : Run (option GoogleWorkspaceCredentials) :=
  if Probe.shouldUseManualOAuthFlow (proc w) then loginGoogleWorkspaceManual
  else
    tryCatch
      (let* creds := loginGoogleWorkspaceLocal in ret (Some creds))
      (fun err =>
         if looksLikeBindFailure err
         then progress switchingToManual ;; loginGoogleWorkspaceManual
         else throw err).

End Flow.

End Caller.

(** ** Sample callers *)

Module Callers.

Import Runtime.


(** The progress callback throws on every message. *)
Definition brokenProgress : Caller.Callbacks :=
  Caller.mkCallbacks (fun _ => Some (ErrorObj "spinner closed")) Caller.AtOnce.

End Callers.

(** * Properties *)

(** ** Strings *)

Section StringFacts.

Lemma append_cons (c : ascii) (a b : string) : String c a +:+ b = String c (a +:+ b).
Proof. reflexivity. Qed.

Lemma append_empty (b : string) : "" +:+ b = b.
Proof. reflexivity. Qed.

Lemma append_nil_r (s : string) : s +:+ "" = s.
Proof.
  induction s as [|c s IH]; [reflexivity|]. now rewrite append_cons, IH.
Qed.

Lemma append_assoc (a b c : string) : (a +:+ b) +:+ c = a +:+ (b +:+ c).
Proof.
  induction a as [|x a IH]; [reflexivity|]. now rewrite !append_cons, IH.
Qed.

Lemma prefix_occurs (a s : string) :
  String.prefix a s = true <-> exists t, s = a +:+ t.
Proof.
  revert s. induction a as [|c a IH]; intros s.
  - split; [intros _; exists s; reflexivity | intros _; now destruct s].
  - destruct s as [|d s]; simpl.
    + split; [discriminate | intros [t Ht]; discriminate].
    + destruct (Ascii.ascii_dec c d) as [->|Hne].
      * rewrite IH. split; intros [t Ht]; exists t.
        -- now rewrite append_cons, Ht.
        -- rewrite append_cons in Ht. now injection Ht.
      * split; [discriminate |].
        intros [t Ht]. rewrite append_cons in Ht. injection Ht as Hc _. congruence.
Qed.

Lemma includes_nil (sub : string) : JsString.includes sub "" = String.prefix sub "".
Proof. simpl. now destruct sub. Qed.

Lemma includes_cons (sub : string) (d : ascii) (s : string) :
  JsString.includes sub (String d s)
  = String.prefix sub (String d s) || JsString.includes sub s.
Proof.
  change (JsString.includes sub (String d s))
    with (if String.prefix sub (String d s) then true else JsString.includes sub s).
  now destruct (String.prefix sub (String d s)).
Qed.

Lemma includes_occurs (sub s : string) :
  JsString.includes sub s = true <-> Stated.occursIn sub s.
Proof.
  unfold Stated.occursIn. induction s as [|d s IH].
  - rewrite includes_nil, prefix_occurs. split.
    + intros [t Ht]. exists "", t. exact Ht.
    + intros (b & a & Hs). destruct b; [|discriminate]. eauto.
  - rewrite includes_cons, orb_true_iff, IH, prefix_occurs. split.
    + intros [[t Ht] | (b & a & Hs)].
      * exists "", t. exact Ht.
      * exists (String d b), a. now rewrite append_cons, Hs.
    + intros (b & a & Hs). destruct b as [|c b].
      * left. eauto.
      * right. rewrite append_cons in Hs. injection Hs as _ Hs. eauto.
Qed.

(** A text that mentions [a +:+ b] mentions [a]. *)
Lemma includes_shorter (a b s : string) :
  JsString.includes (a +:+ b) s = true -> JsString.includes a s = true.
Proof.
  rewrite !includes_occurs. intros (pre & post & ->).
  exists pre, (b +:+ post). now rewrite append_assoc.
Qed.

Lemma truthy_set (o : option string) :
  JsString.truthy o = true <-> exists v, o = Some v /\ v <> "".
Proof.
  destruct o as [v|]; simpl.
  - rewrite negb_true_iff, String.eqb_neq. split; [eauto | intros (? & [= <-] & ?); assumption].
  - split; [discriminate | intros (? & ? & _); discriminate].
Qed.

End StringFacts.

(** ** The environment probe *)

Section ProbeFacts.

Import Runtime.

Variable pe : ProcessEnv.

Lemma envTruthy_marker (name : string) :
  Probe.envTruthy pe name = true <-> ProbeSpec.markerSet pe name.
Proof. apply truthy_set. Qed.

Lemma isWSL_layer : Probe.isWSL pe = ProbeSpec.isLinuxCompatLayer pe.
Proof.
  unfold Probe.isWSL, ProbeSpec.isLinuxCompatLayer, ProbeSpec.versionMentions,
    ProbeSpec.kernelVersion.
  destruct (String.eqb (platform pe) "linux"); simpl; [|reflexivity].
  destruct (procVersion pe); simpl; [|reflexivity].
  now rewrite orb_false_r.
Qed.

Lemma isWSL2_gen2 : Probe.isWSL2 pe = ProbeSpec.isLinuxCompatLayerGen2 pe.
Proof.
  unfold Probe.isWSL2. rewrite isWSL_layer.
  unfold ProbeSpec.isLinuxCompatLayer, ProbeSpec.isLinuxCompatLayerGen2,
    ProbeSpec.versionMentions, ProbeSpec.kernelVersion.
  destruct (String.eqb (platform pe) "linux"); simpl; [|reflexivity].
  destruct (procVersion pe) as [v|]; simpl; [|reflexivity].
  rewrite !orb_false_r.
  destruct (JsString.includes "wsl2" _) eqn:H2.
  - rewrite (includes_shorter "wsl" "2" _ H2). now rewrite orb_true_r.
  - destruct (JsString.includes "microsoft-standard" _) eqn:Hm.
    + now rewrite (includes_shorter "microsoft" "-standard" _ Hm).
    + simpl. now destruct (_ || _).
Qed.

Lemma isRemote_split :
  Probe.isRemoteEnvironment pe = ProbeSpec.isContainerish pe || ProbeSpec.isHeadlessLinux pe.
Proof.
  unfold Probe.isRemoteEnvironment, ProbeSpec.isContainerish, ProbeSpec.isHeadlessLinux.
  rewrite isWSL_layer. simpl.
  destruct (Probe.envTruthy pe "SSH_CLIENT"), (Probe.envTruthy pe "SSH_TTY"),
    (Probe.envTruthy pe "SSH_CONNECTION"), (Probe.envTruthy pe "REMOTE_CONTAINERS"),
    (Probe.envTruthy pe "CODESPACES"); simpl; try reflexivity.
  rewrite orb_false_r.
  destruct (String.eqb (platform pe) "linux"), (Probe.envTruthy pe "DISPLAY"),
    (Probe.envTruthy pe "WAYLAND_DISPLAY"), (ProbeSpec.isLinuxCompatLayer pe); reflexivity.
Qed.

Lemma decision_split :
  Probe.shouldUseManualOAuthFlow pe
  = ProbeSpec.isContainerish pe || ProbeSpec.isHeadlessLinux pe
    || ProbeSpec.isLinuxCompatLayerGen2 pe.
Proof.
  unfold Probe.shouldUseManualOAuthFlow. rewrite isWSL2_gen2, isRemote_split.
  apply orb_comm.
Qed.

End ProbeFacts.

(** C4. The probe's decision is the disjunction of the three signals: it
    is "manual" as soon as one remote-session, container or cloud-IDE
    marker is set, whatever the display variables; on Linux with neither
    display marker set and no compatibility layer; when the kernel version
    names the second-generation compatibility layer; and "local" when
    none of the three signals is there. *)
Theorem manual_decision_is_disjunction (pe : Runtime.ProcessEnv) :
  Probe.shouldUseManualOAuthFlow pe
  = ProbeSpec.isContainerish pe || ProbeSpec.isHeadlessLinux pe
    || ProbeSpec.isLinuxCompatLayerGen2 pe
  /\ (forall marker, In marker ProbeSpec.remoteMarkers ->
        ProbeSpec.markerSet pe marker -> Probe.shouldUseManualOAuthFlow pe = true)
  /\ (Runtime.platform pe = "linux" ->
      (forall d, In d ProbeSpec.displayMarkers -> ~ ProbeSpec.markerSet pe d) ->
      ProbeSpec.isLinuxCompatLayer pe = false ->
      Probe.shouldUseManualOAuthFlow pe = true)
  /\ (ProbeSpec.isLinuxCompatLayerGen2 pe = true -> Probe.shouldUseManualOAuthFlow pe = true)
  /\ ((forall marker, In marker ProbeSpec.remoteMarkers -> ~ ProbeSpec.markerSet pe marker) ->
      ProbeSpec.isHeadlessLinux pe = false ->
      ProbeSpec.isLinuxCompatLayerGen2 pe = false ->
      Probe.shouldUseManualOAuthFlow pe = false).
Proof.
  pose proof (decision_split pe) as Hd.
  assert (Hex : forall names,
             existsb (Probe.envTruthy pe) names = true
             <-> exists n, In n names /\ ProbeSpec.markerSet pe n).
  { intros names. rewrite existsb_exists.
    split; intros (n & Hin & Hn); exists n; split; trivial; now apply envTruthy_marker. }
  split; [exact Hd|]. rewrite Hd. repeat split.
  - intros marker Hin Hset.
    assert (ProbeSpec.isContainerish pe = true) as -> by (apply Hex; eauto).
    reflexivity.
  - intros Hlinux Hno Hlayer.
    assert (ProbeSpec.isHeadlessLinux pe = true) as ->; [|now rewrite orb_true_r].
    unfold ProbeSpec.isHeadlessLinux. rewrite Hlinux, Hlayer, String.eqb_refl.
    cbn [negb andb]. rewrite andb_true_r, negb_true_iff. apply not_true_is_false.
    intros Ht. apply Hex in Ht as (d & Hin & Hset). exact (Hno d Hin Hset).
  - intros ->. now rewrite orb_true_r.
  - intros Hno -> ->.
    assert (ProbeSpec.isContainerish pe = false) as ->; [|reflexivity].
    apply not_true_is_false. intros Ht. apply Hex in Ht as (m & Hin & Hset).
    exact (Hno m Hin Hset).
Qed.

(** ** Buffers: hexadecimal, base64url and the digest *)

Section BufferFacts.

Lemma list_ind3 {A} (P : list A -> Prop) :
  P [] -> (forall a, P [a]) -> (forall a b, P [a; b]) ->
  (forall a b c rest, P rest -> P (a :: b :: c :: rest)) ->
  forall l, P l.
Proof.
  intros H0 H1 H2 H3 l.
  assert (Hn : forall n l, length l <= n -> P l).
  { induction n as [|n IH]; intros [|a [|b [|c rest]]] Hl; simpl in Hl; auto; try lia.
    apply H3, IH. lia. }
  exact (Hn (length l) l (le_n _)).
Qed.



Lemma toHex_cons (b : byte) (rest : list byte) :
  Buffer.toHex (b :: rest)
  = let '(b0, (b1, (b2, (b3, (b4, (b5, (b6, b7))))))) := Byte.to_bits b in
    String (Buffer.hexDigit b7 b6 b5 b4)
      (String (Buffer.hexDigit b3 b2 b1 b0) (Buffer.toHex rest)).
Proof. reflexivity. Qed.


Lemma toHex_length (bs : list byte) : String.length (Buffer.toHex bs) = 2 * length bs.
Proof.
  induction bs as [|b bs IH]; [reflexivity|].
  rewrite toHex_cons. destruct (Byte.to_bits b) as (?&?&?&?&?&?&?&?).
  simpl. rewrite IH. lia.
Qed.

Lemma hexDigit_unreserved (b3 b2 b1 b0 : bool) :
  Rfc4648.isUnreserved (Buffer.hexDigit b3 b2 b1 b0) = true.
Proof. now destruct b3, b2, b1, b0. Qed.

Lemma toHex_unreserved (bs : list byte) :
  NodeUrl.allChars Rfc4648.isUnreserved (Buffer.toHex bs) = true.
Proof.
  induction bs as [|b bs IH]; [reflexivity|].
  rewrite toHex_cons. destruct (Byte.to_bits b) as (?&?&?&?&?&?&?&?).
  cbn [NodeUrl.allChars]. now rewrite !hexDigit_unreserved, IH.
Qed.



Lemma b64urlDigit_rfc (s5 s4 s3 s2 s1 s0 : bool) :
  Rfc4648.urlSafe (Rfc4648.b64Digit s5 s4 s3 s2 s1 s0) = Buffer.b64urlDigit s5 s4 s3 s2 s1 s0
  /\ Rfc4648.notPad (Rfc4648.urlSafe (Rfc4648.b64Digit s5 s4 s3 s2 s1 s0)) = true.
Proof. now destruct s5, s4, s3, s2, s1, s0. Qed.

(** Node's base64url rendering is RFC 4648's base64 made URL-safe, its
    padding removed. *)
Lemma toBase64url_rfc (bs : list byte) :
  Buffer.toBase64url bs = Rfc4648.base64url_nopad bs.
Proof.
  unfold Rfc4648.base64url_nopad.
  induction bs as [|a|a b|a b c rest IH] using list_ind3.
  - reflexivity.
  - cbn [Buffer.toBase64url Rfc4648.base64].
    destruct (Byte.to_bits a) as (a0&a1&a2&a3&a4&a5&a6&a7).
    cbn [NodeUrl.mapChars NodeUrl.filterChars].
    repeat match goal with
           | |- context [Rfc4648.urlSafe (Rfc4648.b64Digit ?x5 ?x4 ?x3 ?x2 ?x1 ?x0)] =>
               destruct (b64urlDigit_rfc x5 x4 x3 x2 x1 x0) as [-> ->]
           end.
    reflexivity.
  - cbn [Buffer.toBase64url Rfc4648.base64].
    destruct (Byte.to_bits a) as (a0&a1&a2&a3&a4&a5&a6&a7).
    destruct (Byte.to_bits b) as (b0&b1&b2&b3&b4&b5&b6&b7).
    cbn [NodeUrl.mapChars NodeUrl.filterChars].
    repeat match goal with
           | |- context [Rfc4648.urlSafe (Rfc4648.b64Digit ?x5 ?x4 ?x3 ?x2 ?x1 ?x0)] =>
               destruct (b64urlDigit_rfc x5 x4 x3 x2 x1 x0) as [-> ->]
           end.
    reflexivity.
  - cbn [Buffer.toBase64url Rfc4648.base64].
    destruct (Byte.to_bits a) as (a0&a1&a2&a3&a4&a5&a6&a7).
    destruct (Byte.to_bits b) as (b0&b1&b2&b3&b4&b5&b6&b7).
    destruct (Byte.to_bits c) as (c0&c1&c2&c3&c4&c5&c6&c7).
    cbn [NodeUrl.mapChars NodeUrl.filterChars].
    repeat match goal with
           | |- context [Rfc4648.urlSafe (Rfc4648.b64Digit ?x5 ?x4 ?x3 ?x2 ?x1 ?x0)] =>
               destruct (b64urlDigit_rfc x5 x4 x3 x2 x1 x0) as [-> ->]
           end.
    now rewrite IH.
Qed.

Ltac bits x :=
  let E := fresh "E" x in
  destruct (Byte.to_bits x) as (?&?&?&?&?&?&?&?) eqn:E.




Lemma toBase64url_length (bs : list byte) :
  String.length (Buffer.toBase64url bs) = (4 * length bs + 2) / 3.
Proof.
  induction bs as [|a|a b|a b c rest IH] using list_ind3; cbn [Buffer.toBase64url];
    try bits a; try bits b; try bits c; try reflexivity.
  cbn [String.length length]. rewrite IH.
  replace (4 * S (S (S (length rest))) + 2) with (4 * length rest + 2 + 4 * 3) by lia.
  rewrite Nat.div_add by lia. lia.
Qed.

Lemma b64urlDigit_alphabet (s5 s4 s3 s2 s1 s0 : bool) :
  Rfc4648.isBase64urlChar (Buffer.b64urlDigit s5 s4 s3 s2 s1 s0) = true.
Proof. now destruct s5, s4, s3, s2, s1, s0. Qed.

Lemma toBase64url_alphabet (bs : list byte) :
  NodeUrl.allChars Rfc4648.isBase64urlChar (Buffer.toBase64url bs) = true.
Proof.
  induction bs as [|a|a b|a b c rest IH] using list_ind3; cbn [Buffer.toBase64url];
    try bits a; try bits b; try bits c; cbn [NodeUrl.allChars];
    rewrite ?b64urlDigit_alphabet; auto.
Qed.

Lemma sha256_length (msg : list byte) : length (Sha256.sha256 msg) = 32.
Proof. unfold Sha256.sha256. now destruct (Sha256.absorb _ _ _). Qed.

End BufferFacts.

(** ** PKCE *)

(** C8. A generated pair has for challenge the base64url rendering,
    without padding, of the SHA-256 digest of the verifier; the verifier
    is the hexadecimal rendering of 32 bytes taken from the random source,
    64 characters long, within the 43 to 128 that RFC 7636 asks for, and
    made of unreserved characters. *)
Theorem pkce_pair_wellformed (w : Runtime.World) (st : Runtime.St) :
  exists bytes verifier challenge,
    Auth.generatePKCE w st
    = (Runtime.Returned (verifier, challenge),
       Runtime.mkSt (Runtime.rngPos st + 32) (Runtime.portBound st) (Runtime.trace st))
    /\ bytes = map (Runtime.entropy w) (seq (Runtime.rngPos st) 32)
    /\ verifier = Buffer.toHex bytes
    /\ challenge = Rfc4648.base64url_nopad (Sha256.sha256 (Buffer.fromUtf8 verifier))
    /\ String.length verifier = 64
    /\ 43 <= String.length verifier <= 128
    /\ NodeUrl.allChars Rfc4648.isUnreserved verifier = true
    /\ String.length challenge = 43
    /\ NodeUrl.allChars Rfc4648.isBase64urlChar challenge = true.
Proof.
  set (bytes := map (Runtime.entropy w) (seq (Runtime.rngPos st) 32)).
  assert (Hlen : String.length (Buffer.toHex bytes) = 64).
  { rewrite toHex_length. unfold bytes. now rewrite length_map, length_seq. }
  exists bytes, (Buffer.toHex bytes),
    (Rfc4648.base64url_nopad (Sha256.sha256 (Buffer.fromUtf8 (Buffer.toHex bytes)))).
  repeat split.
  - unfold Auth.generatePKCE, Runtime.bind, Auth.randomBytes, Runtime.ret.
    fold bytes. now rewrite toBase64url_rfc.
  - exact Hlen.
  - rewrite Hlen. lia.
  - rewrite Hlen. lia.
  - apply toHex_unreserved.
  - rewrite <- toBase64url_rfc, toBase64url_length, sha256_length. reflexivity.
  - rewrite <- toBase64url_rfc. apply toBase64url_alphabet.
Qed.

(** ** Token exchange and refresh *)

Section TokenFacts.

Import Runtime Auth Summary.

Variable w : World.

Lemma getGoogleCredentials_ok (id secret : string) (st : St) :
  configured w id secret ->
  getGoogleCredentials w st = (Returned (id, secret), st).
Proof.
  intros (Hid & Hid' & Hs & Hs'). unfold getGoogleCredentials. rewrite Hid, Hs. simpl.
  apply String.eqb_neq in Hid', Hs'. now rewrite Hid', Hs'.
Qed.

Lemma getGoogleCredentials_cases (st : St) :
  (exists id secret, configured w id secret
                     /\ getGoogleCredentials w st = (Returned (id, secret), st))
  \/ getGoogleCredentials w st = (Threw (ErrorObj credentialsMissing), st).
Proof.
  unfold getGoogleCredentials, configured.
  destruct (env (proc w) !! "GOOGLE_CLIENT_ID") as [id|]; [|now right].
  destruct (env (proc w) !! "GOOGLE_CLIENT_SECRET") as [secret|]; [|now right].
  simpl. destruct (String.eqb id "") eqn:Hi; [now right|].
  destruct (String.eqb secret "") eqn:Hs; [now right|]. simpl.
  left. exists id, secret. apply String.eqb_neq in Hi, Hs. auto.
Qed.

Lemma getUserEmail_run (accessToken : string) (st : St) :
  getUserEmail w accessToken st
  = (Returned (emailLookup w), after st [EvFetch (userinfoRequest accessToken)]).
Proof.
  cbv [getUserEmail tryCatch bind fetch emit jsonOf emailLookup after ret throw
       userinfoRequest].
  destruct (userinfoEndpoint w) as [e|resp]; [reflexivity|].
  destruct (ok resp); [|reflexivity]. now destruct (json resp).
Qed.

(** The exchange, run: one POST, then what its answer decides. *)
Lemma exchange_run (id secret code verifier : string) (st : St) :
  configured w id secret ->
  let st1 := after st [EvFetch (exchangeRequest id secret code verifier)] in
  exchangeCodeForTokens w code verifier st
  = match tokenEndpoint w with
    | FetchRejects e => (Threw e, st1)
    | FetchResolves resp =>
        if ok resp then
          match json resp with
          | inl e => (Threw e, st1)
          | inr data =>
              match refresh_token data with
              | Some r =>
                  if String.eqb r "" then (Threw (ErrorObj missingRefreshToken), st1)
                  else
                    (Returned
                       (mkCredentials (access_token data) r
                          (expiresAt w data) (emailLookup w)),
                     after st1 [EvFetch (userinfoRequest (access_token data))])
              | None => (Threw (ErrorObj missingRefreshToken), st1)
              end
          end
        else (Threw (ErrorObj ("Token exchange failed: " +:+ text resp)), st1)
    end.
Proof.
  intros Hc st1. unfold exchangeCodeForTokens, bind at 1.
  rewrite (getGoogleCredentials_ok _ _ _ Hc).
  subst st1. cbv [bind fetch emit jsonOf ret throw after exchangeRequest negb].
  destruct (tokenEndpoint w) as [e|resp]; [reflexivity|].
  destruct (ok resp); [|reflexivity].
  destruct (json resp) as [e|data]; [reflexivity|].
  destruct (refresh_token data) as [r|]; [|reflexivity].
  destruct (String.eqb r ""); [reflexivity|].
  now rewrite getUserEmail_run.
Qed.

(** The refresh, run: one POST, then what its answer decides. *)
Lemma refresh_run (id secret refreshToken : string) (st : St) :
  configured w id secret ->
  let st1 := after st [EvFetch (refreshRequest id secret refreshToken)] in
  refreshGoogleToken w refreshToken st
  = match tokenEndpoint w with
    | FetchRejects e => (Threw e, st1)
    | FetchResolves resp =>
        if ok resp then
          match json resp with
          | inl e => (Threw e, st1)
          | inr data =>
              (Returned (mkRefreshed (access_token data)
                           (expiresAt w data)), st1)
          end
        else (Threw (ErrorObj ("Token refresh failed: " +:+ text resp)), st1)
    end.
Proof.
  intros Hc st1. unfold refreshGoogleToken, bind at 1.
  rewrite (getGoogleCredentials_ok _ _ _ Hc).
  subst st1. cbv [bind fetch emit jsonOf ret throw after refreshRequest negb].
  destruct (tokenEndpoint w) as [e|resp]; [reflexivity|].
  destruct (ok resp); [|reflexivity].
  now destruct (json resp).
Qed.

End TokenFacts.

Section TokenOutcomes.

Import Runtime Auth Summary.

Lemma exchange_unconfigured (w : World) (code verifier : string) (st : St) :
  getGoogleCredentials w st = (Threw (ErrorObj credentialsMissing), st) ->
  exchangeCodeForTokens w code verifier st = (Threw (ErrorObj credentialsMissing), st).
Proof. intros H. unfold exchangeCodeForTokens, bind at 1. now rewrite H. Qed.

Lemma refresh_unconfigured (w : World) (refreshToken : string) (st : St) :
  getGoogleCredentials w st = (Threw (ErrorObj credentialsMissing), st) ->
  refreshGoogleToken w refreshToken st = (Threw (ErrorObj credentialsMissing), st).
Proof. intros H. unfold refreshGoogleToken, bind at 1. now rewrite H. Qed.

(** A returned credential comes from an accepted answer that carried a
    non-empty refresh token. *)
Lemma exchange_returned (w : World) (code verifier : string) (st st' : St)
    (creds : GoogleWorkspaceCredentials) :
  exchangeCodeForTokens w code verifier st = (Returned creds, st') ->
  exists resp data,
    tokenEndpoint w = FetchResolves resp /\ ok resp = true /\ json resp = inr data
    /\ refresh_token data = Some (refresh creds) /\ refresh creds <> ""
    /\ creds = mkCredentials (access_token data) (refresh creds)
                 (expiresAt w data) (emailLookup w).
Proof.
  destruct (getGoogleCredentials_cases w st) as [(id & secret & Hc & _) | Hmiss].
  - rewrite (exchange_run w id secret code verifier st Hc).
    destruct (tokenEndpoint w) as [e|resp]; [discriminate|].
    destruct (ok resp) eqn:Hok; [|discriminate].
    destruct (json resp) as [e|data] eqn:Hj; [discriminate|].
    destruct (refresh_token data) as [r|] eqn:Hr; [|discriminate].
    destruct (String.eqb r "") eqn:He; [discriminate|].
    intros [= <- _]. exists resp, data. simpl. apply String.eqb_neq in He. auto 10.
  - rewrite (exchange_unconfigured w code verifier st Hmiss). discriminate.
Qed.

Lemma refresh_returned (w : World) (refreshToken : string) (st st' : St) (r : Refreshed) :
  refreshGoogleToken w refreshToken st = (Returned r, st') ->
  exists resp data,
    tokenEndpoint w = FetchResolves resp /\ ok resp = true /\ json resp = inr data
    /\ r = mkRefreshed (access_token data) (expiresAt w data).
Proof.
  destruct (getGoogleCredentials_cases w st) as [(id & secret & Hc & _) | Hmiss].
  - rewrite (refresh_run w id secret refreshToken st Hc).
    destruct (tokenEndpoint w) as [e|resp]; [discriminate|].
    destruct (ok resp) eqn:Hok; [|discriminate].
    destruct (json resp) as [e|data] eqn:Hj; [discriminate|].
    intros [= <- _]. exists resp, data. auto.
  - rewrite (refresh_unconfigured w refreshToken st Hmiss). discriminate.
Qed.

End TokenOutcomes.

(** C6. With the client configured, the exchange sends its one POST and
    then: a non-success status throws "Token exchange failed: " followed
    by the response body; an accepted answer whose refresh token is absent
    or empty throws the missing-refresh-token error, which tells to revoke
    access and try again; a returned credential always carries the
    non-empty refresh token of the answer; and the email lookup, whatever
    the userinfo endpoint does, never turns a success into a failure, a
    failed lookup leaving the email absent. *)
Theorem exchange_error_handling (w : Runtime.World) (id secret code verifier : string)
    (st : Runtime.St) :
  Summary.configured w id secret ->
  let st1 := Summary.after st [Runtime.EvFetch (Summary.exchangeRequest id secret code verifier)] in
  (forall resp,
      Runtime.tokenEndpoint w = Runtime.FetchResolves resp -> Runtime.ok resp = false ->
      Auth.exchangeCodeForTokens w code verifier st
      = (Runtime.Threw (Runtime.ErrorObj ("Token exchange failed: " +:+ Runtime.text resp)), st1))
  /\ (forall resp data,
         Runtime.tokenEndpoint w = Runtime.FetchResolves resp -> Runtime.ok resp = true ->
         Runtime.json resp = inr data ->
         JsString.truthy (Runtime.refresh_token data) = false ->
         Auth.exchangeCodeForTokens w code verifier st
         = (Runtime.Threw (Runtime.ErrorObj Auth.missingRefreshToken), st1)
         /\ JsString.includes "revoke access" Auth.missingRefreshToken = true
         /\ JsString.includes "try again" Auth.missingRefreshToken = true)
  /\ (forall creds st',
         Auth.exchangeCodeForTokens w code verifier st = (Runtime.Returned creds, st') ->
         Auth.refresh creds <> ""
         /\ exists resp data,
             Runtime.tokenEndpoint w = Runtime.FetchResolves resp
             /\ Runtime.json resp = inr data
             /\ Runtime.refresh_token data = Some (Auth.refresh creds))
  /\ (forall u,
         Summary.isReturned
           (fst (Auth.exchangeCodeForTokens (Summary.withUserinfo w u) code verifier st))
         = Summary.isReturned (fst (Auth.exchangeCodeForTokens w code verifier st)))
  /\ (forall creds st',
         Auth.exchangeCodeForTokens w code verifier st = (Runtime.Returned creds, st') ->
         (forall resp data,
             Runtime.userinfoEndpoint w = Runtime.FetchResolves resp ->
             Runtime.ok resp = true -> Runtime.json resp <> inr data) ->
         Auth.email creds = None).
Proof.
  intros Hc st1.
  pose proof (exchange_run w id secret code verifier st Hc) as Hrun. cbv zeta in Hrun.
  fold st1 in Hrun. split; [|split; [|split; [|split]]].
  - intros resp Hr Hok. now rewrite Hrun, Hr, Hok.
  - intros resp data Hr Hok Hj Hfalsy. split; [|split; reflexivity].
    rewrite Hrun, Hr, Hok, Hj.
    destruct (Runtime.refresh_token data) as [r|]; [|reflexivity].
    simpl in Hfalsy. apply negb_false_iff in Hfalsy. now rewrite Hfalsy.
  - intros creds st' Hret.
    apply exchange_returned in Hret as (resp & data & Hr & _ & Hj & Ht & Hne & _).
    split; [exact Hne|]. eauto.
  - intros u.
    assert (Hc' : Summary.configured (Summary.withUserinfo w u) id secret) by exact Hc.
    rewrite (exchange_run _ id secret code verifier st Hc'), Hrun. simpl.
    destruct (Runtime.tokenEndpoint w) as [e|resp]; [reflexivity|].
    destruct (Runtime.ok resp); [|reflexivity].
    destruct (Runtime.json resp) as [e|data]; [reflexivity|].
    destruct (Runtime.refresh_token data) as [r|]; [|reflexivity].
    now destruct (String.eqb r "").
  - intros creds st' Hret Hfail.
    apply exchange_returned in Hret as (resp & data & _ & _ & _ & _ & _ & ->). simpl.
    unfold Summary.emailLookup.
    destruct (Runtime.userinfoEndpoint w) as [e|r]; [reflexivity|].
    destruct (Runtime.ok r) eqn:Hok; [|reflexivity].
    destruct (Runtime.json r) as [e|d] eqn:Hj; [reflexivity|].
    exfalso. exact (Hfail r d eq_refl Hok Hj).
Qed.

Section ExpiryFacts.

Import Doubles.

Local Open Scope Z_scope.

Lemma round_exact (z : Z) : exact z -> round z = Int z.
Proof. unfold exact, round. intros H. apply Z.ltb_lt in H. now rewrite H. Qed.

(** Within the range where doubles are exact the expiry is the sum of
    the integers. *)
Lemma expiresAt_exact (w : Runtime.World) (data : Runtime.TokenJson) (ttl : Z) :
  Runtime.expires_in data = Int ttl ->
  exact (ttl * 1000) -> exact (Runtime.now w + ttl * 1000) ->
  exact (Runtime.now w + ttl * 1000 - 300000) ->
  Summary.expiresAt w data = Int (Runtime.now w + ttl * 1000 - 300000).
Proof.
  intros Ht H1 H2 H3. unfold Summary.expiresAt. rewrite Ht.
  cbn [mul]. rewrite (round_exact _ H1). cbn [add]. rewrite (round_exact _ H2).
  unfold sub. cbn [neg add].
  rewrite Z.add_opp_r.
  now rewrite (round_exact _ H3).
Qed.

End ExpiryFacts.

(** C7, as amended.  Every credential the exchange returns, and every
    result the refresh returns, expires at what the program computes in
    doubles from the clock's reading, the lifetime the answer reports and
    the skew of 300000.  When the lifetime is a whole number of seconds
    and the product and the two sums stay below 2^53 in magnitude, that
    is exactly the clock's reading plus the lifetime in milliseconds
    minus 300000; when the answer reports no lifetime it is NaN, the call
    returning all the same.  An accepted answer does make each of them
    return. *)
Theorem expires_is_lifetime_minus_skew (w : Runtime.World) :
  (forall code verifier st creds st',
      Auth.exchangeCodeForTokens w code verifier st = (Runtime.Returned creds, st') ->
      exists resp data,
        Runtime.tokenEndpoint w = Runtime.FetchResolves resp /\ Runtime.json resp = inr data
        /\ Auth.expires creds = Summary.expiresAt w data)
  /\ (forall refreshToken st r st',
         Auth.refreshGoogleToken w refreshToken st = (Runtime.Returned r, st') ->
         exists resp data,
           Runtime.tokenEndpoint w = Runtime.FetchResolves resp /\ Runtime.json resp = inr data
           /\ Auth.refreshed_expires r = Summary.expiresAt w data)
  /\ (forall data ttl,
         Runtime.expires_in data = Doubles.Int ttl ->
         Doubles.exact (ttl * 1000) ->
         Doubles.exact (Runtime.now w + ttl * 1000) ->
         Doubles.exact (Runtime.now w + ttl * 1000 - 300000) ->
         Summary.expiresAt w data = Doubles.Int (Runtime.now w + ttl * 1000 - 300000)%Z)
  /\ (forall data,
         Runtime.expires_in data = Doubles.NaN -> Summary.expiresAt w data = Doubles.NaN)
  /\ (forall id secret resp data token,
         Summary.configured w id secret ->
         Runtime.tokenEndpoint w = Runtime.FetchResolves resp -> Runtime.ok resp = true ->
         Runtime.json resp = inr data ->
         Runtime.refresh_token data = Some token -> token <> "" ->
         (forall code verifier st, exists creds st',
             Auth.exchangeCodeForTokens w code verifier st = (Runtime.Returned creds, st'))
         /\ (forall refreshToken st, exists r st',
                Auth.refreshGoogleToken w refreshToken st = (Runtime.Returned r, st'))).
Proof.
  split; [|split; [|split; [|split]]].
  - intros code verifier st creds st' Hret.
    apply exchange_returned in Hret as (resp & data & Hr & _ & Hj & _ & _ & ->). eauto.
  - intros refreshToken st r st' Hret.
    apply refresh_returned in Hret as (resp & data & Hr & _ & Hj & ->). eauto.
  - intros data ttl. apply expiresAt_exact.
  - intros data Ht. unfold Summary.expiresAt. now rewrite Ht.
  - intros id secret resp data token Hc Hr Hok Hj Ht Hne. split.
    + intros code verifier st.
      rewrite (exchange_run w id secret code verifier st Hc), Hr, Hok, Hj, Ht.
      apply String.eqb_neq in Hne. rewrite Hne. eauto.
    + intros refreshToken st.
      rewrite (refresh_run w id secret refreshToken st Hc), Hr, Hok, Hj. eauto.
Qed.

(** C7 as worded fails beyond the exact range: with a reported lifetime
    of 2^53 seconds the credential expires at 9007200954740691968, which
    is 32 less than the sum of the integers. *)
Lemma expires_rounding_counterexample : ~ Stated.expiresAsStated Samples.longLived.
Proof.
  intros H.
  assert (Hrun : Auth.exchangeCodeForTokens Samples.longLived "code" "verifier" Runtime.initial
                 = (Runtime.Returned
                      (Auth.mkCredentials "access-1" "refresh-1"
                         (Doubles.Int 9007200954740691968) (Some "ada@example.com")),
                    snd (Auth.exchangeCodeForTokens Samples.longLived "code" "verifier"
                           Runtime.initial)))
    by (vm_compute; reflexivity).
  destruct (H _ _ _ _ _ Hrun) as (resp & data & ttl & Hr & Hj & Ht & He).
  injection Hr as <-. injection Hj as <-. injection Ht as <-.
  vm_compute in He. discriminate He.
Qed.

(** C9. With the client configured, a refresh sends exactly one request,
    a form-encoded POST to the token endpoint with
    [grant_type=refresh_token] and the given refresh token, whatever the
    answer; a non-success status throws "Token refresh failed: " followed
    by the response body; an accepted answer returns the new access token
    and the expiry and nothing else, whatever refresh token the answer
    may carry. *)
Theorem refresh_amends_access_and_expiry (w : Runtime.World)
    (id secret refreshToken : string) (st : Runtime.St) :
  Summary.configured w id secret ->
  let request := Summary.refreshRequest id secret refreshToken in
  snd (Auth.refreshGoogleToken w refreshToken st) = Summary.after st [Runtime.EvFetch request]
  /\ Auth.fetches (Runtime.trace (snd (Auth.refreshGoogleToken w refreshToken st)))
     = (Auth.fetches (Runtime.trace st) ++ [request])%list
  /\ Runtime.req_method request = "POST"
  /\ Runtime.req_url request = Auth.TOKEN_URL
  /\ Url.get "Content-Type" (Runtime.req_headers request)
     = Some "application/x-www-form-urlencoded"
  /\ Url.get "grant_type" (Runtime.req_body request) = Some "refresh_token"
  /\ Url.get "refresh_token" (Runtime.req_body request) = Some refreshToken
  /\ (forall resp,
         Runtime.tokenEndpoint w = Runtime.FetchResolves resp -> Runtime.ok resp = false ->
         fst (Auth.refreshGoogleToken w refreshToken st)
         = Runtime.Threw (Runtime.ErrorObj ("Token refresh failed: " +:+ Runtime.text resp)))
  /\ (forall resp data,
         Runtime.tokenEndpoint w = Runtime.FetchResolves resp -> Runtime.ok resp = true ->
         Runtime.json resp = inr data ->
         fst (Auth.refreshGoogleToken w refreshToken st)
         = Runtime.Returned
             (Auth.mkRefreshed (Runtime.access_token data) (Summary.expiresAt w data))).
Proof.
  intros Hc request.
  pose proof (refresh_run w id secret refreshToken st Hc) as Hrun. cbv zeta in Hrun.
  fold request in Hrun.
  assert (Hsnd : snd (Auth.refreshGoogleToken w refreshToken st)
                 = Summary.after st [Runtime.EvFetch request]).
  { rewrite Hrun. destruct (Runtime.tokenEndpoint w) as [e|resp]; [reflexivity|].
    destruct (Runtime.ok resp); [|reflexivity]. now destruct (Runtime.json resp). }
  repeat split; try reflexivity.
  - exact Hsnd.
  - rewrite Hsnd. simpl. generalize (Runtime.trace st) as t.
    induction t as [|[] t IH]; simpl; try assumption; try reflexivity. now rewrite IH.
  - intros resp Hr Hok. now rewrite Hrun, Hr, Hok.
  - intros resp data Hr Hok Hj. now rewrite Hrun, Hr, Hok, Hj.
Qed.

(** ** Account selection *)

Section SelectionFacts.

Import Runtime.

Lemma includes_false_occurs (sub s : string) :
  JsString.includes sub s = false <-> ~ Stated.occursIn sub s.
Proof.
  rewrite <- includes_occurs. now destruct (JsString.includes sub s).
Qed.

Lemma occursIn_empty (sub : string) : Stated.occursIn sub "" -> sub = "".
Proof.
  intros (b & a & H). destruct b; [|discriminate]. rewrite append_empty in H.
  now destruct sub.
Qed.

Lemma empty_occursIn (s : string) : Stated.occursIn "" s.
Proof. exists "", s. reflexivity. Qed.

Lemma findIncluding_none (a : string) (profiles : list string) :
  Tools.findIncluding a profiles = None <-> (forall q, In q profiles -> ~ Stated.occursIn a q).
Proof.
  induction profiles as [|p rest IH]; simpl.
  - split; [intros _ q [] | reflexivity].
  - destruct (JsString.includes a p) eqn:Hp.
    + split; [discriminate|]. intros H. apply includes_occurs in Hp.
      now destruct (H p (or_introl eq_refl)).
    + rewrite IH. apply includes_false_occurs in Hp. split.
      * intros H q [<-|Hq]; auto.
      * intros H q Hq. apply H. now right.
Qed.

Lemma findIncluding_first (a p : string) (before after : list string) :
  Stated.occursIn a p -> (forall q, In q before -> ~ Stated.occursIn a q) ->
  Tools.findIncluding a (before ++ p :: after) = Some p.
Proof.
  intros Hp. induction before as [|q before IH]; intros Hnone; simpl.
  - apply includes_occurs in Hp. now rewrite Hp.
  - assert (JsString.includes a q = false) as ->
        by (apply includes_false_occurs, Hnone; now left).
    apply IH. intros r Hr. apply Hnone. now right.
Qed.

End SelectionFacts.

(** C10, as amended.  With at least one profile stored: an account
    argument selects the first profile id in which it occurs anywhere; an
    account that occurs in none fails with "Google account not found: ",
    the account, and the list of the available ids; without an account
    (or with an empty one) the first profile id is selected.  The key of
    the selected profile is returned, or the "Failed to resolve" error
    when there is none.  With no profile stored, every call fails with
    "No Google Workspace account configured". *)
Theorem account_selection (resolveApiKeyForProfile : string -> option string)
    (first : string) (rest : list string) :
  let profiles := first :: rest in
  let use profileId :=
    match resolveApiKeyForProfile profileId with
    | Some apiKey => Runtime.Returned apiKey
    | None =>
        Runtime.Threw (Runtime.ErrorObj ("Failed to resolve Google credentials for "
                                         +:+ profileId +:+ ". Try: clawdbot google login"))
    end in
  (forall account before p after,
      profiles = (before ++ p :: after)%list ->
      Stated.occursIn account p ->
      (forall q, In q before -> ~ Stated.occursIn account q) ->
      Tools.resolveGoogleAccessToken profiles resolveApiKeyForProfile (Some account) = use p)
  /\ (forall account,
         (forall q, In q profiles -> ~ Stated.occursIn account q) ->
         Tools.resolveGoogleAccessToken profiles resolveApiKeyForProfile (Some account)
         = Runtime.Threw (Runtime.ErrorObj ("Google account not found: " +:+ account
                                            +:+ ". Available: " +:+ JsString.join ", " profiles)))
  /\ Tools.resolveGoogleAccessToken profiles resolveApiKeyForProfile None = use first
  /\ (forall account,
         Tools.resolveGoogleAccessToken [] resolveApiKeyForProfile account
         = Runtime.Threw (Runtime.ErrorObj Tools.noAccountConfigured)).
Proof.
  intros profiles use. repeat split.
  - intros account before p after Hsplit Hp Hnone.
    unfold Tools.resolveGoogleAccessToken. subst profiles. cbv beta iota.
    destruct (String.eqb account "") eqn:Ht; cbn [negb].
    + apply String.eqb_eq in Ht. subst account.
      destruct before as [|q before].
      * injection Hsplit as -> _. reflexivity.
      * now destruct (Hnone q (or_introl eq_refl) (empty_occursIn q)).
    + rewrite Hsplit, (findIncluding_first _ _ _ _ Hp Hnone).
      destruct (String.eqb p "") eqn:He; [|reflexivity].
      apply String.eqb_eq in He. subst p. apply occursIn_empty in Hp.
      apply String.eqb_neq in Ht. contradiction.
  - intros account Hnone.
    unfold Tools.resolveGoogleAccessToken. subst profiles. cbv beta iota.
    destruct (String.eqb account "") eqn:Ht; cbn [negb].
    + apply String.eqb_eq in Ht. subst account.
      now destruct (Hnone first (or_introl eq_refl) (empty_occursIn first)).
    + apply findIncluding_none in Hnone. now rewrite Hnone.
Qed.

(** C10 as worded fails on an empty profile store: no profile id contains
    the account, yet the error is not "Google account not found". *)
Lemma account_not_found_counterexample :
  ~ Stated.notFoundAsStated [] (fun _ => None) "work".
Proof.
  intros H. destruct H as (message & Hrun & Hprefix); [intros p []|].
  simpl in Hrun. injection Hrun as <-. vm_compute in Hprefix. discriminate.
Qed.

(** ** Manual paste-back parsing *)

(** C5, as amended.  For every input and every expected state: an input
    whose trimmed text is empty is the failure "No input provided".
    Otherwise, when the platform parses the trimmed text as a URL, a
    [code] parameter that is absent or empty is the failure "Missing
    'code' parameter in URL"; else the state is the URL's [state]
    parameter, the expected state standing in when it is absent, an empty
    one being the failure "Missing 'state' parameter. Paste the full
    URL."; else the result is the code with that state.  When the trimmed
    text is not a URL, it is the code, paired with the expected state,
    unless the expected state is empty, which is the failure "Paste the
    full redirect URL, not just the code."  The two sample inputs parse
    as the specification says. *)
Theorem parse_callback_input (P : Url.Platform) (input expectedState : string) :
  let trimmed := JsString.trim input in
  (trimmed = "" ->
   Auth.parseCallbackInput P input expectedState = Auth.ParsedError "No input provided")
  /\ (trimmed <> "" ->
      match Url.URL_new P trimmed with
      | Some url =>
          match Url.get "code" (Url.searchParams url) with
          | None =>
              Auth.parseCallbackInput P input expectedState
              = Auth.ParsedError "Missing 'code' parameter in URL"
          | Some code =>
              let state := default expectedState (Url.get "state" (Url.searchParams url)) in
              Auth.parseCallbackInput P input expectedState
              = if String.eqb code "" then Auth.ParsedError "Missing 'code' parameter in URL"
                else if String.eqb state ""
                     then Auth.ParsedError "Missing 'state' parameter. Paste the full URL."
                     else Auth.ParsedOk code state
          end
      | None =>
          Auth.parseCallbackInput P input expectedState
          = if String.eqb expectedState ""
            then Auth.ParsedError "Paste the full redirect URL, not just the code."
            else Auth.ParsedOk trimmed expectedState
      end)
  /\ Auth.parseCallbackInput NodeUrl.platform
       "http://localhost:51122/oauth-callback?code=X&state=Y" expectedState
     = Auth.ParsedOk "X" "Y"
  /\ Auth.parseCallbackInput NodeUrl.platform "justacode" "E" = Auth.ParsedOk "justacode" "E".
Proof.
  intros trimmed. split; [|split; [|split; reflexivity]].
  - intros Hblank. unfold Auth.parseCallbackInput. fold trimmed. now rewrite Hblank.
  - intros Hin. unfold Auth.parseCallbackInput. fold trimmed.
    apply String.eqb_neq in Hin. rewrite Hin.
    destruct (Url.URL_new P trimmed) as [url|]; [|reflexivity].
    destruct (Url.get "code" (Url.searchParams url)) as [code|]; [|reflexivity].
    now destruct (Url.get "state" (Url.searchParams url)).
Qed.

(** C5 as worded fails on an empty paste: the empty text is no URL, yet
    it is not taken as the code. *)
Lemma parse_empty_counterexample :
  ~ Stated.parsesAsStated NodeUrl.platform "" "E".
Proof. unfold Stated.parsesAsStated. vm_compute. discriminate. Qed.

(** ** Framing: what a step leaves alone *)

Section FrameFacts.

Import Runtime Auth Summary.

Context {X : Type} (f : St -> X).

Lemma preserves_ret {A} (a : A) : preserves f (ret a).
Proof. intros st r st' [= _ <-]. reflexivity. Qed.

Lemma preserves_throw {A} (e : Thrown) : preserves f (@throw A e).
Proof. intros st r st' [= _ <-]. reflexivity. Qed.

Lemma preserves_pending {A} : preserves f (@pending A).
Proof. intros st r st' [= _ <-]. reflexivity. Qed.

Lemma preserves_crash {A} (e : Thrown) : preserves f (@crash A e).
Proof. intros st r st' [= _ <-]. reflexivity. Qed.

Lemma preserves_bind {A B} (m : M A) (k : A -> M B) :
  preserves f m -> (forall a, preserves f (k a)) -> preserves f (bind m k).
Proof.
  intros Hm Hk st r st'. unfold bind.
  destruct (m st) as [[a|e| |e] st1] eqn:E; intros H.
  - rewrite (Hk a st1 r st' H). exact (Hm _ _ _ E).
  - injection H as _ <-. exact (Hm _ _ _ E).
  - injection H as _ <-. exact (Hm _ _ _ E).
  - injection H as _ <-. exact (Hm _ _ _ E).
Qed.

Lemma preserves_tryCatch {A} (m : M A) (h : Thrown -> M A) :
  preserves f m -> (forall e, preserves f (h e)) -> preserves f (tryCatch m h).
Proof.
  intros Hm Hh st r st'. unfold tryCatch.
  destruct (m st) as [[a|e| |e] st1] eqn:E; intros H.
  - injection H as _ <-. exact (Hm _ _ _ E).
  - rewrite (Hh e st1 r st' H). exact (Hm _ _ _ E).
  - injection H as _ <-. exact (Hm _ _ _ E).
  - injection H as _ <-. exact (Hm _ _ _ E).
Qed.

Lemma preserves_emit (ev : Event) :
  (forall st, f (after st [ev]) = f st) -> preserves f (emit ev).
Proof. intros Hev st r st' [= _ <-]. apply Hev. Qed.

Lemma preserves_setBound (b : bool) :
  (forall st, f (mkSt (rngPos st) b (trace st)) = f st) -> preserves f (setBound b).
Proof. intros Hb st r st' [= _ <-]. apply Hb. Qed.

Lemma preserves_getGoogleCredentials (w : World) : preserves f (getGoogleCredentials w).
Proof.
  intros st r st'. destruct (getGoogleCredentials_cases w st) as [(id & s & _ & ->) | ->];
    intros [= _ <-]; reflexivity.
Qed.

End FrameFacts.

Section PortAndSinkFacts.

Import Runtime Auth Summary.

Lemma sinkCalls_app (t u : list Event) :
  sinkCalls (t ++ u) = (sinkCalls t ++ sinkCalls u)%list.
Proof.
  induction t as [|ev t IH]; [reflexivity|].
  destruct ev; simpl; rewrite IH; reflexivity.
Qed.

Lemma sinks_after (st : St) (evs : list Event) :
  sinks (after st evs) = (sinks st ++ sinkCalls evs)%list.
Proof. apply sinkCalls_app. Qed.

Lemma bind_returned {A B} (m : M A) (k : A -> M B) (st st1 : St) (a : A) :
  m st = (Returned a, st1) -> bind m k st = k a st1.
Proof. intros H. unfold bind. now rewrite H. Qed.

Lemma bind_threw {A B} (m : M A) (k : A -> M B) (st st1 : St) (e : Thrown) :
  m st = (Threw e, st1) -> bind m k st = (Threw e, st1).
Proof. intros H. unfold bind. now rewrite H. Qed.

Lemma bind_pending {A B} (m : M A) (k : A -> M B) (st st1 : St) :
  m st = (Pending, st1) -> bind m k st = (Pending, st1).
Proof. intros H. unfold bind. now rewrite H. Qed.

Lemma bind_crashed {A B} (m : M A) (k : A -> M B) (st st1 : St) (e : Thrown) :
  m st = (Crashed e, st1) -> bind m k st = (Crashed e, st1).
Proof. intros H. unfold bind. now rewrite H. Qed.

End PortAndSinkFacts.

Create HintDb frame.

#[export] Hint Resolve preserves_ret preserves_throw preserves_pending preserves_crash
  preserves_getGoogleCredentials : frame.

Ltac frame_step :=
  first
    [ apply preserves_ret | apply preserves_throw | apply preserves_pending
    | apply preserves_crash | apply preserves_getGoogleCredentials
    | apply preserves_bind; [|intros ?]
    | apply preserves_tryCatch; [|intros ?]
    | apply preserves_emit; intros ?; solve [reflexivity | rewrite sinks_after; apply app_nil_r]
    | apply preserves_setBound; intros ?; reflexivity
    | match goal with
      | |- Summary.preserves _ (match ?x with _ => _ end) => destruct x
      end ].

Ltac frame := repeat frame_step; eauto with frame.

Section StepFrames.

Import Runtime Auth Summary.

Variables (P : Url.Platform) (w : World).

Lemma progress_sinks (message : string) : preserves sinks (progress w message).
Proof. unfold progress. frame. Qed.

Lemma progress_returns (message : string) (st : St) :
  exists st', progress w message st = (Returned tt, st')
              /\ portBound st' = portBound st /\ sinks st' = sinks st
              /\ rngPos st' = rngPos st.
Proof.
  unfold progress. destruct (withProgress w); eexists; (split; [reflexivity|]); auto.
  repeat split. unfold sinks. simpl. rewrite sinkCalls_app. apply app_nil_r.
Qed.

Lemma fetch_port {J} (endpoint : FetchResult J) (r : Request) :
  preserves portBound (fetch endpoint r).
Proof. unfold fetch. frame. Qed.

Lemma fetch_sinks {J} (endpoint : FetchResult J) (r : Request) :
  preserves sinks (fetch endpoint r).
Proof. unfold fetch. frame. Qed.

Lemma jsonOf_frame {X J} (f : St -> X) (resp : Response J) : preserves f (jsonOf resp).
Proof. unfold jsonOf. frame. Qed.

Lemma getUserEmail_port (token : string) : preserves portBound (getUserEmail w token).
Proof.
  intros st r st'. rewrite getUserEmail_run. intros [= _ <-]. reflexivity.
Qed.

Lemma getUserEmail_sinks (token : string) : preserves sinks (getUserEmail w token).
Proof.
  intros st r st'. rewrite getUserEmail_run. intros [= _ <-].
  rewrite sinks_after. apply app_nil_r.
Qed.

Lemma exchange_port (code verifier : string) :
  preserves portBound (exchangeCodeForTokens w code verifier).
Proof.
  unfold exchangeCodeForTokens.
  frame; auto using fetch_port, jsonOf_frame, getUserEmail_port.
Qed.

Lemma exchange_sinks (code verifier : string) :
  preserves sinks (exchangeCodeForTokens w code verifier).
Proof.
  unfold exchangeCodeForTokens.
  frame; auto using fetch_sinks, jsonOf_frame, getUserEmail_sinks.
Qed.

Lemma consoleLog_sinks (lines : list string) : preserves sinks (consoleLog lines).
Proof. induction lines as [|l lines IH]; simpl; frame. Qed.

Lemma promptInput_sinks (message : string) : preserves sinks (promptInput w message).
Proof. unfold promptInput. frame. Qed.

Lemma serverClose_sinks : preserves sinks serverClose.
Proof.
  unfold serverClose. frame.
Qed.

Lemma respond_sinks (status : N) (body : string) : preserves sinks (respond status body).
Proof. unfold respond. frame. Qed.

Lemma handleRequest_sinks (expectedState : string) (reqUrl : option string) :
  preserves sinks (handleRequest P expectedState reqUrl).
Proof.
  unfold handleRequest.
  frame; auto using respond_sinks, serverClose_sinks.
Qed.

End StepFrames.

(** ** The callback listener *)

Section ListenerFacts.

Import Runtime Auth Summary.

Variable P : Url.Platform.

Lemma handleRequest_port (expectedState : string) (reqUrl : option string)
    (st st' : St) (o : Outcome (option Settled)) :
  handleRequest P expectedState reqUrl st = (o, st') ->
  match o with
  | Returned None => portBound st' = portBound st
  | Returned (Some (Resolve _)) => portBound st' = portBound st
  | Returned (Some (Reject e)) => portBound st' = false /\ protocolFailure e
  | Threw _ => False
  | Pending => False
  | Crashed _ => portBound st' = portBound st
  end.
Proof.
  unfold handleRequest, protocolFailure.
  destruct (Url.URL_new_base P _ _) as [url|]; [|intros [= <- <-]; reflexivity].
  destruct (negb _); [intros [= <- <-]; reflexivity|].
  destruct (JsString.truthy _); [intros [= <- <-]; simpl; eauto|].
  destruct (Url.get "code" _) as [c|]; [|intros [= <- <-]; simpl; eauto].
  destruct (String.eqb c ""); [intros [= <- <-]; simpl; eauto|].
  destruct (negb _); intros [= <- <-]; simpl; eauto.
Qed.

Lemma serve_port (expectedState : string) (reqs : list (option string))
    (st st' : St) (r : Outcome CallbackOk) :
  serve P expectedState reqs st = (r, st') ->
  match r with
  | Returned result => portBound st' = portBound st /\ cb_close result = serverClose
  | Threw e => portBound st' = false /\ protocolFailure e
  | Pending => portBound st' = portBound st
  | Crashed _ => portBound st' = portBound st
  end.
Proof.
  revert st. induction reqs as [|q reqs IH]; intros st; simpl.
  - intros [= <- <-]. reflexivity.
  - unfold bind at 1.
    destruct (handleRequest P expectedState q st) as [o st1] eqn:Hq.
    apply handleRequest_port in Hq.
    destruct o as [[[code|e]|]|e| |e]; try contradiction.
    + intros [= <- <-]. auto.
    + intros [= <- <-]. exact Hq.
    + intros H. apply IH in H. rewrite <- Hq. exact H.
    + intros [= <- <-]. exact Hq.
Qed.

Lemma serve_sinks (expectedState : string) (reqs : list (option string)) :
  preserves sinks (serve P expectedState reqs).
Proof.
  induction reqs as [|q reqs IH]; simpl; frame; auto using handleRequest_sinks.
Qed.

Variable w : World.

Lemma startCallbackServer_run (expectedState : string) (st : St) :
  portBound st = false ->
  startCallbackServer P w expectedState st
  = match listenError w with
    | Some e => (Returned (throw e), st)
    | None =>
        (Returned (serve P expectedState (requests w)),
         mkSt (rngPos st) true (trace st ++ [EvListen REDIRECT_PORT]))
    end.
Proof.
  intros Hb. unfold startCallbackServer, bind at 1, getBound. rewrite Hb.
  now destruct (listenError w).
Qed.

Lemma callOnUrl_run (url : string) (st : St) :
  callOnUrl w url st
  = (match onUrl w url with Some e => Threw e | None => Returned tt end,
     after st [EvUrlSink url]).
Proof. unfold callOnUrl, bind, emit, after. now destruct (onUrl w url). Qed.

Lemma generatePKCE_run (st : St) :
  generatePKCE w st
  = (Returned (attemptVerifier w (rngPos st), attemptChallenge w (rngPos st)),
     mkSt (rngPos st + 32) (portBound st) (trace st)).
Proof. reflexivity. Qed.

Lemma buildAuthUrl_run (id secret challenge state : string) (st : St) :
  configured w id secret ->
  buildAuthUrl w challenge state st
  = (Returned (AUTH_URL +:+ "?" +:+ Url.serialize (authParams id challenge state)), st).
Proof.
  intros Hc. unfold buildAuthUrl, bind. now rewrite (getGoogleCredentials_ok w id secret st Hc).
Qed.

Lemma buildAuthUrl_unconfigured (challenge state : string) (st : St) :
  getGoogleCredentials w st = (Threw (ErrorObj credentialsMissing), st) ->
  buildAuthUrl w challenge state st = (Threw (ErrorObj credentialsMissing), st).
Proof. intros Hc. unfold buildAuthUrl, bind. now rewrite Hc. Qed.

(** The local login once its secrets are drawn and its URL built. *)
Lemma local_run (id secret : string) (st : St) :
  configured w id secret ->
  loginGoogleWorkspaceLocal P w st
  = bind (startCallbackServer P w (attemptState w (rngPos st)))
      (fun serverPromise =>
         bind (callOnUrl w (attemptUrl w id (rngPos st)))
           (fun _ =>
              bind (progress w "Waiting for authorization in browser...")
                (fun _ =>
                   bind serverPromise
                     (fun result =>
                        bind (cb_close result)
                          (fun _ =>
                             bind (progress w "Exchanging authorization code for tokens...")
                               (fun _ =>
                                  exchangeCodeForTokens w (cb_code result)
                                    (attemptVerifier w (rngPos st))))))))
      (drawn st).
Proof.
  intros Hc. unfold loginGoogleWorkspaceLocal.
  rewrite (bind_returned _ _ _ _ _ (generatePKCE_run st)). cbv beta iota.
  erewrite bind_returned by reflexivity. cbn [rngPos portBound trace].
  erewrite bind_returned by (apply (buildAuthUrl_run id secret); exact Hc).
  reflexivity.
Qed.

Lemma local_unconfigured (st : St) :
  getGoogleCredentials w (drawn st) = (Threw (ErrorObj credentialsMissing), drawn st) ->
  loginGoogleWorkspaceLocal P w st = (Threw (ErrorObj credentialsMissing), drawn st).
Proof.
  intros Hc. unfold loginGoogleWorkspaceLocal.
  rewrite (bind_returned _ _ _ _ _ (generatePKCE_run st)). cbv beta iota.
  erewrite bind_returned by reflexivity. cbn [rngPos portBound trace].
  erewrite bind_threw by (apply buildAuthUrl_unconfigured; exact Hc).
  reflexivity.
Qed.

End ListenerFacts.

Section LocalLoginPort.

Import Runtime Auth Summary.

Variables (P : Url.Platform) (w : World).

Lemma callOnUrl_ok (url : string) (st : St) :
  onUrl w url = None -> callOnUrl w url st = (Returned tt, after st [EvUrlSink url]).
Proof. intros H. now rewrite callOnUrl_run, H. Qed.



End LocalLoginPort.

(** ** The flows under any caller *)

Section RunFacts.

Import Runtime Auth Summary Process.

Lemma run_returned {A B} (m : Run A) (k : A -> Run B) (p p1 : State) (a : A) :
  m p = (Returned a, p1) -> Process.bind m k p = k a p1.
Proof. intros H. unfold Process.bind. now rewrite H. Qed.





Context {X : Type} (f : St -> X).

Lemma keeps_ret {A} (a : A) : keeps f (Process.ret a).
Proof. intros p r p' [= _ <-]. reflexivity. Qed.

Lemma keeps_throw {A} (e : Thrown) : keeps f (@Process.throw A e).
Proof. intros p r p' [= _ <-]. reflexivity. Qed.

Lemma keeps_wait : keeps f wait.
Proof. intros p r p'. unfold wait. destruct (unhandled p); intros [= _ <-]; reflexivity. Qed.

Lemma keeps_reject (e : Thrown) : keeps f (reject e).
Proof. intros p r p' [= _ <-]. reflexivity. Qed.

Lemma keeps_awaitRejected {A} (e : Thrown) : keeps f (@awaitRejected A e).
Proof. intros p r p' [= _ <-]. reflexivity. Qed.

Lemma keeps_step {A} (m : M A) : preserves f m -> keeps f (step m).
Proof.
  intros Hm p r p'. unfold step. intros [= _ <-]. cbn [seen].
  exact (Hm (seen p) _ _ (surjective_pairing _)).
Qed.

Lemma keeps_bind {A B} (m : Run A) (k : A -> Run B) :
  keeps f m -> (forall a, keeps f (k a)) -> keeps f (Process.bind m k).
Proof.
  intros Hm Hk p r p'. unfold Process.bind.
  destruct (m p) as [[a|e| |e] p1] eqn:E; intros H.
  - rewrite (Hk a p1 r p' H). exact (Hm _ _ _ E).
  - injection H as _ <-. exact (Hm _ _ _ E).
  - injection H as _ <-. exact (Hm _ _ _ E).
  - injection H as _ <-. exact (Hm _ _ _ E).
Qed.

Lemma keeps_tryCatch {A} (m : Run A) (h : Thrown -> Run A) :
  keeps f m -> (forall e, keeps f (h e)) -> keeps f (Process.tryCatch m h).
Proof.
  intros Hm Hh p r p'. unfold Process.tryCatch.
  destruct (m p) as [[a|e| |e] p1] eqn:E; intros H.
  - injection H as _ <-. exact (Hm _ _ _ E).
  - rewrite (Hh e p1 r p' H). exact (Hm _ _ _ E).
  - injection H as _ <-. exact (Hm _ _ _ E).
  - injection H as _ <-. exact (Hm _ _ _ E).
Qed.

End RunFacts.

Ltac kept_step :=
  first
    [ apply keeps_ret | apply keeps_throw | apply keeps_wait | apply keeps_reject
    | apply keeps_awaitRejected
    | apply keeps_bind; [|intros ?]
    | apply keeps_tryCatch; [|intros ?]
    | apply keeps_step
    | match goal with
      | |- Process.keeps _ (match ?x with _ => _ end) => destruct x
      end ].

Ltac kept := repeat kept_step.

Section CallerFacts.

Import Runtime Auth Summary Process.

Variables (P : Url.Platform) (w : World) (cb : Caller.Callbacks).






(** The sink is handed the URL; what follows depends on when its promise
    settles and on a rejection nobody handles yet. *)
Lemma caller_callOnUrl_run (url : string) (p : State) :
  Caller.callOnUrl w cb url p
  = (match Caller.sinkSettles cb, unhandled p with
     | Caller.Later, Some e => Crashed e
     | _, _ => match onUrl w url with Some e => Threw e | None => Returned tt end
     end,
     mkState (after (seen p) [EvUrlSink url]) (unhandled p)).
Proof.
  unfold Caller.callOnUrl, Process.bind, step, emit, wait, after. cbn.
  destruct (Caller.sinkSettles cb), (unhandled p), (onUrl w url); reflexivity.
Qed.

Lemma caller_callOnUrl_clean (url : string) (st : St) :
  Caller.callOnUrl w cb url (clean st)
  = (match onUrl w url with Some e => Threw e | None => Returned tt end,
     clean (after st [EvUrlSink url])).
Proof.
  rewrite caller_callOnUrl_run. cbn [clean seen unhandled].
  now destruct (Caller.sinkSettles cb).
Qed.

Lemma caller_callOnUrl_unhandled (url : string) (st : St) (e : Thrown) :
  Caller.callOnUrl w cb url (mkState st (Some e))
  = (match Caller.sinkSettles cb with
     | Caller.Later => Crashed e
     | Caller.AtOnce => match onUrl w url with Some e' => Threw e' | None => Returned tt end
     end,
     mkState (after st [EvUrlSink url]) (Some e)).
Proof.
  rewrite caller_callOnUrl_run. cbn [seen unhandled].
  now destruct (Caller.sinkSettles cb).
Qed.





End CallerFacts.

Section CallerPort.

Import Runtime Auth Summary Process.

Variables (P : Url.Platform) (w : World) (cb : Caller.Callbacks).



End CallerPort.



(** ** The orchestrator: sink calls and fallback *)

Section OrchestratorFacts.

Import Runtime Auth Summary.

Variables (P : Url.Platform) (w : World).

(** Whatever promise the listener hands out, awaiting it calls no sink,
    and a result it resolves with carries [serverClose]. *)
Lemma startCallbackServer_promise (expectedState : string) (st : St) :
  exists promise st1,
    startCallbackServer P w expectedState st = (Returned promise, st1)
    /\ sinks st1 = sinks st
    /\ (forall s r s', promise s = (r, s') ->
          sinks s' = sinks s
          /\ forall result, r = Returned result -> cb_close result = serverClose).
Proof.
  unfold startCallbackServer, bind at 1, getBound.
  assert (Hthrow : forall e s (r : Outcome CallbackOk) s',
             throw e s = (r, s') ->
             sinks s' = sinks s
             /\ forall result, r = Returned result -> cb_close result = serverClose).
  { intros e s r s' [= <- <-]. split; [reflexivity | discriminate]. }
  destruct (listenError w) as [e|].
  - eexists _, _. split; [reflexivity|]. split; [reflexivity|]. apply Hthrow.
  - destruct (portBound st).
    + eexists _, _. split; [reflexivity|]. split; [reflexivity|]. apply Hthrow.
    + eexists _, _. split; [reflexivity|]. split.
      * unfold sinks. simpl. rewrite sinkCalls_app. apply app_nil_r.
      * intros s r s' Hserve. split; [exact (serve_sinks P _ _ _ _ _ Hserve)|].
        intros result ->. apply serve_port in Hserve. apply Hserve.
Qed.

(** One local attempt calls the sink exactly once, with the URL of its
    own secrets. *)
Lemma local_sinks (id secret : string) (st st' : St) (r : Outcome GoogleWorkspaceCredentials) :
  configured w id secret ->
  loginGoogleWorkspaceLocal P w st = (r, st') ->
  sinks st' = (sinks st ++ [attemptUrl w id (rngPos st)])%list.
Proof.
  intros Hc. rewrite (local_run P w id secret st Hc).
  destruct (startCallbackServer_promise (attemptState w (rngPos st)) (drawn st))
    as (promise & st1 & Hs & Hsinks & Hpromise).
  rewrite (bind_returned _ _ _ _ _ Hs).
  unfold bind at 1. rewrite callOnUrl_run.
  assert (Hafter : sinks (after st1 [EvUrlSink (attemptUrl w id (rngPos st))])
                   = (sinks st ++ [attemptUrl w id (rngPos st)])%list)
    by (rewrite sinks_after, Hsinks; reflexivity).
  destruct (onUrl w _) as [e|]; [intros [= _ <-]; exact Hafter|].
  rewrite <- Hafter.
  generalize (after st1 [EvUrlSink (attemptUrl w id (rngPos st))]). intros s Hrest.
  destruct (progress_returns w "Waiting for authorization in browser..." s)
    as (s1 & Hp & _ & Hs1 & _).
  rewrite (bind_returned _ _ _ _ _ Hp) in Hrest. rewrite <- Hs1.
  destruct (promise s1) as [[result|e| |e] s2] eqn:Hawait;
    destruct (Hpromise _ _ _ Hawait) as [Hs2 Hclose]; rewrite <- Hs2.
  - rewrite (bind_returned _ _ _ _ _ Hawait), (Hclose result eq_refl) in Hrest.
    revert Hrest. apply preserves_bind; [apply serverClose_sinks|]. intros _.
    apply preserves_bind; [apply progress_sinks|]. intros _. apply exchange_sinks.
  - rewrite (bind_threw _ _ _ _ _ Hawait) in Hrest. now injection Hrest as _ <-.
  - rewrite (bind_pending _ _ _ _ Hawait) in Hrest. now injection Hrest as _ <-.
  - rewrite (bind_crashed _ _ _ _ _ Hawait) in Hrest. now injection Hrest as _ <-.
Qed.

(** One manual attempt calls the sink exactly once, with the URL of its
    own secrets. *)
Lemma manual_sinks (id secret : string) (st st' : St)
    (r : Outcome (option GoogleWorkspaceCredentials)) :
  configured w id secret ->
  loginGoogleWorkspaceManual P w st = (r, st') ->
  sinks st' = (sinks st ++ [attemptUrl w id (rngPos st)])%list.
Proof.
  intros Hc. unfold loginGoogleWorkspaceManual.
  rewrite (bind_returned _ _ _ _ _ (generatePKCE_run w st)). cbv beta iota.
  erewrite bind_returned by reflexivity. cbn [rngPos portBound trace].
  erewrite bind_returned by (apply (buildAuthUrl_run w id secret); exact Hc).
  unfold bind at 1. rewrite callOnUrl_run.
  assert (Hafter : forall s, sinks s = sinks st ->
             sinks (after s [EvUrlSink (attemptUrl w id (rngPos st))])
             = (sinks st ++ [attemptUrl w id (rngPos st)])%list)
    by (intros s Hs; rewrite sinks_after, Hs; reflexivity).
  fold (attemptUrl w id (rngPos st)).
  destruct (onUrl w _) as [e|]; [intros [= _ <-]; now apply Hafter|].
  rewrite <- (Hafter (mkSt (rngPos st + 32 + 16) (portBound st) (trace st)) eq_refl).
  apply preserves_bind; [apply progress_sinks|]. intros _.
  apply preserves_bind; [apply consoleLog_sinks|]. intros _.
  apply preserves_bind; [apply promptInput_sinks|]. intros input.
  destruct (parseCallbackInput P input _); [|apply preserves_throw].
  destruct (negb _); [apply preserves_throw|].
  apply preserves_bind; [apply progress_sinks|]. intros _.
  apply preserves_bind; [apply exchange_sinks|]. intros creds. apply preserves_ret.
Qed.

(** What the orchestrator does with an error of the local attempt. *)
Lemma fallback_decision (st st1 : St) (e : Thrown) :
  Probe.shouldUseManualOAuthFlow (proc w) = false ->
  loginGoogleWorkspaceLocal P w st = (Threw e, st1) ->
  loginGoogleWorkspace P w st
  = if looksLikeBindFailure e
    then bind (progress w switchingToManual) (fun _ => loginGoogleWorkspaceManual P w) st1
    else (Threw e, st1).
Proof.
  intros Hprobe Hlocal. unfold loginGoogleWorkspace, tryCatch. rewrite Hprobe.
  rewrite (bind_threw _ _ _ _ _ Hlocal). now destruct (looksLikeBindFailure e).
Qed.

End OrchestratorFacts.

(** ** The text of the authorization URL *)

Section UrlText.

Import Runtime Auth Summary.







Variable w : World.





End UrlText.

Section CallerOrchestrator.

Import Runtime Auth Summary Process.

Variables (P : Url.Platform) (w : World) (cb : Caller.Callbacks).















End CallerOrchestrator.


(** C2, at a failing input.  The port is free and the listener binds; the
    browser comes back with the provider error
    [unsupported_response_type]; the local attempt throws "OAuth error:
    unsupported_response_type", whose message contains "port"; and the
    orchestrator, instead of ending there, announces that the local
    callback server failed, calls the sink a second time and completes
    the login through the manual flow. *)
Theorem provider_error_triggers_fallback :
  let w := Samples.providerError in
  let local := Auth.loginGoogleWorkspaceLocal NodeUrl.platform w Runtime.initial in
  let login := Auth.loginGoogleWorkspace NodeUrl.platform w Runtime.initial in
  Runtime.listenError w = None
  /\ In (Runtime.EvListen Auth.REDIRECT_PORT) (Runtime.trace (snd local))
  /\ fst local = Runtime.Threw (Runtime.ErrorObj "OAuth error: unsupported_response_type")
  /\ Auth.looksLikeBindFailure (Runtime.ErrorObj "OAuth error: unsupported_response_type") = true
  /\ In (Runtime.EvProgress Auth.switchingToManual) (Runtime.trace (snd login))
  /\ length (Summary.sinks (snd login)) = 2
  /\ Summary.isReturned (fst login) = true.
Proof.
  vm_compute. repeat split; auto 10.
Qed.

(** The same test lets other errors through.  With no client id in the
    environment the local attempt throws the configuration error before
    it has started any listener or called the sink; the message contains
    "export", hence "port", and the orchestrator announces a failed
    callback server and starts the manual flow, which throws the same
    error again. *)
Lemma configuration_error_triggers_fallback :
  let w := Samples.unconfigured in
  let login := Auth.loginGoogleWorkspace NodeUrl.platform w Runtime.initial in
  fst (Auth.loginGoogleWorkspaceLocal NodeUrl.platform w Runtime.initial)
  = Runtime.Threw (Runtime.ErrorObj Auth.credentialsMissing)
  /\ Auth.looksLikeBindFailure (Runtime.ErrorObj Auth.credentialsMissing) = true
  /\ Runtime.trace (snd login) = [Runtime.EvProgress Auth.switchingToManual]
  /\ fst login = Runtime.Threw (Runtime.ErrorObj Auth.credentialsMissing).
Proof. vm_compute. repeat split. Qed.

(** ** Checks against published values *)

Example sha256_abc :
  Buffer.toHex (Sha256.sha256 (Buffer.fromUtf8 "abc"))
  = "ba7816bf8f01cfea414140de5dae2223b00361a396177a9cb410ff61f20015ad".
Proof. vm_compute. reflexivity. Qed.

Example sha256_two_blocks :
  Buffer.toHex
    (Sha256.sha256 (Buffer.fromUtf8 "abcdbcdecdefdefgefghfghighijhijkijkljklmklmnlmnomnopnopq"))
  = "248d6a61d20638b8e5c026930c3e6039a33ce45964ff2167f6ecedd419db06c1".
Proof. vm_compute. reflexivity. Qed.

(** The example of RFC 7636, appendix B. *)
Example challenge_rfc7636 :
  Buffer.toBase64url
    (Sha256.sha256 (Buffer.fromUtf8 "dBjftJeZ4CVP-mB92K27uhbUJU1p1r_wW1gFWFOEjXk"))
  = "E9Melhoa2OwvFrEMTJguCHaoeK1t8URWbuGJSstw-cM".
Proof. vm_compute. reflexivity. Qed.

(** Doubles beyond 2^53: a tie goes to the even significand, and the
    largest magnitude gives way to infinity. *)
Example round_ties_to_even :
  Doubles.round (2 ^ 53 + 1) = Doubles.Int (2 ^ 53)
  /\ Doubles.round (2 ^ 53 + 3) = Doubles.Int (2 ^ 53 + 4)
  /\ Doubles.round (- (2 ^ 53 + 3)) = Doubles.Int (- (2 ^ 53 + 4)).
Proof. vm_compute. auto. Qed.

Example round_overflows :
  Doubles.round (2 ^ 1024 - 2 ^ 970 - 1) = Doubles.Int (2 ^ 1024 - 2 ^ 971)
  /\ Doubles.round (2 ^ 1024 - 2 ^ 970) = Doubles.PosInf.
Proof. vm_compute. auto. Qed.

Example redirect_uri_text : Auth.REDIRECT_URI = "http://localhost:51122/oauth-callback".
Proof. reflexivity. Qed.

Example url_of_callback :
  NodeUrl.URL_new "http://localhost:51122/oauth-callback?code=4%2F0AbC&state=Y#x"
  = Some (Url.mkURL "/oauth-callback" [("code", "4/0AbC"); ("state", "Y")]).
Proof. reflexivity. Qed.

Example url_of_bare_code : NodeUrl.URL_new "justacode" = None.
Proof. reflexivity. Qed.

Example url_of_request :
  NodeUrl.URL_new_base "/oauth-callback?error=access_denied" "http://localhost:51122"
  = Some (Url.mkURL "/oauth-callback" [("error", "access_denied")]).
Proof. reflexivity. Qed.

Example serialize_sample :
  Url.serialize [("redirect_uri", "http://localhost:51122/oauth-callback"); ("scope", "a b")]
  = "redirect_uri=http%3A%2F%2Flocalhost%3A51122%2Foauth-callback&scope=a+b".
Proof. reflexivity. Qed.

Example first_state_drawn : Summary.attemptState Samples.granted 0 = Samples.firstState.
Proof. reflexivity. Qed.

(** A granted local login, from the first byte drawn to the credential. *)
Example granted_login :
  fst (Auth.loginGoogleWorkspace NodeUrl.platform Samples.granted Runtime.initial)
  = Runtime.Returned
      (Some (Auth.mkCredentials "access-1" "refresh-1" (Doubles.Int 1700003299000)
               (Some "ada@example.com"))).
Proof. vm_compute. reflexivity. Qed.

(** ** Callbacks that return at once: the flows of [Auth] *)

Section PromptCaller.

Import Runtime Auth Summary Process.

Lemma agrees_step {A} (m : M A) : agrees m (step m).
Proof. intros st. reflexivity. Qed.

Lemma agrees_ret {A} (a : A) : agrees (Runtime.ret a) (Process.ret a).
Proof. intros st. reflexivity. Qed.

Lemma agrees_throw {A} (e : Thrown) : agrees (@Runtime.throw A e) (Process.throw e).
Proof. intros st. reflexivity. Qed.

Lemma agrees_bind {A B} (m : M A) (m' : Run A) (k : A -> M B) (k' : A -> Run B) :
  agrees m m' -> (forall a, agrees (k a) (k' a)) ->
  agrees (Runtime.bind m k) (Process.bind m' k').
Proof.
  intros Hm Hk st. unfold Runtime.bind, Process.bind. rewrite (Hm st).
  destruct (m st) as [[a|e| |e] st1]; cbn [fst snd]; try reflexivity. apply Hk.
Qed.

Lemma agrees_tryCatch {A} (m : M A) (m' : Run A) (h : Thrown -> M A) (h' : Thrown -> Run A) :
  agrees m m' -> (forall e, agrees (h e) (h' e)) ->
  agrees (Runtime.tryCatch m h) (Process.tryCatch m' h').
Proof.
  intros Hm Hh st. unfold Runtime.tryCatch, Process.tryCatch. rewrite (Hm st).
  destruct (m st) as [[a|e| |e] st1]; cbn [fst snd]; try reflexivity. apply Hh.
Qed.

Variables (P : Url.Platform) (w : World).

Lemma agrees_progress (message : string) :
  agrees (progress w message) (Caller.progress w Caller.prompt message).
Proof. intros st. unfold progress, Caller.progress. now destruct (withProgress w). Qed.

Lemma agrees_callOnUrl (url : string) :
  agrees (callOnUrl w url) (Caller.callOnUrl w Caller.prompt url).
Proof.
  intros st. rewrite caller_callOnUrl_clean, callOnUrl_run. reflexivity.
Qed.

Lemma agrees_promptInput (message : string) :
  agrees (promptInput w message) (Caller.promptInput w message).
Proof. intros st. unfold promptInput, Caller.promptInput. now destruct (pasted w). Qed.

Lemma agrees_manual :
  agrees (loginGoogleWorkspaceManual P w) (Caller.loginGoogleWorkspaceManual P w Caller.prompt).
Proof.
  unfold loginGoogleWorkspaceManual, Caller.loginGoogleWorkspaceManual.
  apply agrees_bind; [apply agrees_step|]. intros [verifier challenge].
  apply agrees_bind; [apply agrees_step|]. intros stateBytes.
  apply agrees_bind; [apply agrees_step|]. intros authUrl.
  apply agrees_bind; [apply agrees_callOnUrl|]. intros _.
  apply agrees_bind; [apply agrees_progress|]. intros _.
  apply agrees_bind; [apply agrees_step|]. intros _.
  apply agrees_bind; [apply agrees_promptInput|]. intros input.
  destruct (parseCallbackInput P input _); [|apply agrees_throw].
  destruct (negb _); [apply agrees_throw|].
  apply agrees_bind; [apply agrees_progress|]. intros _.
  apply agrees_bind; [apply agrees_step|]. intros creds. apply agrees_ret.
Qed.

Hypothesis sink_returns : forall url, onUrl w url = None.

(** The local flow from the sink call on, for a listener that is bound. *)
Lemma agrees_awaiting (authUrl verifier : string) (promise : M CallbackOk) :
  agrees
    (Runtime.bind (callOnUrl w authUrl)
       (fun _ =>
          Runtime.bind (progress w "Waiting for authorization in browser...")
            (fun _ =>
               Runtime.bind promise
                 (fun result =>
                    Runtime.bind (cb_close result)
                      (fun _ =>
                         Runtime.bind (progress w "Exchanging authorization code for tokens...")
                           (fun _ => exchangeCodeForTokens w (cb_code result) verifier))))))
    (Process.bind (Caller.callOnUrl w Caller.prompt authUrl)
       (fun _ =>
          Process.bind
            (Caller.progress w Caller.prompt "Waiting for authorization in browser...")
            (fun _ =>
               Process.bind (step promise)
                 (fun result =>
                    Process.bind (step (cb_close result))
                      (fun _ =>
                         Process.bind
                           (Caller.progress w Caller.prompt
                              "Exchanging authorization code for tokens...")
                           (fun _ =>
                              step (exchangeCodeForTokens w (cb_code result) verifier))))))).
Proof.
  apply agrees_bind; [apply agrees_callOnUrl|]. intros _.
  apply agrees_bind; [apply agrees_progress|]. intros _.
  apply agrees_bind; [apply agrees_step|]. intros result.
  apply agrees_bind; [apply agrees_step|]. intros _.
  apply agrees_bind; [apply agrees_progress|]. intros _. apply agrees_step.
Qed.

(** The same for a listener that could not bind: the rejection waits
    for its handler while the sink and the progress callback run. *)
Lemma agrees_rejected (authUrl verifier : string) (e : Thrown) (st : St) :
  Process.bind (Caller.callOnUrl w Caller.prompt authUrl)
    (fun _ =>
       Process.bind
         (Caller.progress w Caller.prompt "Waiting for authorization in browser...")
         (fun _ =>
            Process.bind (awaitRejected e)
              (fun result =>
                 Process.bind (step (cb_close result))
                   (fun _ =>
                      Process.bind
                        (Caller.progress w Caller.prompt
                           "Exchanging authorization code for tokens...")
                        (fun _ =>
                           step (exchangeCodeForTokens w (cb_code result) verifier))))))
    (mkState st (Some e))
  = (Threw e,
     clean (snd (Runtime.bind (callOnUrl w authUrl)
                   (fun _ => progress w "Waiting for authorization in browser...") st))).
Proof.
  unfold Process.bind at 1. rewrite caller_callOnUrl_unhandled.
  cbn [Caller.sinkSettles Caller.prompt]. rewrite sink_returns.
  unfold Runtime.bind. rewrite callOnUrl_run, sink_returns.
  unfold progress, Caller.progress. destruct (withProgress w); reflexivity.
Qed.

Lemma agrees_local :
  agrees (loginGoogleWorkspaceLocal P w) (Caller.loginGoogleWorkspaceLocal P w Caller.prompt).
Proof.
  unfold loginGoogleWorkspaceLocal, Caller.loginGoogleWorkspaceLocal.
  apply agrees_bind; [apply agrees_step|]. intros [verifier challenge].
  apply agrees_bind; [apply agrees_step|]. intros stateBytes.
  apply agrees_bind; [apply agrees_step|]. intros authUrl.
  intros st.
  assert (Hthrows : forall e,
             Runtime.bind (callOnUrl w authUrl)
               (fun _ =>
                  Runtime.bind (progress w "Waiting for authorization in browser...")
                    (fun _ =>
                       Runtime.bind (Runtime.throw e)
                         (fun result =>
                            Runtime.bind (cb_close result)
                              (fun _ =>
                                 Runtime.bind
                                   (progress w "Exchanging authorization code for tokens...")
                                   (fun _ =>
                                      exchangeCodeForTokens w (cb_code result) verifier)))))
               st
             = (Threw e,
                snd (Runtime.bind (callOnUrl w authUrl)
                       (fun _ => progress w "Waiting for authorization in browser...") st))).
  { intros e. unfold Runtime.bind. rewrite callOnUrl_run, sink_returns.
    unfold progress. destruct (withProgress w); reflexivity. }
  assert (HC : Caller.startCallbackServer P w (Buffer.toHex stateBytes) (clean st)
               = match listenError w with
                 | Some e => (Returned (awaitRejected e), mkState st (Some e))
                 | None =>
                     if portBound st
                     then (Returned (awaitRejected (ErrorObj addressInUse)),
                           mkState st (Some (ErrorObj addressInUse)))
                     else (Returned (step (serve P (Buffer.toHex stateBytes) (requests w))),
                           clean (mkSt (rngPos st) true
                                    (trace st ++ [EvListen REDIRECT_PORT])))
                 end).
  { unfold Caller.startCallbackServer, Process.bind at 1, step, getBound. cbn [fst snd seen clean].
    destruct (listenError w); [reflexivity|]. now destruct (portBound st). }
  assert (HA : startCallbackServer P w (Buffer.toHex stateBytes) st
               = match listenError w with
                 | Some e => (Returned (Runtime.throw e), st)
                 | None =>
                     if portBound st
                     then (Returned (Runtime.throw (ErrorObj addressInUse)), st)
                     else (Returned (serve P (Buffer.toHex stateBytes) (requests w)),
                           mkSt (rngPos st) true (trace st ++ [EvListen REDIRECT_PORT]))
                 end).
  { unfold startCallbackServer, Runtime.bind at 1, getBound.
    destruct (listenError w); [reflexivity|]. now destruct (portBound st). }
  destruct (listenError w) as [e|]; [|destruct (portBound st)];
    rewrite (run_returned _ _ _ _ _ HC), (bind_returned _ _ _ _ _ HA).
  - rewrite agrees_rejected, !Hthrows. reflexivity.
  - rewrite agrees_rejected, !Hthrows. reflexivity.
  - apply agrees_awaiting.
Qed.

(** With callbacks that return at once and a sink that does not throw,
    the login of [Caller] is the login of [Auth]. *)
Lemma agrees_login :
  agrees (loginGoogleWorkspace P w) (Caller.loginGoogleWorkspace P w Caller.prompt).
Proof.
  unfold loginGoogleWorkspace, Caller.loginGoogleWorkspace.
  destruct (Probe.shouldUseManualOAuthFlow (proc w)); [apply agrees_manual|].
  apply agrees_tryCatch.
  - apply agrees_bind; [apply agrees_local|]. intros creds. apply agrees_ret.
  - intros err. destruct (looksLikeBindFailure err); [|apply agrees_throw].
    apply agrees_bind; [apply agrees_progress|]. intros _. apply agrees_manual.
Qed.

End PromptCaller.

(** ** The theorems at work on sample inputs *)

Section Witnesses.

Import Runtime Auth Summary.

Lemma desktop_configured (l : option Thrown) (reqs : list (option string))
    (p : option string) (t : FetchResult TokenJson) :
  configured (Samples.world l reqs p t) "client-id" "client-secret".
Proof. repeat split; try reflexivity; discriminate. Qed.

End Witnesses.

(** An SSH session is sent to the manual flow although [DISPLAY] is set. *)
Lemma manual_decision_witness :
  Probe.shouldUseManualOAuthFlow Samples.sshSession = true.
Proof.
  apply (proj1 (proj2 (manual_decision_is_disjunction Samples.sshSession)) "SSH_CLIENT").
  - simpl. auto.
  - exists "10.0.0.7 50114 22". split; [reflexivity | discriminate].
Defined.

(** A refused code ends the exchange with the provider's body. *)
Lemma exchange_error_witness :
  fst (Auth.exchangeCodeForTokens Samples.refused "code" "verifier" Runtime.initial)
  = Runtime.Threw (Runtime.ErrorObj "Token exchange failed: invalid_grant").
Proof.
  rewrite (proj1 (exchange_error_handling Samples.refused "client-id" "client-secret"
                    "code" "verifier" Runtime.initial (desktop_configured _ _ _ _))
             _ eq_refl eq_refl).
  reflexivity.
Defined.

(** A lifetime of 3599 seconds gives the exact sum. *)
Lemma expires_witness :
  Summary.expiresAt Samples.granted
    (Runtime.mkTokenJson "access-1" (Some "refresh-1") (Doubles.Int 3599))
  = Doubles.Int 1700003299000.
Proof.
  apply (proj1 (proj2 (proj2 (expires_is_lifetime_minus_skew Samples.granted)))
           (Runtime.mkTokenJson "access-1" (Some "refresh-1") (Doubles.Int 3599)) 3599%Z
           eq_refl);
    unfold Doubles.exact; vm_compute; reflexivity.
Defined.

(** A refresh returns the new access token and its expiry. *)
Lemma refresh_witness :
  fst (Auth.refreshGoogleToken Samples.granted "refresh-1" Runtime.initial)
  = Runtime.Returned (Auth.mkRefreshed "access-1" (Doubles.Int 1700003299000)).
Proof.
  destruct (refresh_amends_access_and_expiry Samples.granted "client-id" "client-secret"
              "refresh-1" Runtime.initial (desktop_configured _ _ _ _))
    as (_ & _ & _ & _ & _ & _ & _ & _ & Hok).
  rewrite (Hok _ _ eq_refl eq_refl eq_refl). reflexivity.
Defined.

(** "bob" selects the second profile. *)
Lemma account_selection_witness :
  Tools.resolveGoogleAccessToken Samples.profiles Samples.keyOf (Some "bob")
  = Runtime.Returned "key of google-workspace:bob@example.com".
Proof.
  apply (proj1 (account_selection Samples.keyOf "google-workspace:ada@example.com"
                  ["google-workspace:bob@example.com"])
           "bob" ["google-workspace:ada@example.com"] "google-workspace:bob@example.com" []).
  - reflexivity.
  - exists "google-workspace:", "@example.com". reflexivity.
  - intros q [<-|[]]. apply includes_false_occurs. reflexivity.
Defined.

(** A pasted bare code, blanks around it, is taken as the code. *)
Lemma parse_callback_witness :
  Auth.parseCallbackInput NodeUrl.platform "  4/0AbCdEf " "E" = Auth.ParsedOk "4/0AbCdEf" "E".
Proof.
  apply (proj1 (proj2 (parse_callback_input NodeUrl.platform "  4/0AbCdEf " "E"))
           ltac:(vm_compute; discriminate)).
Defined.



(** * Further properties of the login flow *)

Section TrimFacts.

Lemma trimEnd_cons (c : ascii) (s : string) :
  JsString.trimEnd (String c s)
  = if JsString.isWhiteSpace c && String.eqb (JsString.trimEnd s) "" then ""
    else String c (JsString.trimEnd s).
Proof. reflexivity. Qed.

Lemma trimEnd_idem (s : string) : JsString.trimEnd (JsString.trimEnd s) = JsString.trimEnd s.
Proof.
  induction s as [|c s IH]; [reflexivity|].
  rewrite trimEnd_cons.
  destruct (JsString.isWhiteSpace c && String.eqb (JsString.trimEnd s) "") eqn:E;
    [reflexivity|].
  rewrite trimEnd_cons, IH, E. reflexivity.
Qed.

(** What [trimEnd] leaves does not start with white space unless the
    text already did. *)
Lemma trimStart_trimEnd_fixed (s : string) :
  JsString.trimStart s = s -> JsString.trimStart (JsString.trimEnd s) = JsString.trimEnd s.
Proof.
  destruct s as [|c s]; [reflexivity|]. intros H. rewrite trimEnd_cons.
  destruct (JsString.isWhiteSpace c && String.eqb (JsString.trimEnd s) "") eqn:E;
    [reflexivity|].
  simpl in *. destruct (JsString.isWhiteSpace c) eqn:Hc; [|reflexivity].
  (* a text that starts with white space and is its own [trimStart] *)
  exfalso. clear E. revert c Hc H. induction s as [|d s IH]; intros c Hc H.
  - discriminate H.
  - simpl in H. destruct (JsString.isWhiteSpace d) eqn:Hd.
    + apply (IH d Hd). rewrite H at 1.
      assert (Hlen : String.length (JsString.trimStart s) <= String.length s).
      { clear. induction s as [|e s IHs]; simpl; [lia|].
        destruct (JsString.isWhiteSpace e); simpl; lia. }
      apply (f_equal String.length) in H. simpl in H. lia.
    + apply (f_equal String.length) in H. simpl in H. lia.
Qed.

Lemma trimStart_fixed (s : string) : JsString.trimStart (JsString.trimStart s) = JsString.trimStart s.
Proof.
  induction s as [|c s IH]; [reflexivity|]. simpl.
  destruct (JsString.isWhiteSpace c) eqn:Hc; [exact IH|]. simpl. now rewrite Hc.
Qed.

(** Trimming twice is trimming once. *)
Lemma trim_idem (s : string) : JsString.trim (JsString.trim s) = JsString.trim s.
Proof.
  unfold JsString.trim.
  rewrite (trimStart_trimEnd_fixed _ (trimStart_fixed s)). apply trimEnd_idem.
Qed.

End TrimFacts.

(** ** The listener, request by request *)

Section ListenerRequests.

Import Runtime Auth Summary Observed.

Variable P : Url.Platform.

Lemma after_nil (st : St) : after st [] = st.
Proof. destruct st. unfold after. simpl. now rewrite app_nil_r. Qed.

Lemma after_after (st : St) (evs evs' : list Event) :
  after (after st evs) evs' = after st (evs ++ evs').
Proof. unfold after. simpl. now rewrite app_assoc. Qed.

Lemma handleRequest_other (expectedState : string) (reqUrl : option string) (st : St) :
  otherPath P reqUrl ->
  handleRequest P expectedState reqUrl st
  = (Returned None, after st [EvRespond 404 "Not found"]).
Proof.
  intros (url & Hurl & Hpath). unfold handleRequest. fold listenerBase. rewrite Hurl.
  apply String.eqb_neq in Hpath. rewrite Hpath. reflexivity.
Qed.

Lemma handleRequest_resolved (expectedState : string) (reqUrl : option string)
    (st st' : St) (code : string) :
  handleRequest P expectedState reqUrl st = (Returned (Some (Resolve code)), st') ->
  grants P expectedState reqUrl code.
Proof.
  unfold handleRequest, grants. fold listenerBase.
  destruct (Url.URL_new_base P _ _) as [url|]; [|discriminate].
  destruct (String.eqb (Url.pathname url) "/oauth-callback") eqn:Hpath; [|discriminate].
  cbn [negb]. apply String.eqb_eq in Hpath.
  destruct (JsString.truthy _) eqn:Herr; [discriminate|].
  destruct (Url.get "code" _) as [c|] eqn:Hcode; [|discriminate].
  destruct (String.eqb c "") eqn:Hc; [discriminate|]. apply String.eqb_neq in Hc.
  destruct (bool_decide _) eqn:Hstate; cbn [negb]; [|discriminate].
  apply bool_decide_eq_true in Hstate. intros [= <- _]. exists url. auto 10.
Qed.

Lemma handleRequest_skipped (expectedState : string) (reqUrl : option string) (st st' : St) :
  handleRequest P expectedState reqUrl st = (Returned None, st') -> otherPath P reqUrl.
Proof.
  unfold handleRequest, otherPath. fold listenerBase.
  destruct (Url.URL_new_base P _ _) as [url|]; [|discriminate].
  destruct (String.eqb (Url.pathname url) "/oauth-callback") eqn:Hpath.
  - cbn [negb]. destruct (JsString.truthy _); [discriminate|].
    destruct (Url.get "code" _) as [c|]; [|discriminate].
    destruct (String.eqb c ""); [discriminate|]. destruct (negb _); discriminate.
  - intros _. apply String.eqb_neq in Hpath. eauto.
Qed.

End ListenerRequests.

(** X1.  Requests to paths other than the callback's are each answered
    404 and leave the listener as it was: it goes on with the requests
    that follow, and with none left it keeps waiting, the port bound. *)
Theorem listener_skips_other_paths (P : Url.Platform) (expectedState : string)
    (others rest : list (option string)) (st : Runtime.St) :
  Forall (Observed.otherPath P) others ->
  Auth.serve P expectedState (others ++ rest) st
  = Auth.serve P expectedState rest (Summary.after st (Observed.notFounds others))
  /\ Auth.serve P expectedState others st
     = (Runtime.Pending, Summary.after st (Observed.notFounds others)).
Proof.
  intros Hothers.
  assert (Hgo : forall tail s,
             Auth.serve P expectedState (others ++ tail) s
             = Auth.serve P expectedState tail (Summary.after s (Observed.notFounds others))).
  { intros tail. induction Hothers as [|r others Hr _ IH]; intros s.
    - now rewrite after_nil.
    - cbn [app Auth.serve].
      rewrite (bind_returned _ _ _ _ _ (handleRequest_other P expectedState r s Hr)).
      rewrite IH, after_after. reflexivity. }
  split; [apply Hgo|].
  rewrite <- (app_nil_r others) at 1. rewrite Hgo. reflexivity.
Qed.

(** X2.  Whenever the listener resolves, the request that settled it was
    the first one to the callback path, it carried no error, the expected
    state and the non-empty code that is returned; the requests before it
    all went to other paths. *)
Theorem listener_resolves_only_with_expected_state (P : Url.Platform)
    (expectedState : string) (reqs : list (option string)) (st st' : Runtime.St)
    (result : Auth.CallbackOk) :
  Auth.serve P expectedState reqs st = (Runtime.Returned result, st') ->
  exists before r rest,
    reqs = (before ++ r :: rest)%list
    /\ Forall (Observed.otherPath P) before
    /\ Observed.grants P expectedState r (Auth.cb_code result).
Proof.
  revert st. induction reqs as [|q reqs IH]; intros st; [discriminate|].
  cbn [Auth.serve]. unfold Runtime.bind at 1.
  destruct (Auth.handleRequest P expectedState q st) as [[[[code|e]|]|e| |e] st1] eqn:Hq;
    try discriminate.
  - intros [= <- _]. exists [], q, reqs. repeat split; [constructor|].
    exact (handleRequest_resolved P _ _ _ _ _ Hq).
  - intros Hrest. destruct (IH _ Hrest) as (before & r & rest & -> & Hbefore & Hr).
    exists (q :: before), r, rest. repeat split; [|exact Hr].
    constructor; [exact (handleRequest_skipped P _ _ _ _ Hq) | exact Hbefore].
Qed.

(** ** Requests sent and listeners bound during a login *)

Section MoreFrames.

Import Runtime Auth Summary Observed.

Lemma fetches_app (t u : list Event) : fetches (t ++ u) = (fetches t ++ fetches u)%list.
Proof.
  induction t as [|ev t IH]; [reflexivity|].
  destruct ev; simpl; rewrite IH; reflexivity.
Qed.

Lemma fetchesOf_after (st : St) (evs : list Event) :
  fetchesOf (after st evs) = (fetchesOf st ++ fetches evs)%list.
Proof. apply fetches_app. Qed.

Lemma listens_after (st : St) (evs : list Event) :
  listens (after st evs) = (listens st ++ filter isListen evs)%list.
Proof. unfold listens, after. simpl. apply filter_app. Qed.

Lemma fetchesOf_after_quiet (st : St) (evs : list Event) :
  fetches evs = [] -> fetchesOf (after st evs) = fetchesOf st.
Proof. intros H. rewrite fetchesOf_after, H. apply app_nil_r. Qed.

Lemma listens_after_quiet (st : St) (evs : list Event) :
  filter isListen evs = [] -> listens (after st evs) = listens st.
Proof. intros H. rewrite listens_after, H. apply app_nil_r. Qed.

Lemma preserves_randomBytes {X} (f : St -> X) (w : World) (n : nat) :
  (forall st k, f (mkSt k (portBound st) (trace st)) = f st) ->
  preserves f (randomBytes w n).
Proof. intros Hf st r st' [= _ <-]. apply Hf. Qed.

End MoreFrames.

Ltac quiet_step :=
  first
    [ apply preserves_ret | apply preserves_throw | apply preserves_pending
    | apply preserves_crash | apply preserves_getGoogleCredentials
    | apply preserves_bind; [|intros ?]
    | apply preserves_tryCatch; [|intros ?]
    | apply preserves_emit; intros ?;
      solve [ reflexivity
            | apply fetchesOf_after_quiet; reflexivity
            | apply listens_after_quiet; reflexivity ]
    | apply preserves_setBound; intros ?; reflexivity
    | apply preserves_randomBytes; intros ? ?; reflexivity
    | match goal with
      | |- Summary.preserves _ (match ?x with _ => _ end) => destruct x
      end ].

Ltac quiet := repeat quiet_step.

Section QuietSteps.

Import Runtime Auth Summary Observed.

Variables (P : Url.Platform) (w : World).

Lemma progress_fetches (message : string) : preserves fetchesOf (progress w message).
Proof. unfold progress. quiet. Qed.

Lemma progress_listens (message : string) : preserves listens (progress w message).
Proof. unfold progress. quiet. Qed.

Lemma progress_port (message : string) : preserves portBound (progress w message).
Proof. unfold progress. quiet. Qed.

Lemma consoleLog_fetches (lines : list string) : preserves fetchesOf (consoleLog lines).
Proof. induction lines as [|l lines IH]; simpl; quiet; exact IH. Qed.

Lemma consoleLog_listens (lines : list string) : preserves listens (consoleLog lines).
Proof. induction lines as [|l lines IH]; simpl; quiet; exact IH. Qed.

Lemma consoleLog_port (lines : list string) : preserves portBound (consoleLog lines).
Proof. induction lines as [|l lines IH]; simpl; quiet; exact IH. Qed.

Lemma promptInput_fetches (message : string) : preserves fetchesOf (promptInput w message).
Proof. unfold promptInput. quiet. Qed.

Lemma promptInput_listens (message : string) : preserves listens (promptInput w message).
Proof. unfold promptInput. quiet. Qed.

Lemma promptInput_port (message : string) : preserves portBound (promptInput w message).
Proof. unfold promptInput. quiet. Qed.

Lemma callOnUrl_fetches (url : string) : preserves fetchesOf (callOnUrl w url).
Proof. unfold callOnUrl. quiet. Qed.

Lemma callOnUrl_listens (url : string) : preserves listens (callOnUrl w url).
Proof. unfold callOnUrl. quiet. Qed.

Lemma callOnUrl_port (url : string) : preserves portBound (callOnUrl w url).
Proof. unfold callOnUrl. quiet. Qed.

Lemma generatePKCE_fetches : preserves fetchesOf (generatePKCE w).
Proof. unfold generatePKCE. quiet. Qed.

Lemma generatePKCE_listens : preserves listens (generatePKCE w).
Proof. unfold generatePKCE. quiet. Qed.

Lemma generatePKCE_port : preserves portBound (generatePKCE w).
Proof. unfold generatePKCE. quiet. Qed.

Lemma buildAuthUrl_frame {X} (f : St -> X) (challenge state : string) :
  preserves f (buildAuthUrl w challenge state).
Proof. unfold buildAuthUrl. quiet. Qed.

Lemma exchange_listens (code verifier : string) :
  preserves listens (exchangeCodeForTokens w code verifier).
Proof.
  unfold exchangeCodeForTokens, getUserEmail, fetch, jsonOf. quiet.
Qed.

Lemma handleRequest_fetches (expectedState : string) (reqUrl : option string) :
  preserves fetchesOf (handleRequest P expectedState reqUrl).
Proof. unfold handleRequest, respond, serverClose. quiet. Qed.

Lemma serve_fetches (expectedState : string) (reqs : list (option string)) :
  preserves fetchesOf (serve P expectedState reqs).
Proof.
  induction reqs as [|q reqs IH]; simpl; quiet;
    auto using handleRequest_fetches.
Qed.

(** The manual login keeps whatever all of its steps keep. *)
Lemma manual_preserves {X} (f : St -> X) :
  preserves f (generatePKCE w) ->
  preserves f (randomBytes w 16) ->
  (forall url, preserves f (callOnUrl w url)) ->
  (forall message, preserves f (progress w message)) ->
  (forall lines, preserves f (consoleLog lines)) ->
  (forall message, preserves f (promptInput w message)) ->
  (forall code verifier, preserves f (exchangeCodeForTokens w code verifier)) ->
  preserves f (loginGoogleWorkspaceManual P w).
Proof.
  intros Hpkce Hrandom Hsink Hprogress Hconsole Hprompt Hexchange.
  unfold loginGoogleWorkspaceManual.
  apply preserves_bind; [exact Hpkce|]. intros [verifier challenge].
  apply preserves_bind; [exact Hrandom|]. intros stateBytes.
  apply preserves_bind; [apply buildAuthUrl_frame|]. intros authUrl.
  apply preserves_bind; [apply Hsink|]. intros _.
  apply preserves_bind; [apply Hprogress|]. intros _.
  apply preserves_bind; [apply Hconsole|]. intros _.
  apply preserves_bind; [apply Hprompt|]. intros input.
  destruct (parseCallbackInput P input _); [|apply preserves_throw].
  destruct (negb _); [apply preserves_throw|].
  apply preserves_bind; [apply Hprogress|]. intros _.
  apply preserves_bind; [apply Hexchange|]. intros creds. apply preserves_ret.
Qed.

Lemma manual_listens : preserves listens (loginGoogleWorkspaceManual P w).
Proof.
  apply manual_preserves;
    auto using generatePKCE_listens, callOnUrl_listens, progress_listens,
      consoleLog_listens, promptInput_listens, exchange_listens.
  apply preserves_randomBytes. reflexivity.
Qed.

Lemma manual_port : preserves portBound (loginGoogleWorkspaceManual P w).
Proof.
  apply manual_preserves;
    auto using generatePKCE_port, callOnUrl_port, progress_port,
      consoleLog_port, promptInput_port, exchange_port.
  apply preserves_randomBytes. reflexivity.
Qed.

End QuietSteps.

Section ManualSteps.

Import Runtime Auth Summary Observed.

Variables (P : Url.Platform) (w : World).

Lemma progress_run (message : string) (st : St) :
  progress w message st
  = (Returned tt, after st (if withProgress w then [EvProgress message] else [])).
Proof.
  unfold progress. destruct (withProgress w); [reflexivity|]. now rewrite after_nil.
Qed.

Lemma consoleLog_run (lines : list string) (st : St) :
  consoleLog lines st = (Returned tt, after st (map EvConsole lines)).
Proof.
  revert st. induction lines as [|l lines IH]; intros st; simpl.
  - now rewrite after_nil.
  - unfold bind, emit. fold (after st [EvConsole l]). now rewrite IH, after_after.
Qed.

Lemma promptInput_run (message answer : string) (st : St) :
  pasted w = Some answer ->
  promptInput w message st = (Returned (JsString.trim answer), after st [EvPrompt message]).
Proof. intros H. unfold promptInput, bind, emit. now rewrite H. Qed.

Lemma attemptState_nonempty (pos : nat) : attemptState w pos <> "".
Proof.
  intros H. apply (f_equal String.length) in H. unfold attemptState, draw in H.
  rewrite toHex_length, length_map, length_seq in H. discriminate H.
Qed.

(** The manual login up to the operator's answer. *)
Lemma manual_to_paste (id secret answer : string) (st : St) :
  configured w id secret ->
  onUrl w (attemptUrl w id (rngPos st)) = None ->
  pasted w = Some answer ->
  exists st2,
    fetchesOf st2 = fetchesOf st
    /\ loginGoogleWorkspaceManual P w st
       = match parseCallbackInput P (JsString.trim answer) (attemptState w (rngPos st)) with
         | ParsedError error => (Threw (ErrorObj error), st2)
         | ParsedOk code parsedState =>
             if negb (String.eqb parsedState (attemptState w (rngPos st)))
             then (Threw (ErrorObj "OAuth state mismatch - please try again"), st2)
             else
               bind (progress w "Exchanging authorization code for tokens...")
                 (fun _ =>
                    bind (exchangeCodeForTokens w code (attemptVerifier w (rngPos st)))
                      (fun creds => ret (Some creds)))
                 st2
         end.
Proof.
  intros Hc Hsink Hpaste. unfold loginGoogleWorkspaceManual.
  rewrite (bind_returned _ _ _ _ _ (generatePKCE_run w st)). cbv beta iota.
  erewrite bind_returned by reflexivity. cbn [rngPos portBound trace].
  erewrite bind_returned by (apply (buildAuthUrl_run w id secret); exact Hc).
  fold (attemptUrl w id (rngPos st)) (drawn st) (attemptState w (rngPos st)).
  rewrite (bind_returned _ _ _ _ _ (callOnUrl_ok w _ _ Hsink)).
  rewrite (bind_returned _ _ _ _ _ (progress_run _ _)).
  rewrite (bind_returned _ _ _ _ _ (consoleLog_run _ _)).
  rewrite (bind_returned _ _ _ _ _ (promptInput_run _ _ _ Hpaste)).
  rewrite !after_after.
  eexists. split; [|destruct (parseCallbackInput P _ _) as [code s|error];
                     [destruct (negb _)|]; reflexivity].
  rewrite fetchesOf_after_quiet; [reflexivity|].
  rewrite !fetches_app. destruct (withProgress w); simpl;
    (induction manualInstructions as [|l ls IH]; [reflexivity | exact IH]).
Qed.

(** What the exchange sends. *)
Lemma exchange_sent (id secret code verifier : string) (st : St) :
  configured w id secret ->
  exists rest,
    fetchesOf (snd (exchangeCodeForTokens w code verifier st))
    = (fetchesOf st ++ exchangeRequest id secret code verifier :: rest)%list
    /\ Forall isUserinfo rest.
Proof.
  intros Hc. rewrite (exchange_run w id secret code verifier st Hc).
  assert (Hone : fetchesOf (after st [EvFetch (exchangeRequest id secret code verifier)])
                 = (fetchesOf st ++ [exchangeRequest id secret code verifier])%list)
    by apply fetchesOf_after.
  destruct (tokenEndpoint w) as [e|resp]; [exists []; auto|].
  destruct (ok resp); [|exists []; auto].
  destruct (json resp) as [e|data]; [exists []; auto|].
  destruct (refresh_token data) as [r|]; [|exists []; auto].
  destruct (String.eqb r ""); [exists []; auto|].
  exists [userinfoRequest (access_token data)]. split.
  - cbn [snd]. rewrite fetchesOf_after, Hone, <- app_assoc. reflexivity.
  - repeat constructor.
Qed.

Lemma sent_exchange (id secret code verifier : string) (st st' : St)
    (r : Outcome GoogleWorkspaceCredentials) :
  configured w id secret ->
  exchangeCodeForTokens w code verifier st = (r, st') ->
  sentOnlyVerifier id secret verifier st st'.
Proof.
  intros Hc Hrun. destruct (exchange_sent id secret code verifier st Hc) as (rest & Hs & Hu).
  rewrite Hrun in Hs. right. eauto.
Qed.

Lemma sent_quiet (id secret verifier : string) (st st1 st' : St) :
  fetchesOf st1 = fetchesOf st ->
  sentOnlyVerifier id secret verifier st1 st' ->
  sentOnlyVerifier id secret verifier st st'.
Proof. unfold sentOnlyVerifier. intros ->. auto. Qed.

End ManualSteps.

(** X3.  In the manual flow, a pasted URL whose state differs from the
    attempt's ends the login with "OAuth state mismatch - please try
    again", and no request has been sent to the token endpoint. *)
Theorem manual_state_mismatch_sends_nothing (P : Url.Platform) (w : Runtime.World)
    (id secret answer code pastedState : string) (st : Runtime.St) :
  Summary.configured w id secret ->
  Runtime.onUrl w (Summary.attemptUrl w id (Runtime.rngPos st)) = None ->
  Runtime.pasted w = Some answer ->
  Auth.parseCallbackInput P (JsString.trim answer) (Summary.attemptState w (Runtime.rngPos st))
  = Auth.ParsedOk code pastedState ->
  pastedState <> Summary.attemptState w (Runtime.rngPos st) ->
  fst (Auth.loginGoogleWorkspaceManual P w st)
  = Runtime.Threw (Runtime.ErrorObj "OAuth state mismatch - please try again")
  /\ Observed.fetchesOf (snd (Auth.loginGoogleWorkspaceManual P w st)) = Observed.fetchesOf st.
Proof.
  intros Hc Hsink Hpaste Hparse Hdiff.
  destruct (manual_to_paste P w id secret answer st Hc Hsink Hpaste) as (st2 & Hquiet & ->).
  rewrite Hparse. apply String.eqb_neq in Hdiff. rewrite Hdiff. cbn [negb fst snd]. auto.
Qed.

(** X4.  In the manual flow, an answer that is not a URL is taken as the
    code with the attempt's own state, so that the state comparison
    cannot fail: the token request is sent with the pasted text as the
    code, and the login ends as that exchange ends. *)
Theorem manual_bare_code_skips_state_check (P : Url.Platform) (w : Runtime.World)
    (id secret answer : string) (st : Runtime.St) :
  Summary.configured w id secret ->
  Runtime.onUrl w (Summary.attemptUrl w id (Runtime.rngPos st)) = None ->
  Runtime.pasted w = Some answer ->
  JsString.trim answer <> "" ->
  Url.URL_new P (JsString.trim answer) = None ->
  let verifier := Summary.attemptVerifier w (Runtime.rngPos st) in
  (exists rest,
      Observed.fetchesOf (snd (Auth.loginGoogleWorkspaceManual P w st))
      = (Observed.fetchesOf st
           ++ Summary.exchangeRequest id secret (JsString.trim answer) verifier :: rest)%list)
  /\ fst (Auth.loginGoogleWorkspaceManual P w st)
     = Observed.mapOutcome Some
         (fst (Auth.exchangeCodeForTokens w (JsString.trim answer) verifier st)).
Proof.
  intros Hc Hsink Hpaste Hne Hurl verifier. subst verifier.
  destruct (manual_to_paste P w id secret answer st Hc Hsink Hpaste) as (st2 & Hquiet & ->).
  set (verifier := Summary.attemptVerifier w (Runtime.rngPos st)) in *.
  assert (Hparse : Auth.parseCallbackInput P (JsString.trim answer)
                     (Summary.attemptState w (Runtime.rngPos st))
                   = Auth.ParsedOk (JsString.trim answer)
                       (Summary.attemptState w (Runtime.rngPos st))).
  { unfold Auth.parseCallbackInput. rewrite trim_idem.
    apply String.eqb_neq in Hne. rewrite Hne, Hurl.
    pose proof (attemptState_nonempty w (Runtime.rngPos st)) as Hs.
    apply String.eqb_neq in Hs. now rewrite Hs. }
  rewrite Hparse, String.eqb_refl. cbn [negb].
  rewrite (bind_returned _ _ _ _ _ (progress_run w _ _)).
  set (st3 := Summary.after st2 _).
  assert (Hst3 : Observed.fetchesOf st3 = Observed.fetchesOf st).
  { unfold st3. rewrite fetchesOf_after_quiet; [exact Hquiet|].
    now destruct (Runtime.withProgress w). }
  destruct (exchange_sent w id secret (JsString.trim answer) verifier st3 Hc)
    as (rest & Hsent & _).
  pose proof (exchange_run w id secret (JsString.trim answer) verifier st3 Hc) as H3.
  pose proof (exchange_run w id secret (JsString.trim answer) verifier st Hc) as H0.
  cbv zeta in H3, H0. unfold Runtime.bind.
  destruct (Auth.exchangeCodeForTokens w (JsString.trim answer) verifier st3)
    as [o3 s3] eqn:E3.
  cbn [snd] in Hsent. rewrite Hst3 in Hsent.
  assert (Hfst : o3 = fst (Auth.exchangeCodeForTokens w (JsString.trim answer) verifier st)).
  { rewrite H0. clear E3.
    destruct (Runtime.tokenEndpoint w) as [e|resp]; [now injection H3 as -> _|].
    destruct (Runtime.ok resp); [|now injection H3 as -> _].
    destruct (Runtime.json resp) as [e|data]; [now injection H3 as -> _|].
    destruct (Runtime.refresh_token data) as [r|]; [|now injection H3 as -> _].
    destruct (String.eqb r ""); now injection H3 as -> _. }
  rewrite <- Hfst.
  destruct o3; unfold Runtime.ret; cbn [fst snd Observed.mapOutcome]; split; eauto.
Qed.

Section VerifierBinding.

Import Runtime Auth Summary Observed.

Variables (P : Url.Platform) (w : World) (id secret : string).

Hypothesis Hc : configured w id secret.

Lemma sent_bind {A B} (verifier : string) (m : M A) (k : A -> M B) (st st' : St)
    (r : Outcome B) :
  preserves fetchesOf m ->
  bind m k st = (r, st') ->
  (forall a st1, m st = (Returned a, st1) -> k a st1 = (r, st') ->
                 sentOnlyVerifier id secret verifier st1 st') ->
  sentOnlyVerifier id secret verifier st st'.
Proof.
  intros Hm Hrun Hk. unfold bind in Hrun.
  destruct (m st) as [[a|e| |e] st1] eqn:E.
  - apply (sent_quiet id secret verifier st st1 st' (Hm _ _ _ E)). now apply (Hk a).
  - injection Hrun as _ <-. left. exact (Hm _ _ _ E).
  - injection Hrun as _ <-. left. exact (Hm _ _ _ E).
  - injection Hrun as _ <-. left. exact (Hm _ _ _ E).
Qed.

Lemma sent_exchange_some (code verifier : string) (st st' : St)
    (r : Outcome (option GoogleWorkspaceCredentials)) :
  bind (exchangeCodeForTokens w code verifier) (fun creds => ret (Some creds)) st = (r, st') ->
  sentOnlyVerifier id secret verifier st st'.
Proof.
  unfold bind, ret.
  destruct (exchangeCodeForTokens w code verifier st) as [o s] eqn:E.
  pose proof (sent_exchange w id secret code verifier st s o Hc E) as Hs.
  destruct o; intros [= _ <-]; exact Hs.
Qed.

Lemma startCallbackServer_promise_fetches (expectedState : string) (st : St) :
  exists promise st1,
    startCallbackServer P w expectedState st = (Returned promise, st1)
    /\ fetchesOf st1 = fetchesOf st
    /\ preserves fetchesOf promise
    /\ (forall s result s', promise s = (Returned result, s') ->
                            cb_close result = serverClose).
Proof.
  unfold startCallbackServer, bind at 1, getBound.
  destruct (listenError w) as [e|].
  - eexists _, _. split; [reflexivity|]. split; [reflexivity|].
    split; [apply preserves_throw | discriminate].
  - destruct (portBound st).
    + eexists _, _. split; [reflexivity|]. split; [reflexivity|].
      split; [apply preserves_throw | discriminate].
    + eexists _, _. split; [reflexivity|]. split.
      * fold (after st [EvListen REDIRECT_PORT]).
        change (mkSt (rngPos st) true (trace st ++ [EvListen REDIRECT_PORT]))
          with (mkSt (rngPos st) true (trace (after st [EvListen REDIRECT_PORT]))).
        unfold fetchesOf. cbn [trace after]. rewrite fetches_app. apply app_nil_r.
      * split; [apply serve_fetches|].
        intros s result s' Hserve. apply serve_port in Hserve. apply Hserve.
Qed.

Lemma local_sent (st st' : St) (r : Outcome GoogleWorkspaceCredentials) :
  loginGoogleWorkspaceLocal P w st = (r, st') ->
  sentOnlyVerifier id secret (attemptVerifier w (rngPos st)) st st'.
Proof.
  rewrite (local_run P w id secret st Hc).
  destruct (startCallbackServer_promise_fetches (attemptState w (rngPos st)) (drawn st))
    as (promise & st1 & Hs & Hquiet & Hpromise & Hclose).
  rewrite (bind_returned _ _ _ _ _ Hs). intros Hrun.
  apply (sent_quiet id secret _ st st1 st'); [exact Hquiet|].
  apply (sent_bind _ _ _ _ _ _ (callOnUrl_fetches w _) Hrun). clear Hrun. intros _ s1 _ Hrun.
  apply (sent_bind _ _ _ _ _ _ (progress_fetches w _) Hrun). clear Hrun. intros _ s2 _ Hrun.
  apply (sent_bind _ _ _ _ _ _ Hpromise Hrun). clear Hrun. intros result s3 Hawait Hrun.
  rewrite (Hclose _ _ _ Hawait) in Hrun.
  assert (Hsc : preserves fetchesOf serverClose) by (unfold serverClose; quiet).
  apply (sent_bind _ _ _ _ _ _ Hsc Hrun). clear Hrun. intros _ s4 _ Hrun.
  apply (sent_bind _ _ _ _ _ _ (progress_fetches w _) Hrun). clear Hrun. intros _ s5 _ Hrun.
  exact (sent_exchange w id secret _ _ _ _ _ Hc Hrun).
Qed.

Lemma manual_sent (st st' : St) (r : Outcome (option GoogleWorkspaceCredentials)) :
  loginGoogleWorkspaceManual P w st = (r, st') ->
  sentOnlyVerifier id secret (attemptVerifier w (rngPos st)) st st'.
Proof.
  unfold loginGoogleWorkspaceManual.
  rewrite (bind_returned _ _ _ _ _ (generatePKCE_run w st)). cbv beta iota.
  erewrite bind_returned by reflexivity. cbn [rngPos portBound trace].
  erewrite bind_returned by (apply (buildAuthUrl_run w id secret); exact Hc).
  intros Hrun.
  apply (sent_quiet id secret _ st (drawn st) st'); [reflexivity|]. unfold drawn.
  apply (sent_bind _ _ _ _ _ _ (callOnUrl_fetches w _) Hrun). clear Hrun. intros _ s1 _ Hrun.
  apply (sent_bind _ _ _ _ _ _ (progress_fetches w _) Hrun). clear Hrun. intros _ s2 _ Hrun.
  apply (sent_bind _ _ _ _ _ _ (consoleLog_fetches _) Hrun). clear Hrun. intros _ s3 _ Hrun.
  apply (sent_bind _ _ _ _ _ _ (promptInput_fetches w _) Hrun). clear Hrun.
  intros input s4 _ Hrun.
  destruct (parseCallbackInput P input _) as [code parsedState|error];
    [|injection Hrun as _ <-; now left].
  destruct (negb _); [injection Hrun as _ <-; now left|].
  apply (sent_bind _ _ _ _ _ _ (progress_fetches w _) Hrun). clear Hrun. intros _ s5 _ Hrun.
  exact (sent_exchange_some _ _ _ _ _ Hrun).
Qed.

End VerifierBinding.

(** X5.  In a local and in a manual attempt alike, the authorization URL
    handed to the sink carries the SHA-256 challenge of the verifier the
    attempt drew, and what the attempt sends afterwards is nothing, or one
    token request carrying that same verifier followed at most by
    userinfo lookups. *)
Theorem verifier_sent_is_the_challenged_one (P : Url.Platform) (w : Runtime.World)
    (id secret : string) (st : Runtime.St) :
  Summary.configured w id secret ->
  let verifier := Summary.attemptVerifier w (Runtime.rngPos st) in
  let url :=
    Auth.AUTH_URL +:+ "?"
    +:+ Url.serialize
          (Auth.authParams id
             (Buffer.toBase64url (Sha256.sha256 (Buffer.fromUtf8 verifier)))
             (Summary.attemptState w (Runtime.rngPos st))) in
  (Summary.sinks (snd (Auth.loginGoogleWorkspaceLocal P w st)) = (Summary.sinks st ++ [url])%list
   /\ Observed.sentOnlyVerifier id secret verifier st
        (snd (Auth.loginGoogleWorkspaceLocal P w st)))
  /\ (Summary.sinks (snd (Auth.loginGoogleWorkspaceManual P w st))
      = (Summary.sinks st ++ [url])%list
      /\ Observed.sentOnlyVerifier id secret verifier st
           (snd (Auth.loginGoogleWorkspaceManual P w st))).
Proof.
  intros Hc verifier url. split.
  - destruct (Auth.loginGoogleWorkspaceLocal P w st) as [r st'] eqn:Hrun. cbn [snd]. split.
    + exact (local_sinks P w id secret st st' r Hc Hrun).
    + exact (local_sent P w id secret Hc st st' r Hrun).
  - destruct (Auth.loginGoogleWorkspaceManual P w st) as [r st'] eqn:Hrun. cbn [snd]. split.
    + exact (manual_sinks P w id secret st st' r Hc Hrun).
    + exact (manual_sent P w id secret Hc st st' r Hrun).
Qed.

Section Unconfigured.

Import Runtime Auth Summary Observed.

Variables (P : Url.Platform) (w : World).

Lemma getGoogleCredentials_missing (st : St) :
  unconfigured w ->
  getGoogleCredentials w st = (Threw (ErrorObj credentialsMissing), st).
Proof.
  intros Hu. destruct (getGoogleCredentials_cases w st) as [(id & secret & Hc & _) | H];
    [|exact H].
  exfalso. destruct Hc as (Hid & Hid' & Hs & Hs').
  destruct Hu as [Hu|Hu]; [rewrite Hid in Hu | rewrite Hs in Hu];
    simpl in Hu; apply negb_false_iff, String.eqb_eq in Hu; contradiction.
Qed.

Lemma manual_unconfigured (st : St) :
  unconfigured w ->
  loginGoogleWorkspaceManual P w st = (Threw (ErrorObj credentialsMissing), drawn st).
Proof.
  intros Hu. unfold loginGoogleWorkspaceManual.
  rewrite (bind_returned _ _ _ _ _ (generatePKCE_run w st)). cbv beta iota.
  erewrite bind_returned by reflexivity. cbn [rngPos portBound trace].
  erewrite bind_threw
    by (apply buildAuthUrl_unconfigured, getGoogleCredentials_missing; exact Hu).
  reflexivity.
Qed.

Lemma credentialsMissing_mentions_port :
  looksLikeBindFailure (ErrorObj credentialsMissing) = true.
Proof. vm_compute. reflexivity. Qed.

End Unconfigured.

(** X6.  With the client id or the client secret missing or empty, the
    login throws the configuration error without having called the URL
    sink, bound a listener or sent a request, whichever flow the probe
    selects; and the exchange and the refresh throw it leaving everything
    as it was. *)
Theorem unconfigured_login_does_nothing (P : Url.Platform) (w : Runtime.World)
    (st : Runtime.St) :
  Observed.unconfigured w ->
  (fst (Auth.loginGoogleWorkspace P w st)
   = Runtime.Threw (Runtime.ErrorObj Auth.credentialsMissing)
   /\ Summary.sinks (snd (Auth.loginGoogleWorkspace P w st)) = Summary.sinks st
   /\ Observed.listens (snd (Auth.loginGoogleWorkspace P w st)) = Observed.listens st
   /\ Observed.fetchesOf (snd (Auth.loginGoogleWorkspace P w st)) = Observed.fetchesOf st
   /\ Runtime.portBound (snd (Auth.loginGoogleWorkspace P w st)) = Runtime.portBound st)
  /\ (forall code verifier,
         Auth.exchangeCodeForTokens w code verifier st
         = (Runtime.Threw (Runtime.ErrorObj Auth.credentialsMissing), st))
  /\ (forall refreshToken,
         Auth.refreshGoogleToken w refreshToken st
         = (Runtime.Threw (Runtime.ErrorObj Auth.credentialsMissing), st)).
Proof.
  intros Hu. split; [|split].
  - assert (Hrun : exists pos evs,
               Auth.loginGoogleWorkspace P w st
               = (Runtime.Threw (Runtime.ErrorObj Auth.credentialsMissing),
                  Runtime.mkSt pos (Runtime.portBound st) (Runtime.trace st ++ evs))
               /\ Auth.sinkCalls evs = [] /\ Auth.fetches evs = []
               /\ filter Observed.isListen evs = []).
    { destruct (Probe.shouldUseManualOAuthFlow (Runtime.proc w)) eqn:Hprobe.
      - exists (Runtime.rngPos st + 32 + 16), []. unfold Auth.loginGoogleWorkspace.
        rewrite Hprobe, (manual_unconfigured P w st Hu). unfold Summary.drawn.
        rewrite app_nil_r. auto.
      - pose proof (local_unconfigured P w st
                      (getGoogleCredentials_missing w (Summary.drawn st) Hu)) as Hlocal.
        rewrite (fallback_decision P w st _ _ Hprobe Hlocal),
          credentialsMissing_mentions_port.
        rewrite (bind_returned _ _ _ _ _ (progress_run w _ _)).
        rewrite (manual_unconfigured P w _ Hu).
        exists (Runtime.rngPos st + 32 + 16 + 32 + 16),
          (if Runtime.withProgress w
           then [Runtime.EvProgress Auth.switchingToManual] else []).
        split; [reflexivity|]. now destruct (Runtime.withProgress w). }
    destruct Hrun as (pos & evs & -> & Hsinks & Hfetches & Hlistens). cbn [fst snd].
    split; [reflexivity|].
    unfold Summary.sinks, Observed.listens, Observed.fetchesOf. cbn [Runtime.trace Runtime.portBound].
    rewrite sinkCalls_app, fetches_app, filter_app, Hsinks, Hfetches, Hlistens, !app_nil_r.
    auto.
  - intros code verifier.
    apply exchange_unconfigured, getGoogleCredentials_missing. exact Hu.
  - intros refreshToken.
    apply refresh_unconfigured, getGoogleCredentials_missing. exact Hu.
Qed.

(** X7.  When the probe selects the manual flow, the login never binds a
    listener and leaves the port as it was, however the login ends. *)
Theorem manual_mode_never_listens (P : Url.Platform) (w : Runtime.World) (st : Runtime.St) :
  Probe.shouldUseManualOAuthFlow (Runtime.proc w) = true ->
  Observed.listens (snd (Auth.loginGoogleWorkspace P w st)) = Observed.listens st
  /\ Runtime.portBound (snd (Auth.loginGoogleWorkspace P w st)) = Runtime.portBound st.
Proof.
  intros Hprobe. unfold Auth.loginGoogleWorkspace. rewrite Hprobe.
  destruct (Auth.loginGoogleWorkspaceManual P w st) as [r st'] eqn:Hrun. cbn [snd]. split.
  - exact (manual_listens P w st r st' Hrun).
  - exact (manual_port P w st r st' Hrun).
Qed.

(** X8.  With no remote-session, container or cloud-IDE marker set, the
    decision follows this table: off Linux the local flow, whatever the
    display variables; on Linux, the manual flow when the kernel version
    names the second-generation compatibility layer, the local flow when
    it names the compatibility layer otherwise (display or not), and in
    the remaining cases (or when the version file cannot be read) the
    manual flow exactly when neither display variable is set. *)
Theorem decision_table_without_markers (pe : Runtime.ProcessEnv) :
  ProbeSpec.isContainerish pe = false ->
  let display := Probe.envTruthy pe "DISPLAY" || Probe.envTruthy pe "WAYLAND_DISPLAY" in
  (Runtime.platform pe <> "linux" -> Probe.shouldUseManualOAuthFlow pe = false)
  /\ (Runtime.platform pe = "linux" -> Runtime.procVersion pe = None ->
      Probe.shouldUseManualOAuthFlow pe = negb display)
  /\ (forall version,
         Runtime.platform pe = "linux" -> Runtime.procVersion pe = Some version ->
         let low := JsString.toLowerCase version in
         Probe.shouldUseManualOAuthFlow pe
         = if JsString.includes "wsl2" low || JsString.includes "microsoft-standard" low
           then true
           else if JsString.includes "microsoft" low || JsString.includes "wsl" low
                then false
                else negb display).
Proof.
  intros Hnone display. rewrite decision_split, Hnone. cbn [orb].
  unfold ProbeSpec.isHeadlessLinux, ProbeSpec.isLinuxCompatLayerGen2,
    ProbeSpec.isLinuxCompatLayer, ProbeSpec.versionMentions, ProbeSpec.kernelVersion.
  cbn [existsb ProbeSpec.displayMarkers]. rewrite !orb_false_r. fold display.
  split; [|split].
  - intros Hp. apply String.eqb_neq in Hp. now rewrite Hp.
  - intros Hp Hv. rewrite Hp, Hv, String.eqb_refl. cbn [andb negb].
    now rewrite andb_true_r, orb_false_r.
  - intros version Hp Hv. rewrite Hp, Hv, String.eqb_refl. cbn [andb negb].
    rewrite !orb_false_r.
    set (low := JsString.toLowerCase version).
    destruct (JsString.includes "wsl2" low || JsString.includes "microsoft-standard" low);
      [apply orb_true_r|].
    rewrite orb_false_r.
    destruct (JsString.includes "microsoft" low || JsString.includes "wsl" low);
      cbn [negb]; [apply andb_false_r | apply andb_true_r].
Qed.

(** ** Which code the local flow exchanges *)

Section GrantedCode.

Import Runtime Auth Summary Observed.

(** A property of the state a computation ends in that holds whenever
    nothing was sent since the start. *)
Variables (sentAtStart : list Request) (Good : St -> Prop).

Hypothesis Good_quiet : forall s, fetchesOf s = sentAtStart -> Good s.

Lemma good_bind {A B} (m : M A) (k : A -> M B) (s : St) :
  preserves fetchesOf m ->
  fetchesOf s = sentAtStart ->
  (forall a s1, m s = (Returned a, s1) -> fetchesOf s1 = sentAtStart -> Good (snd (k a s1))) ->
  Good (snd (bind m k s)).
Proof.
  intros Hm Hs Hk. unfold bind. destruct (m s) as [[a|e| |e] s1] eqn:E;
    pose proof (Hm _ _ _ E) as Hq; rewrite Hs in Hq; cbn [snd]; auto.
Qed.

End GrantedCode.

Section GrantedCodeFacts.

Import Runtime Auth Summary Observed.

Variables (P : Url.Platform) (w : World).

(** The request that makes the listener resolve. *)
Lemma serve_returned (expectedState : string) (reqs : list (option string)) (st st' : St)
    (result : CallbackOk) :
  serve P expectedState reqs st = (Returned result, st') ->
  cb_close result = serverClose
  /\ exists before r rest,
       reqs = (before ++ r :: rest)%list
       /\ Forall (otherPath P) before
       /\ grants P expectedState r (cb_code result).
Proof.
  intros Hserve. split; [exact (proj2 (serve_port P _ _ _ _ _ Hserve))|].
  revert st Hserve. induction reqs as [|q reqs IH]; intros st; [discriminate|].
  cbn [serve]. unfold bind at 1.
  destruct (handleRequest P expectedState q st) as [[[[code|e]|]|e| |e] st1] eqn:Hq;
    try discriminate.
  - intros [= <- _]. exists [], q, reqs. repeat split; [constructor|].
    exact (handleRequest_resolved P _ _ _ _ _ Hq).
  - intros Hrest. destruct (IH _ Hrest) as (before & r & rest & -> & Hbefore & Hr).
    exists (q :: before), r, rest. repeat split; [|exact Hr].
    constructor; [exact (handleRequest_skipped P _ _ _ _ Hq) | exact Hbefore].
Qed.

(** The promise of the listener is a failure or the serving of the
    requests. *)
Lemma startCallbackServer_cases (expectedState : string) (st : St) :
  exists promise st1,
    startCallbackServer P w expectedState st = (Returned promise, st1)
    /\ fetchesOf st1 = fetchesOf st
    /\ ((exists e, promise = throw e) \/ promise = serve P expectedState (requests w)).
Proof.
  unfold startCallbackServer, bind at 1, getBound.
  destruct (listenError w) as [e|].
  - eexists _, _. split; [reflexivity|]. split; [reflexivity | left; eauto].
  - destruct (portBound st).
    + eexists _, _. split; [reflexivity|]. split; [reflexivity | left; eauto].
    + eexists _, _. split; [reflexivity|]. split; [|now right].
      change (mkSt (rngPos st) true (trace st ++ [EvListen REDIRECT_PORT]))
        with (mkSt (rngPos st) true (trace (after st [EvListen REDIRECT_PORT]))).
      unfold fetchesOf. cbn [trace after]. rewrite fetches_app. apply app_nil_r.
Qed.

End GrantedCodeFacts.

(** X24.  The local flow exchanges only a code that was granted to this
    attempt: whatever the local login sends, it is nothing, or one token
    request, with the attempt's verifier, for the code of the first
    request that reached the callback path, which carried no error and
    the state of this attempt, followed at most by userinfo lookups.  A
    code that arrives with another state is never sent to the token
    endpoint. *)
Theorem local_exchanges_only_granted_code (P : Url.Platform) (w : Runtime.World)
    (id secret : string) (st : Runtime.St) :
  Summary.configured w id secret ->
  let st' := snd (Auth.loginGoogleWorkspaceLocal P w st) in
  Observed.fetchesOf st' = Observed.fetchesOf st
  \/ exists before r rest code lookups,
       Runtime.requests w = (before ++ r :: rest)%list
       /\ Forall (Observed.otherPath P) before
       /\ Observed.grants P (Summary.attemptState w (Runtime.rngPos st)) r code
       /\ Observed.fetchesOf st'
          = (Observed.fetchesOf st
               ++ Summary.exchangeRequest id secret code
                    (Summary.attemptVerifier w (Runtime.rngPos st)) :: lookups)%list
       /\ Forall Observed.isUserinfo lookups.
Proof.
  intros Hc st'. subst st'. rewrite (local_run P w id secret st Hc).
  destruct (startCallbackServer_cases P w (Summary.attemptState w (Runtime.rngPos st))
              (Summary.drawn st)) as (promise & st1 & Hs & Hquiet & Hpromise).
  rewrite (bind_returned _ _ _ _ _ Hs).
  change (Observed.fetchesOf (Summary.drawn st)) with (Observed.fetchesOf st) in Hquiet.
  set (Good := fun s : Runtime.St =>
    Observed.fetchesOf s = Observed.fetchesOf st
    \/ exists before r rest code lookups,
         Runtime.requests w = (before ++ r :: rest)%list
         /\ Forall (Observed.otherPath P) before
         /\ Observed.grants P (Summary.attemptState w (Runtime.rngPos st)) r code
         /\ Observed.fetchesOf s
            = (Observed.fetchesOf st
                 ++ Summary.exchangeRequest id secret code
                      (Summary.attemptVerifier w (Runtime.rngPos st)) :: lookups)%list
         /\ Forall Observed.isUserinfo lookups).
  change (Good (snd (Runtime.bind (Auth.callOnUrl w (Summary.attemptUrl w id (Runtime.rngPos st)))
                       (fun _ =>
                          Runtime.bind (Auth.progress w "Waiting for authorization in browser...")
                            (fun _ =>
                               Runtime.bind promise
                                 (fun result =>
                                    Runtime.bind (Auth.cb_close result)
                                      (fun _ =>
                                         Runtime.bind
                                           (Auth.progress w
                                              "Exchanging authorization code for tokens...")
                                           (fun _ =>
                                              Auth.exchangeCodeForTokens w (Auth.cb_code result)
                                                (Summary.attemptVerifier w
                                                   (Runtime.rngPos st))))))) st1))).
  assert (Hgood : forall s, Observed.fetchesOf s = Observed.fetchesOf st -> Good s)
    by (intros s Hq; left; exact Hq).
  apply (good_bind _ Good Hgood); [apply callOnUrl_fetches | exact Hquiet|].
  intros _ s1 _ Hq1.
  apply (good_bind _ Good Hgood); [apply progress_fetches | exact Hq1|].
  intros _ s2 _ Hq2.
  destruct Hpromise as [[e ->]| ->].
  { apply Hgood. exact Hq2. }
  apply (good_bind _ Good Hgood); [apply serve_fetches | exact Hq2|].
  intros result s3 Hserve Hq3.
  destruct (serve_returned P _ _ _ _ _ Hserve)
    as (Hclose & before & r & rest & Hreqs & Hbefore & Hgrant).
  rewrite Hclose.
  assert (Hsc : Summary.preserves Observed.fetchesOf Auth.serverClose)
    by (unfold Auth.serverClose; quiet).
  apply (good_bind _ Good Hgood); [exact Hsc | exact Hq3|].
  intros _ s4 _ Hq4.
  apply (good_bind _ Good Hgood); [apply progress_fetches | exact Hq4|].
  intros _ s5 _ Hq5.
  destruct (exchange_sent w id secret (Auth.cb_code result)
              (Summary.attemptVerifier w (Runtime.rngPos st)) s5 Hc) as (lookups & Hsent & Hl).
  right. exists before, r, rest, (Auth.cb_code result), lookups.
  rewrite Hsent, Hq5. auto.
Qed.

(** ** The order of events in a local login *)

Section Extending.

Import Runtime Auth Summary Observed.

Lemma extends_ret {A} (a : A) : extends (ret a).
Proof. intros st r st' [= _ <-]. exists []. now rewrite app_nil_r. Qed.

Lemma extends_throw {A} (e : Thrown) : extends (@throw A e).
Proof. intros st r st' [= _ <-]. exists []. now rewrite app_nil_r. Qed.

Lemma extends_pending {A} : extends (@pending A).
Proof. intros st r st' [= _ <-]. exists []. now rewrite app_nil_r. Qed.

Lemma extends_crash {A} (e : Thrown) : extends (@crash A e).
Proof. intros st r st' [= _ <-]. exists []. now rewrite app_nil_r. Qed.

Lemma extends_emit (ev : Event) : extends (emit ev).
Proof. intros st r st' [= _ <-]. exists [ev]. reflexivity. Qed.

Lemma extends_setBound (b : bool) : extends (setBound b).
Proof. intros st r st' [= _ <-]. exists []. cbn. now rewrite app_nil_r. Qed.

Lemma extends_randomBytes (w : World) (n : nat) : extends (randomBytes w n).
Proof. intros st r st' [= _ <-]. exists []. cbn. now rewrite app_nil_r. Qed.

Lemma extends_getGoogleCredentials (w : World) : extends (getGoogleCredentials w).
Proof.
  intros st r st' Hrun. exists []. rewrite app_nil_r. f_equal.
  exact (preserves_getGoogleCredentials (fun s => s) w st r st' Hrun).
Qed.

Lemma extends_bind {A B} (m : M A) (k : A -> M B) :
  extends m -> (forall a, extends (k a)) -> extends (bind m k).
Proof.
  intros Hm Hk st r st'. unfold bind.
  destruct (m st) as [[a|e| |e] s1] eqn:E; destruct (Hm _ _ _ E) as (evs & Hevs).
  - intros Hrun. destruct (Hk a _ _ _ Hrun) as (evs' & Hevs').
    exists (evs ++ evs')%list. now rewrite Hevs', Hevs, app_assoc.
  - intros [= _ <-]. eauto.
  - intros [= _ <-]. eauto.
  - intros [= _ <-]. eauto.
Qed.

Lemma extends_tryCatch {A} (m : M A) (h : Thrown -> M A) :
  extends m -> (forall e, extends (h e)) -> extends (tryCatch m h).
Proof.
  intros Hm Hh st r st'. unfold tryCatch.
  destruct (m st) as [[a|e| |e] s1] eqn:E; destruct (Hm _ _ _ E) as (evs & Hevs).
  - intros [= _ <-]. eauto.
  - intros Hrun. destruct (Hh e _ _ _ Hrun) as (evs' & Hevs').
    exists (evs ++ evs')%list. now rewrite Hevs', Hevs, app_assoc.
  - intros [= _ <-]. eauto.
  - intros [= _ <-]. eauto.
Qed.

End Extending.

Ltac growing_step :=
  first
    [ apply extends_ret | apply extends_throw | apply extends_pending
    | apply extends_crash | apply extends_getGoogleCredentials
    | apply extends_emit | apply extends_setBound | apply extends_randomBytes
    | apply extends_bind; [|intros ?]
    | apply extends_tryCatch; [|intros ?]
    | match goal with
      | |- Observed.extends (match ?x with _ => _ end) => destruct x
      | |- Observed.extends (if ?x then _ else _) => destruct x
      | |- Observed.extends (let (_, _) := ?x in _) => destruct x
      end ].

Ltac growing := repeat growing_step.

Section LocalOrder.

Import Runtime Auth Summary Observed.

Variables (P : Url.Platform) (w : World).

Lemma extends_progress (message : string) : extends (progress w message).
Proof. unfold progress. growing. Qed.

Lemma extends_exchange (code verifier : string) :
  extends (exchangeCodeForTokens w code verifier).
Proof. unfold exchangeCodeForTokens, getUserEmail, fetch, jsonOf. growing. Qed.

Lemma extends_serverClose : extends serverClose.
Proof. unfold serverClose. growing. Qed.

Lemma extends_handleRequest (expectedState : string) (reqUrl : option string) :
  extends (handleRequest P expectedState reqUrl).
Proof. unfold handleRequest, respond. growing; apply extends_serverClose. Qed.

Lemma extends_serve (expectedState : string) (reqs : list (option string)) :
  extends (serve P expectedState reqs).
Proof.
  induction reqs as [|q reqs IH]; cbn [serve]; growing;
    [apply extends_handleRequest | exact IH].
Qed.

(** What follows the call of the sink in a local login. *)
Lemma extends_local_rest (promise : M CallbackOk) (verifier : string) :
  extends promise ->
  (forall s result s', promise s = (Returned result, s') -> cb_close result = serverClose) ->
  extends
    (bind (progress w "Waiting for authorization in browser...")
       (fun _ =>
          bind promise
            (fun result =>
               bind (cb_close result)
                 (fun _ =>
                    bind (progress w "Exchanging authorization code for tokens...")
                      (fun _ => exchangeCodeForTokens w (cb_code result) verifier))))).
Proof.
  intros Hp Hclose. apply extends_bind; [apply extends_progress|]. intros _.
  intros st r st'. unfold bind at 1.
  destruct (promise st) as [[result|e| |e] s1] eqn:E; destruct (Hp _ _ _ E) as (evs & Hevs);
    try (intros [= _ <-]; eauto; fail).
  rewrite (Hclose _ _ _ E). intros Hrun.
  assert (Hrest : extends
            (bind serverClose
               (fun _ =>
                  bind (progress w "Exchanging authorization code for tokens...")
                    (fun _ => exchangeCodeForTokens w (cb_code result) verifier))))
    by (apply extends_bind; [apply extends_serverClose | intros _];
        apply extends_bind; [apply extends_progress | intros _];
        apply extends_exchange).
  destruct (Hrest _ _ _ Hrun) as (evs' & Hevs').
  exists (evs ++ evs')%list. now rewrite Hevs', Hevs, app_assoc.
Qed.

(** A local login on a free port, up to the call of the sink. *)
Lemma local_to_sink (id secret : string) (st : St) :
  configured w id secret ->
  listenError w = None ->
  portBound st = false ->
  let bound :=
    mkSt (rngPos st + 32 + 16) true
      ((trace st ++ [EvListen REDIRECT_PORT])
         ++ [EvUrlSink (attemptUrl w id (rngPos st))])%list in
  loginGoogleWorkspaceLocal P w st
  = match onUrl w (attemptUrl w id (rngPos st)) with
    | Some e => (Threw e, bound)
    | None =>
        bind (progress w "Waiting for authorization in browser...")
          (fun _ =>
             bind (serve P (attemptState w (rngPos st)) (requests w))
               (fun result =>
                  bind (cb_close result)
                    (fun _ =>
                       bind (progress w "Exchanging authorization code for tokens...")
                         (fun _ =>
                            exchangeCodeForTokens w (cb_code result)
                              (attemptVerifier w (rngPos st)))))) bound
    end.
Proof.
  intros Hc Hl Hb bound. rewrite (local_run P w id secret st Hc).
  pose proof (startCallbackServer_run P w (attemptState w (rngPos st)) (drawn st) Hb) as Hs.
  rewrite Hl in Hs. rewrite (bind_returned _ _ _ _ _ Hs).
  unfold bind at 1. rewrite callOnUrl_run.
  destruct (onUrl w (attemptUrl w id (rngPos st))); reflexivity.
Qed.

End LocalOrder.

(** X25.  When the URL sink throws in a local login on a free port, the
    login throws what the sink threw, and the listener that was bound
    just before is left bound: nothing closes it.  Unless the thrown
    message happens to look like a bind failure, the orchestrator passes
    the same failure on. *)
Theorem sink_failure_leaves_port_bound (P : Url.Platform) (w : Runtime.World)
    (id secret : string) (st : Runtime.St) (e : Runtime.Thrown) :
  Summary.configured w id secret ->
  Runtime.listenError w = None ->
  Runtime.portBound st = false ->
  Runtime.onUrl w (Summary.attemptUrl w id (Runtime.rngPos st)) = Some e ->
  let run := Auth.loginGoogleWorkspaceLocal P w st in
  fst run = Runtime.Threw e
  /\ Runtime.portBound (snd run) = true
  /\ Runtime.trace (snd run)
     = (Runtime.trace st
          ++ [Runtime.EvListen Auth.REDIRECT_PORT;
              Runtime.EvUrlSink (Summary.attemptUrl w id (Runtime.rngPos st))])%list
  /\ (Probe.shouldUseManualOAuthFlow (Runtime.proc w) = false ->
      Auth.looksLikeBindFailure e = false ->
      Auth.loginGoogleWorkspace P w st = (Runtime.Threw e, snd run)).
Proof.
  intros Hc Hl Hb Hsink run. subst run.
  pose proof (local_to_sink P w id secret st Hc Hl Hb) as Hrun. cbv zeta in Hrun.
  rewrite Hsink in Hrun. rewrite Hrun. cbn [fst snd Runtime.portBound Runtime.trace].
  split; [reflexivity|]. split; [reflexivity|]. split; [now rewrite <- app_assoc|].
  intros Hprobe Hlooks. unfold Auth.loginGoogleWorkspace. rewrite Hprobe.
  unfold Runtime.tryCatch, Runtime.bind at 1. rewrite Hrun, Hlooks. reflexivity.
Qed.

(** X26.  In a local login on a free port, the listener is bound before
    the URL sink is called, and the sink is called next, with the
    authorization URL of the attempt: whatever else the login does comes
    after these two. *)
Theorem listener_bound_before_sink (P : Url.Platform) (w : Runtime.World)
    (id secret : string) (st : Runtime.St) :
  Summary.configured w id secret ->
  Runtime.listenError w = None ->
  Runtime.portBound st = false ->
  exists rest,
    Runtime.trace (snd (Auth.loginGoogleWorkspaceLocal P w st))
    = (Runtime.trace st
         ++ Runtime.EvListen Auth.REDIRECT_PORT
              :: Runtime.EvUrlSink (Summary.attemptUrl w id (Runtime.rngPos st))
              :: rest)%list.
Proof.
  intros Hc Hl Hb.
  pose proof (local_to_sink P w id secret st Hc Hl Hb) as Hrun. cbv zeta in Hrun.
  rewrite Hrun. destruct (Runtime.onUrl w _) as [e|].
  - exists []. cbn [snd Runtime.trace]. now rewrite <- app_assoc.
  - match goal with |- context [snd (?m ?s)] => destruct (m s) as [r st'] eqn:Hrest end.
    assert (Hext : Observed.extends
              (Runtime.bind (Auth.progress w "Waiting for authorization in browser...")
                 (fun _ =>
                    Runtime.bind
                      (Auth.serve P (Summary.attemptState w (Runtime.rngPos st))
                         (Runtime.requests w))
                      (fun result =>
                         Runtime.bind (Auth.cb_close result)
                           (fun _ =>
                              Runtime.bind
                                (Auth.progress w "Exchanging authorization code for tokens...")
                                (fun _ =>
                                   Auth.exchangeCodeForTokens w (Auth.cb_code result)
                                     (Summary.attemptVerifier w (Runtime.rngPos st)))))))).
    { apply extends_local_rest; [apply extends_serve|].
      intros s result s' Hserve. exact (proj2 (serve_port P _ _ _ _ _ Hserve)). }
    destruct (Hext _ _ _ Hrest) as (evs & Hevs). exists evs. cbn [snd]. rewrite Hevs.
    cbn [Runtime.trace]. rewrite <- !app_assoc. reflexivity.
Qed.

(** * The Gmail client *)

(** ** Address lists *)

Section AddressFacts.

Import Gmail.

Lemma countQuotes_app (a b : string) :
  countQuotes (a +:+ b) = countQuotes a + countQuotes b.
Proof.
  induction a as [|c a IH]; [reflexivity|].
  rewrite append_cons. simpl. rewrite IH. lia.
Qed.

Lemma whitespace_not_quote (c : ascii) :
  JsString.isWhiteSpace c = true -> Ascii.eqb c (ascii_of_N 34) = false.
Proof.
  intros H. destruct (Ascii.eqb c (ascii_of_N 34)) eqn:E; [|reflexivity].
  apply Ascii.eqb_eq in E. subst c. discriminate H.
Qed.

Lemma whitespace_not_comma (c : ascii) :
  JsString.isWhiteSpace c = true -> Ascii.eqb c "," = false.
Proof.
  intros H. destruct (Ascii.eqb c ",") eqn:E; [|reflexivity].
  apply Ascii.eqb_eq in E. subst c. discriminate H.
Qed.

(** A text is white space, what trimming its start leaves, in this order. *)
Lemma trimStart_split (s : string) :
  exists ws, s = ws +:+ JsString.trimStart s /\ countQuotes ws = 0.
Proof.
  induction s as [|c s (ws & Hs & Hq)]; [exists ""; auto|].
  simpl. destruct (JsString.isWhiteSpace c) eqn:Hc.
  - exists (String c ws). rewrite append_cons, <- Hs. split; [reflexivity|].
    cbn [countQuotes]. now rewrite (whitespace_not_quote c Hc), Hq.
  - exists "". auto.
Qed.

Lemma trimEnd_split (s : string) :
  exists ws, s = JsString.trimEnd s +:+ ws /\ countQuotes ws = 0.
Proof.
  induction s as [|c s (ws & Hs & Hq)]; [exists ""; auto|].
  rewrite trimEnd_cons.
  destruct (JsString.isWhiteSpace c && String.eqb (JsString.trimEnd s) "") eqn:E.
  - apply andb_true_iff in E as [Hc He]. apply String.eqb_eq in He.
    rewrite He, append_empty in Hs. subst ws. exists (String c s). rewrite append_empty.
    split; [reflexivity|]. cbn [countQuotes]. now rewrite (whitespace_not_quote c Hc), Hq.
  - exists ws. rewrite append_cons, <- Hs. auto.
Qed.

(** A text is white space, its trimmed form, white space. *)
Lemma trim_split (s : string) :
  exists before after,
    s = before +:+ JsString.trim s +:+ after
    /\ countQuotes before = 0 /\ countQuotes after = 0.
Proof.
  destruct (trimStart_split s) as (before & Hs & Hb).
  destruct (trimEnd_split (JsString.trimStart s)) as (after & He & Ha).
  exists before, after. unfold JsString.trim. rewrite <- He. auto.
Qed.

Lemma split_head (s : string) :
  exists piece pieces, splitOutsideQuotes s = piece :: pieces.
Proof.
  induction s as [|c s (piece & pieces & IH)]; simpl; [eauto|].
  destruct (Ascii.eqb c "," && Nat.even (countQuotes s)); [eauto|]. rewrite IH. eauto.
Qed.

Lemma even_add_bit (b : bool) (n m : nat) :
  Nat.even n = Nat.even m ->
  Nat.even ((if b then 1 else 0) + n) = Nat.even ((if b then 1 else 0) + m).
Proof.
  intros H. destruct b; [|exact H]. change (1 + n) with (S n). change (1 + m) with (S m).
  rewrite !Nat.even_succ, <- !Nat.negb_even. now rewrite H.
Qed.

(** The first piece has the parity of quotes of the whole text; the
    pieces after it each have an even number of quotes. *)
Lemma split_parity (s : string) (piece : string) (pieces : list string) :
  splitOutsideQuotes s = piece :: pieces ->
  Nat.even (countQuotes piece) = Nat.even (countQuotes s)
  /\ Forall (fun p => Nat.even (countQuotes p) = true) pieces.
Proof.
  revert piece pieces. induction s as [|c s IH]; intros piece pieces; simpl.
  - intros [= <- <-]. auto.
  - destruct (Ascii.eqb c "," && Nat.even (countQuotes s)) eqn:E.
    + apply andb_true_iff in E as [Hc He]. intros [= <- <-].
      destruct (split_head s) as (h & t & Hs). rewrite Hs.
      destruct (IH h t Hs) as [Hh Ht]. split.
      * apply Ascii.eqb_eq in Hc. subst c. simpl. now rewrite He.
      * constructor; [now rewrite Hh | exact Ht].
    + destruct (split_head s) as (h & t & Hs). rewrite Hs. intros [= <- <-].
      destruct (IH h t Hs) as [Hh Ht]. split; [|exact Ht].
      simpl. now apply even_add_bit.
Qed.

(** A comma left inside a piece has an odd number of quotes after it. *)
Lemma split_comma (s piece before after : string) :
  In piece (splitOutsideQuotes s) ->
  piece = before +:+ "," +:+ after ->
  Nat.odd (countQuotes after) = true.
Proof.
  revert piece before. induction s as [|c s IH]; intros piece before; simpl.
  - intros [<-|[]] H. destruct before; discriminate H.
  - destruct (split_head s) as (h & t & Hs).
    destruct (Ascii.eqb c "," && Nat.even (countQuotes s)) eqn:E.
    + intros [<-|Hin] H; [destruct before; discriminate H|]. exact (IH _ _ Hin H).
    + rewrite Hs. intros [<-|Hin] H.
      * destruct before as [|b before].
        -- rewrite append_empty in H. change ("," +:+ after) with (String "," after) in H.
           injection H as -> ->. rewrite Ascii.eqb_refl in E. cbn [andb] in E.
           destruct (split_parity s after t Hs) as [Hpar _].
           rewrite <- Nat.negb_even, Hpar, E. reflexivity.
        -- rewrite append_cons in H. injection H as _ H.
           apply (IH h before); [rewrite Hs; now left | exact H].
      * apply (IH piece before); [rewrite Hs; now right | exact H].
Qed.

Lemma split_no_quotes (s : string) :
  countQuotes s = 0 -> Forall (fun p => countQuotes p = 0) (splitOutsideQuotes s).
Proof.
  induction s as [|c s IH]; cbn [countQuotes splitOutsideQuotes]; intros H.
  - repeat constructor.
  - destruct (Ascii.eqb c (ascii_of_N 34)) eqn:Hc; [discriminate H|].
    cbn [Nat.add] in H. specialize (IH H).
    destruct (Ascii.eqb c "," && Nat.even (countQuotes s)).
    + constructor; [reflexivity | exact IH].
    + destruct (splitOutsideQuotes s) as [|h t].
      * repeat constructor. cbn [countQuotes]. now rewrite Hc.
      * inversion IH as [|? ? Hh Ht]; subst. constructor; [|exact Ht].
        cbn [countQuotes]. now rewrite Hc.
Qed.

(** An entry of the result is the trimmed form of a piece, and not empty. *)
Lemma parseAddressList_entry (value entry : string) :
  In entry (parseAddressList value) ->
  entry <> "" /\ exists piece, In piece (splitOutsideQuotes value)
                               /\ entry = JsString.trim piece.
Proof.
  unfold parseAddressList. destruct (String.eqb (JsString.trim value) ""); [intros []|].
  rewrite filter_In, in_map_iff. intros [(piece & <- & Hin) Hne].
  apply negb_true_iff, String.eqb_neq in Hne. eauto.
Qed.

End AddressFacts.

(** X9.  Every address [parseAddressList] returns is non-empty and has no
    white space at either end; a header that is blank gives no address;
    and the addresses are the non-blank pieces of the header, each
    trimmed, in their order. *)
Theorem address_list_entries_are_clean (value : string) :
  (forall entry, In entry (Gmail.parseAddressList value) ->
                 entry <> "" /\ JsString.trim entry = entry)
  /\ (JsString.trim value = "" -> Gmail.parseAddressList value = [])
  /\ Gmail.parseAddressList value
     = List.filter (fun s => negb (String.eqb s ""))
         (map JsString.trim (Gmail.splitOutsideQuotes value)).
Proof.
  split; [|split].
  - intros entry Hin. destruct (parseAddressList_entry value entry Hin) as (Hne & piece & _ & ->).
    split; [exact Hne | apply trim_idem].
  - intros Hblank. unfold Gmail.parseAddressList. now rewrite Hblank.
  - unfold Gmail.parseAddressList.
    destruct (String.eqb (JsString.trim value) "") eqn:Hblank; [|reflexivity].
    apply String.eqb_eq in Hblank. symmetry.
    (* a blank header has one blank piece *)
    assert (Hpieces : forall s, JsString.trim s = "" -> Gmail.splitOutsideQuotes s = [s]).
    { clear. intros s. unfold JsString.trim. induction s as [|c s IH]; [reflexivity|].
      simpl. destruct (JsString.isWhiteSpace c) eqn:Hc.
      - intros H. rewrite (whitespace_not_comma c Hc). cbn [andb]. now rewrite (IH H).
      - rewrite trimEnd_cons, Hc. discriminate. }
    rewrite (Hpieces value Hblank). simpl. now rewrite Hblank.
Qed.

(** X10.  A comma that remains inside a returned address has an odd
    number of double quotes after it in that address: it stands inside a
    quotation.  In particular, when the header has no double quote, no
    returned address contains a comma. *)
Theorem address_list_commas_are_quoted (value entry before after : string) :
  In entry (Gmail.parseAddressList value) ->
  entry = before +:+ "," +:+ after ->
  Nat.odd (Gmail.countQuotes after) = true /\ Gmail.countQuotes value <> 0.
Proof.
  intros Hin Hentry.
  destruct (parseAddressList_entry value entry Hin) as (_ & piece & Hpiece & Htrim).
  destruct (trim_split piece) as (ws1 & ws2 & Hsplit & Hq1 & Hq2).
  rewrite <- Htrim, Hentry in Hsplit.
  assert (Hshape : piece = (ws1 +:+ before) +:+ "," +:+ (after +:+ ws2))
    by (rewrite Hsplit, !append_assoc; reflexivity).
  pose proof (split_comma value piece _ _ Hpiece Hshape) as Hodd.
  rewrite countQuotes_app, Hq2, Nat.add_0_r in Hodd. split; [exact Hodd|].
  intros Hzero. pose proof (split_no_quotes value Hzero) as Hall.
  rewrite List.Forall_forall in Hall. specialize (Hall piece Hpiece).
  rewrite Hshape, !countQuotes_app in Hall.
  assert (Gmail.countQuotes after = 0) as Ha by lia. rewrite Ha in Hodd. discriminate Hodd.
Qed.

(** ** Message bodies: decoding what Gmail encodes *)

Section DecodeFacts.

Import Gmail.

Lemma valueOf_digit (s5 s4 s3 s2 s1 s0 : bool) :
  Base64.valueOf (underscoreToSlash (dashToPlus (Buffer.b64urlDigit s5 s4 s3 s2 s1 s0)))
  = Some (s5, s4, s3, s2, s1, s0).
Proof. destruct s5, s4, s3, s2, s1, s0; vm_compute; reflexivity. Qed.

Lemma urlSafe_digit (s5 s4 s3 s2 s1 s0 : bool) :
  Rfc4648.urlSafe (Rfc4648.b64Digit s5 s4 s3 s2 s1 s0) = Buffer.b64urlDigit s5 s4 s3 s2 s1 s0.
Proof. destruct s5, s4, s3, s2, s1, s0; vm_compute; reflexivity. Qed.

Lemma read_digit (s5 s4 s3 s2 s1 s0 : bool) (rest : string) :
  readSextets (String (Buffer.b64urlDigit s5 s4 s3 s2 s1 s0) rest)
  = (s5, s4, s3, s2, s1, s0) :: readSextets rest.
Proof.
  unfold readSextets. cbn [NodeUrl.mapChars Base64.sextets]. now rewrite valueOf_digit.
Qed.

Lemma read_safe_digit (s5 s4 s3 s2 s1 s0 : bool) (rest : string) :
  readSextets (NodeUrl.mapChars Rfc4648.urlSafe (String (Rfc4648.b64Digit s5 s4 s3 s2 s1 s0) rest))
  = (s5, s4, s3, s2, s1, s0) :: readSextets (NodeUrl.mapChars Rfc4648.urlSafe rest).
Proof. cbn [NodeUrl.mapChars]. rewrite urlSafe_digit. apply read_digit. Qed.

Lemma read_padding (rest : string) :
  readSextets (NodeUrl.mapChars Rfc4648.urlSafe (String "=" rest)) = [].
Proof. reflexivity. Qed.

Lemma byteOf_bits (b : byte) (b0 b1 b2 b3 b4 b5 b6 b7 : bool) :
  Byte.to_bits b = (b0, (b1, (b2, (b3, (b4, (b5, (b6, b7))))))) ->
  Base64.byteOf b7 b6 b5 b4 b3 b2 b1 b0 = b.
Proof. intros E. unfold Base64.byteOf. rewrite <- E. apply Byte.of_bits_to_bits. Qed.

Ltac bits b :=
  let E := fresh "E" in
  destruct (Byte.to_bits b) as (?b0 & ?b1 & ?b2 & ?b3 & ?b4 & ?b5 & ?b6 & ?b7) eqn:E;
  apply byteOf_bits in E.

(** Reading the unpadded encoding of bytes gives the bytes back. *)
Lemma read_toBase64url (bs : list byte) :
  Base64.bytesOf (readSextets (Buffer.toBase64url bs)) = bs.
Proof.
  induction bs as [|a|a b|a b c rest IH] using list_ind3; cbn [Buffer.toBase64url].
  - reflexivity.
  - bits a. rewrite !read_digit. cbn [Base64.bytesOf readSextets]. now rewrite E.
  - bits a. bits b. rewrite !read_digit. cbn [Base64.bytesOf]. now rewrite E, E0.
  - bits a. bits b. bits c. rewrite !read_digit. cbn [Base64.bytesOf].
    now rewrite E, E0, E1, IH.
Qed.

(** The same of the padded encoding. *)
Lemma read_base64url_padded (bs : list byte) :
  Base64.bytesOf (readSextets (Base64.base64url_padded bs)) = bs.
Proof.
  unfold Base64.base64url_padded.
  induction bs as [|a|a b|a b c rest IH] using list_ind3; cbn [Rfc4648.base64].
  - reflexivity.
  - bits a. rewrite !read_safe_digit, read_padding. cbn [Base64.bytesOf]. now rewrite E.
  - bits a. bits b. rewrite !read_safe_digit, read_padding. cbn [Base64.bytesOf].
    now rewrite E, E0.
  - bits a. bits b. bits c. rewrite !read_safe_digit. cbn [Base64.bytesOf].
    now rewrite E, E0, E1, IH.
Qed.

End DecodeFacts.

(** X11.  [decodeBase64] undoes the URL-safe base64 encoding: applied to
    the encoding of a list of bytes, written without padding (as
    [toString("base64url")] writes it) or with it, it returns the text
    the platform reads in exactly these bytes. *)
Theorem decodeBase64_inverts_encoding (H : Gmail.Host) (bytes : list byte) :
  Gmail.decodeBase64 H (Buffer.toBase64url bytes) = Gmail.utf8ToString H bytes
  /\ Gmail.decodeBase64 H (Base64.base64url_padded bytes) = Gmail.utf8ToString H bytes.
Proof.
  unfold Gmail.decodeBase64, Base64.fromBase64. split; f_equal.
  - apply read_toBase64url.
  - apply read_base64url_padded.
Qed.

(** ** Walking the parts of a message *)

Section PartFacts.

Import Gmail.

Context (H : Host).

(** Induction on a part, with the property at hand for each sub-part. *)
Lemma MessagePart_nested_ind (P : MessagePart -> Prop) :
  (forall m f h b, P (mkPart m f h b None)) ->
  (forall m f h b subParts, List.Forall P subParts -> P (mkPart m f h b (Some subParts))) ->
  forall part, P part.
Proof.
  intros Hleaf Hnode. fix IH 1. intros [m f h b [subParts|]]; [|apply Hleaf].
  apply Hnode. induction subParts as [|p rest IHrest]; constructor; [apply IH | exact IHrest].
Qed.

Lemma omap_app_list {A B : Type} (f : A -> option B) (l1 l2 : list A) :
  omap f (l1 ++ l2)%list = (omap f l1 ++ omap f l2)%list.
Proof.
  induction l1 as [|x l1 IH]; [reflexivity|].
  cbn. destruct (f x); cbn; now rewrite IH.
Qed.

Lemma lastOr_app {A : Type} (d : option A) (l1 l2 : list A) :
  lastOr d (l1 ++ l2)%list = lastOr (lastOr d l1) l2.
Proof.
  unfold lastOr. rewrite last_app. destruct (last l2); reflexivity.
Qed.

Lemma lastOr_nil {A : Type} (d : option A) : lastOr d [] = d.
Proof. reflexivity. Qed.

Lemma lastOr_one {A : Type} (d : option A) (x : A) : lastOr d [x] = Some x.
Proof. reflexivity. Qed.

Lemma lastOr_none {A : Type} (l : list A) : lastOr None l = last l.
Proof. unfold lastOr. destruct (last l); reflexivity. Qed.

(** What a part itself adds to the attachments. *)
Lemma attachment_step (part : MessagePart) (acc : list Attachment) :
  (if JsString.truthy (partFilename part) && JsString.truthy (bodyAttachmentId part)
   then
     (acc ++ [mkAttachment
                (match partFilename part with Some f => f | None => "" end)
                (match partMimeType part with
                 | Some m => m
                 | None => "application/octet-stream"
                 end)
                (match partBody part with
                 | Some b => match size b with Some n => n | None => 0%Z end
                 | None => 0%Z
                 end)])%list
   else acc)
  = (acc ++ omap attachmentOf [part])%list.
Proof.
  cbn. unfold attachmentOf.
  destruct (JsString.truthy (partFilename part) && JsString.truthy (bodyAttachmentId part));
    cbn; [reflexivity | now rewrite app_nil_r].
Qed.

Lemma attachments_loop (subParts : list MessagePart) :
  List.Forall
    (fun p => forall acc,
       processAttachments p acc = (acc ++ omap attachmentOf (flatten p))%list) subParts ->
  forall a,
    (fix each (l : list MessagePart) (a : list Attachment) :=
       match l with
       | [] => a
       | subPart :: rest => each rest (processAttachments subPart a)
       end) subParts a
    = (a ++ omap attachmentOf
         ((fix each (l : list MessagePart) : list MessagePart :=
             match l with
             | [] => []
             | subPart :: rest => (flatten subPart ++ each rest)%list
             end) subParts))%list.
Proof.
  induction 1 as [|p rest Hp _ IHrest]; intros a.
  - now rewrite app_nil_r.
  - rewrite Hp, IHrest, omap_app_list, app_assoc. reflexivity.
Qed.

Lemma processAttachments_flat (part : MessagePart) (acc : list Attachment) :
  processAttachments part acc = (acc ++ omap attachmentOf (flatten part))%list.
Proof.
  revert acc. induction part as [m f h b|m f h b subParts IH] using MessagePart_nested_ind;
    intros acc.
  - cbn [processAttachments flatten]. apply attachment_step.
  - pose proof (attachment_step (mkPart m f h b (Some subParts)) acc) as Hself.
    cbn [processAttachments flatten]. rewrite (attachments_loop subParts IH), Hself.
    rewrite <- app_assoc, <- omap_app_list. reflexivity.
Qed.

(** What a part itself adds to the two bodies. *)
Lemma body_step (part : MessagePart) (acc : option string * option string) :
  (let mime := match partMimeType part with Some m => m | None => "" end in
   if String.eqb mime "text/plain" && JsString.truthy (bodyData part)
   then (Some (decodeBase64 H (match bodyData part with Some d => d | None => "" end)), snd acc)
   else if String.eqb mime "text/html" && JsString.truthy (bodyData part)
   then (fst acc, Some (decodeBase64 H (match bodyData part with Some d => d | None => "" end)))
   else acc)
  = (lastOr (fst acc) (map (decodeBase64 H) (omap (dataOfType "text/plain") [part])),
     lastOr (snd acc) (map (decodeBase64 H) (omap (dataOfType "text/html") [part]))).
Proof.
  cbv zeta. unfold dataOfType, omap, list_omap.
  set (mime := match partMimeType part with Some m => m | None => "" end).
  destruct (JsString.truthy (bodyData part)) eqn:Ed.
  - destruct (bodyData part) as [d|]; [|discriminate Ed].
    destruct (String.eqb mime "text/plain") eqn:Ep.
    + apply String.eqb_eq in Ep. rewrite Ep. reflexivity.
    + destruct (String.eqb mime "text/html"); destruct acc; reflexivity.
  - rewrite !andb_false_r. destruct acc; reflexivity.
Qed.

Lemma bodies_loop (subParts : list MessagePart) :
  List.Forall
    (fun p => forall acc,
       processBody H p acc
       = (lastOr (fst acc)
            (map (decodeBase64 H) (omap (dataOfType "text/plain") (flatten p))),
          lastOr (snd acc)
            (map (decodeBase64 H) (omap (dataOfType "text/html") (flatten p))))) subParts ->
  forall a,
    (fix each (l : list MessagePart) (a : option string * option string) :=
       match l with
       | [] => a
       | subPart :: rest => each rest (processBody H subPart a)
       end) subParts a
    = (let rest :=
         (fix each (l : list MessagePart) : list MessagePart :=
            match l with
            | [] => []
            | subPart :: rest => (flatten subPart ++ each rest)%list
            end) subParts in
       (lastOr (fst a) (map (decodeBase64 H) (omap (dataOfType "text/plain") rest)),
        lastOr (snd a) (map (decodeBase64 H) (omap (dataOfType "text/html") rest)))).
Proof.
  induction 1 as [|p rest Hp _ IHrest]; intros a.
  - now destruct a.
  - rewrite Hp, IHrest. cbv zeta. cbn [fst snd].
    rewrite !omap_app_list, !map_app, !lastOr_app. reflexivity.
Qed.

Lemma processBody_flat (part : MessagePart) (acc : option string * option string) :
  processBody H part acc
  = (lastOr (fst acc) (map (decodeBase64 H) (omap (dataOfType "text/plain") (flatten part))),
     lastOr (snd acc) (map (decodeBase64 H) (omap (dataOfType "text/html") (flatten part)))).
Proof.
  revert acc. induction part as [m f h b|m f h b subParts IH] using MessagePart_nested_ind;
    intros acc.
  - cbn [processBody flatten]. apply body_step.
  - pose proof (body_step (mkPart m f h b (Some subParts)) acc) as Hself. cbv zeta in Hself.
    cbn [processBody flatten]. cbv zeta. rewrite (bodies_loop subParts IH), Hself.
    cbv zeta. cbn [fst snd].
    rewrite <- !lastOr_app, <- !map_app, <- !omap_app_list. reflexivity.
Qed.

End PartFacts.

(** X12.  The attachments [extractAttachments] lists are the parts of the
    payload, at any depth, that have a non-empty file name and an
    attachment id, in document order (a part before its sub-parts, the
    sub-parts in their order); no payload gives none. *)
Theorem attachments_in_document_order (payload : Gmail.MessagePart) :
  Gmail.extractAttachments (Some payload)
  = omap Gmail.attachmentOf (Gmail.flatten payload)
  /\ Gmail.extractAttachments None = [].
Proof.
  split; [|reflexivity]. unfold Gmail.extractAttachments.
  now rewrite processAttachments_flat.
Qed.

(** X13.  The text [extractBodyContent] returns is the decoded data of
    the last part, in document order, whose type is text/plain and whose
    data is not empty, and none when there is no such part; the same for
    text/html.  A later part overrides an earlier one. *)
Theorem body_is_last_part_of_type (H : Gmail.Host) (payload : Gmail.MessagePart) :
  Gmail.extractBodyContent H payload
  = (last (map (Gmail.decodeBase64 H)
             (omap (Gmail.dataOfType "text/plain") (Gmail.flatten payload))),
     last (map (Gmail.decodeBase64 H)
             (omap (Gmail.dataOfType "text/html") (Gmail.flatten payload)))).
Proof.
  unfold Gmail.extractBodyContent. rewrite processBody_flat. cbn [fst snd].
  now rewrite !lastOr_none.
Qed.

(** ** Parsing a message *)

Section MessageFacts.

Import Gmail.

Lemma omap_some_in {A B : Type} (f : A -> option B) (l : list A) :
  0 < length (omap f l) <-> exists x, In x l /\ f x <> None.
Proof.
  induction l as [|x l IH]; cbn.
  - split; [lia | intros (x & [] & _)].
  - destruct (f x) eqn:Ex; cbn.
    + split; [|lia]. intros _. exists x. split; [now left | congruence].
    + rewrite IH. split.
      * intros (y & Hy & Hf). eauto.
      * intros (y & [<-|Hy] & Hf); [congruence | eauto].
Qed.

Lemma attachmentOf_some (part : MessagePart) :
  attachmentOf part <> None
  <-> JsString.truthy (partFilename part) = true
      /\ JsString.truthy (bodyAttachmentId part) = true.
Proof.
  unfold attachmentOf. rewrite <- andb_true_iff.
  destruct (JsString.truthy (partFilename part) && JsString.truthy (bodyAttachmentId part));
    split; congruence.
Qed.

Lemma getHeader_cons (h : Header) (headers : list Header) (name : string) :
  getHeader (h :: headers) name
  = if match h_name h with
       | Some n => String.eqb (JsString.toLowerCase n) (JsString.toLowerCase name)
       | None => false
       end
    then match h_value h with Some v => v | None => "" end
    else getHeader headers name.
Proof.
  unfold getHeader. cbn [find].
  destruct (match h_name h with
            | Some n => String.eqb (JsString.toLowerCase n) (JsString.toLowerCase name)
            | None => false
            end); reflexivity.
Qed.

End MessageFacts.

(** X14.  A parsed message is flagged as having attachments exactly when
    some part of its payload, at any depth, has a non-empty file name and
    an attachment id; the list of attachments is present exactly when the
    flag is set; and neither depends on [includeBody], without which both
    bodies are absent. *)
Theorem attachment_flag_matches_parts (H : Gmail.Host) (message : Gmail.Message)
    (includeBody : bool) :
  let parsed := Gmail.parseGmailMessage H message includeBody in
  (Gmail.hasAttachments parsed = true
   <-> exists payload part,
         Gmail.m_payload message = Some payload
         /\ In part (Gmail.flatten payload)
         /\ JsString.truthy (Gmail.partFilename part) = true
         /\ JsString.truthy (Gmail.bodyAttachmentId part) = true)
  /\ (Gmail.hasAttachments parsed = true <-> Gmail.attachments parsed <> None)
  /\ Gmail.attachments parsed
     = Gmail.attachments (Gmail.parseGmailMessage H message (negb includeBody))
  /\ (includeBody = false ->
      Gmail.bodyText parsed = None /\ Gmail.bodyHtml parsed = None).
Proof.
  unfold Gmail.parseGmailMessage.
  destruct (match includeBody, Gmail.m_payload message with
            | true, Some payload => Gmail.extractBodyContent H payload
            | _, _ => (None, None)
            end) as [text html] eqn:Ebody.
  destruct (match negb includeBody, Gmail.m_payload message with
            | true, Some payload => Gmail.extractBodyContent H payload
            | _, _ => (None, None)
            end) as [text' html'] eqn:Ebody'.
  cbn [Gmail.hasAttachments Gmail.attachments Gmail.bodyText Gmail.bodyHtml].
  split; [|split; [|split]].
  - rewrite Nat.ltb_lt. destruct (Gmail.m_payload message) as [payload|].
    + unfold Gmail.extractAttachments. rewrite processAttachments_flat, app_nil_l.
      rewrite omap_some_in. split.
      * intros (part & Hin & Hsome). apply attachmentOf_some in Hsome as [Hf Ha].
        exists payload, part. auto.
      * intros (payload' & part & [= <-] & Hin & Hf & Ha).
        exists part. split; [exact Hin | now apply attachmentOf_some].
    + cbn. split; [lia | intros (? & ? & [=] & _)].
  - destruct (Nat.ltb 0 (length (Gmail.extractAttachments (Gmail.m_payload message))));
      split; congruence.
  - reflexivity.
  - intros ->. now injection Ebody as <- <-.
Qed.

(** X15.  Header lookup ignores the case of names and takes the first
    match: the result is the value (the empty text when it has none) of
    the first header whose name equals the name asked for up to case,
    whatever follows it; when no header has the name, up to case, the
    result is the empty text; and two names equal up to case give the
    same result. *)
Theorem header_lookup_ignores_case (headers : list Gmail.Header) (name : string) :
  (forall before h after,
      headers = (before ++ h :: after)%list ->
      List.Forall
        (fun h' => option_map JsString.toLowerCase (Gmail.h_name h')
                   <> Some (JsString.toLowerCase name)) before ->
      option_map JsString.toLowerCase (Gmail.h_name h) = Some (JsString.toLowerCase name) ->
      Gmail.getHeader headers name = default "" (Gmail.h_value h))
  /\ (List.Forall
        (fun h => option_map JsString.toLowerCase (Gmail.h_name h)
                  <> Some (JsString.toLowerCase name)) headers ->
      Gmail.getHeader headers name = "")
  /\ (forall name',
        JsString.toLowerCase name = JsString.toLowerCase name' ->
        Gmail.getHeader headers name = Gmail.getHeader headers name').
Proof.
  assert (Hskip : forall h l,
            option_map JsString.toLowerCase (Gmail.h_name h) <> Some (JsString.toLowerCase name) ->
            Gmail.getHeader (h :: l) name = Gmail.getHeader l name).
  { intros h l Hh. rewrite getHeader_cons. destruct (Gmail.h_name h) as [n|]; [|reflexivity].
    destruct (String.eqb (JsString.toLowerCase n) (JsString.toLowerCase name)) eqn:E;
      [|reflexivity].
    apply String.eqb_eq in E. cbn in Hh. congruence. }
  split; [|split].
  - intros before h after -> Hbefore Hh.
    induction Hbefore as [|h' l Hh' _ IH]; cbn [app].
    + rewrite getHeader_cons. destruct (Gmail.h_name h) as [n|]; [|discriminate Hh].
      cbn in Hh. injection Hh as Hh. rewrite Hh, String.eqb_refl.
      now destruct (Gmail.h_value h).
    + now rewrite Hskip.
  - induction 1 as [|h l Hh _ IH]; [reflexivity|]. now rewrite Hskip.
  - intros name' Hname. induction headers as [|h l IH]; [reflexivity|].
    now rewrite !getHeader_cons, <- Hname, IH.
Qed.

(** * The agent tools *)

(** ** Limits on the number of results *)

Section ClampFacts.

Import QArith_base.

Lemma Qle_bool_false (p q : Q) : Qle_bool p q = false -> Qle q p.
Proof.
  intros E. apply Qlt_le_weak, Qnot_le_lt. intros Hle.
  apply Qle_bool_iff in Hle. congruence.
Qed.

Lemma clamp_nan (lo hi : Z) (n : Js.Num) :
  Js.min (Js.max n (Js.ofZ lo)) (Js.ofZ hi) = Js.NaN <-> n = Js.NaN.
Proof.
  unfold Js.ofZ. destruct n as [q| | |]; cbn.
  - destruct (Qle_bool (inject_Z lo) q); cbn;
      [destruct (Qle_bool q (inject_Z hi)) | destruct (Qle_bool (inject_Z lo) (inject_Z hi))];
      split; discriminate.
  - split; reflexivity.
  - split; discriminate.
  - destruct (Qle_bool (inject_Z lo) (inject_Z hi)); split; discriminate.
Qed.

Lemma clamp_within (lo hi : Z) (n : Js.Num) :
  (lo <= hi)%Z -> n <> Js.NaN ->
  Js.within lo hi (Js.min (Js.max n (Js.ofZ lo)) (Js.ofZ hi)).
Proof.
  intros Hlh Hn. rewrite Zle_Qle in Hlh. pose proof (proj2 (Qle_bool_iff _ _) Hlh) as Hb.
  unfold Js.ofZ, Js.within. destruct n as [q| | |]; cbn.
  - destruct (Qle_bool (inject_Z lo) q) eqn:E1; cbn.
    + destruct (Qle_bool q (inject_Z hi)) eqn:E2.
      * exists q. apply Qle_bool_iff in E1, E2. auto.
      * exists (inject_Z hi). repeat split; [exact Hlh | apply Qle_refl].
    + rewrite Hb. exists (inject_Z lo). repeat split; [apply Qle_refl | exact Hlh].
  - contradiction.
  - exists (inject_Z hi). repeat split; [exact Hlh | apply Qle_refl].
  - rewrite Hb. exists (inject_Z lo). repeat split; [apply Qle_refl | exact Hlh].
Qed.

Lemma clamp_id (lo hi : Z) (n : Js.Num) :
  Js.within lo hi n -> Js.min (Js.max n (Js.ofZ lo)) (Js.ofZ hi) = n.
Proof.
  intros (q & -> & Hlo & Hhi). apply Qle_bool_iff in Hlo, Hhi.
  unfold Js.ofZ. cbn. rewrite Hlo. cbn. now rewrite Hhi.
Qed.

Lemma Qlt_bool_false (p q : Q) : Qlt p q -> Qle_bool q p = false.
Proof.
  intros Hlt. destruct (Qle_bool q p) eqn:E; [|reflexivity].
  apply Qle_bool_iff in E. exfalso. exact (Qlt_not_le _ _ Hlt E).
Qed.

Lemma clamp_below (lo hi : Z) (n : Js.Num) :
  (lo <= hi)%Z -> Js.below lo n ->
  Js.min (Js.max n (Js.ofZ lo)) (Js.ofZ hi) = Js.ofZ lo.
Proof.
  intros Hlh Hn. rewrite Zle_Qle in Hlh. pose proof (proj2 (Qle_bool_iff _ _) Hlh) as Hb.
  unfold Js.ofZ. destruct n as [q| | |]; cbn in Hn |- *; try contradiction.
  - rewrite (Qlt_bool_false _ _ Hn). cbn. now rewrite Hb.
  - now rewrite Hb.
Qed.

Lemma clamp_above (lo hi : Z) (n : Js.Num) :
  (lo <= hi)%Z -> Js.above hi n ->
  Js.min (Js.max n (Js.ofZ lo)) (Js.ofZ hi) = Js.ofZ hi.
Proof.
  intros Hlh Hn. rewrite Zle_Qle in Hlh.
  unfold Js.ofZ. destruct n as [q| | |]; cbn in Hn |- *; try contradiction; [|reflexivity].
  assert (Hlo : Qle_bool (inject_Z lo) q = true).
  { apply Qle_bool_iff. apply Qlt_le_weak. exact (Qle_lt_trans _ _ _ Hlh Hn). }
  rewrite Hlo. cbn. now rewrite (Qlt_bool_false _ _ Hn).
Qed.

End ClampFacts.

Section LimitFacts.

Import Runtime.

(** What both tools make of [params.maxResults]. *)
Lemma limit_cases (hi : Z) (params : Js.Params) :
  (1 <= hi)%Z ->
  let raw := match params !! "maxResults" with
             | Some (Js.VNumber n) => n
             | _ => Js.ofZ 10
             end in
  let limit := Js.min (Js.max raw (Js.ofZ 1)) (Js.ofZ hi) in
  (limit = Js.NaN <-> params !! "maxResults" = Some (Js.VNumber Js.NaN))
  /\ (limit <> Js.NaN -> Js.within 1 hi limit)
  /\ (forall n, params !! "maxResults" = Some (Js.VNumber n) -> Js.within 1 hi n -> limit = n)
  /\ (forall n, params !! "maxResults" = Some (Js.VNumber n) ->
                (Js.below 1 n -> limit = Js.ofZ 1) /\ (Js.above hi n -> limit = Js.ofZ hi))
  /\ ((forall n, params !! "maxResults" <> Some (Js.VNumber n)) ->
      limit = Js.min (Js.ofZ 10) (Js.ofZ hi)).
Proof.
  intros Hhi raw limit. subst limit. split; [|split; [|split; [|split]]].
  - rewrite clamp_nan. subst raw.
    destruct (params !! "maxResults") as [[| | |n| | |]|]; try (split; discriminate).
    split; [intros -> | intros [= ->]]; reflexivity.
  - intros Hn. apply clamp_within; [exact Hhi|]. now rewrite <- (clamp_nan 1 hi).
  - intros n Hp Hw. subst raw. rewrite Hp. now apply clamp_id.
  - intros n Hp. subst raw. rewrite Hp. split; intros Hn.
    + now apply clamp_below.
    + now apply clamp_above.
  - intros Hnone. subst raw.
    destruct (params !! "maxResults") as [[| | |n| | |]|]; try reflexivity.
    now destruct (Hnone n).
Qed.

End LimitFacts.

(** X16.  A Gmail search asks the client for a number of messages that
    lies between 1 and 50: the [maxResults] argument itself when it is a
    number in that range, 1 when it is a number below 1, 50 when it is a
    number above 50, and 10 when it is not a number; the one exception is
    NaN, which is passed on as it is.  The body is asked for only when
    [includeBody] is the boolean true. *)
Theorem gmail_search_limit_is_clamped {R : Type} (jsonResult : GmailTool.Payload -> R)
    (readRequired : Js.Params -> string -> Runtime.Outcome string)
    (readOptional : Js.Params -> string -> Runtime.Outcome (option string))
    (profiles : list string) (resolveApiKeyForProfile : string -> option string)
    (createGmailClient : string -> GmailClient.Client)
    (params : Js.Params) (account : option string) (accessToken query : string) :
  readRequired params "action" = Runtime.Returned "search" ->
  readOptional params "account" = Runtime.Returned account ->
  Tools.resolveGoogleAccessToken profiles resolveApiKeyForProfile account
  = Runtime.Returned accessToken ->
  readRequired params "query" = Runtime.Returned query ->
  exists limit includeBody,
    GmailTool.execute jsonResult readRequired readOptional profiles resolveApiKeyForProfile
      createGmailClient params
    = Pure.andThen
        (GmailClient.searchMessages (createGmailClient accessToken) query limit includeBody)
        (fun messages =>
           Runtime.Returned
             (jsonResult (GmailTool.SearchResult query (length messages) messages)))
    /\ (limit = Js.NaN <-> params !! "maxResults" = Some (Js.VNumber Js.NaN))
    /\ (limit <> Js.NaN -> Js.within 1 50 limit)
    /\ (forall n, params !! "maxResults" = Some (Js.VNumber n) ->
                  Js.within 1 50 n -> limit = n)
    /\ (forall n, params !! "maxResults" = Some (Js.VNumber n) ->
                  (Js.below 1 n -> limit = Js.ofZ 1) /\ (Js.above 50 n -> limit = Js.ofZ 50))
    /\ ((forall n, params !! "maxResults" <> Some (Js.VNumber n)) -> limit = Js.ofZ 10)
    /\ (includeBody = true <-> params !! "includeBody" = Some (Js.VBool true)).
Proof.
  intros Haction Haccount Htoken Hquery.
  unfold GmailTool.execute. rewrite Haction. cbn [Pure.andThen].
  rewrite Haccount. cbn [Pure.andThen]. rewrite Htoken. cbn [Pure.andThen].
  change (String.eqb "search" "search") with true. cbv iota.
  rewrite Hquery. cbn [Pure.andThen].
  destruct (limit_cases 50 params ltac:(lia)) as (Hnan & Hin & Hid & Hout & Hdefault).
  eexists. eexists. split; [reflexivity|].
  split; [exact Hnan|]. split; [exact Hin|]. split; [exact Hid|]. split; [exact Hout|]. split.
  - intros Hnone. rewrite (Hdefault Hnone). reflexivity.
  - destruct (params !! "includeBody") as [[| |[]| | | |]|]; split; congruence.
Qed.

(** X17.  Listing events asks the client for a number of events that
    lies between 1 and 250 (the [maxResults] argument itself when it is a
    number in that range, 1 when it is a number below 1, 250 when it is a
    number above 250, 10 when it is not a number, NaN when it is NaN),
    and for the calendar "primary" when no calendar is named. *)
Theorem calendar_list_limit_is_clamped {CalendarEvent CalendarInfo FreeBusy R : Type}
    (jsonResult : CalendarTool.Payload CalendarEvent CalendarInfo FreeBusy -> R)
    (readRequired : Js.Params -> string -> Runtime.Outcome string)
    (readOptional : Js.Params -> string -> Runtime.Outcome (option string))
    (profiles : list string) (resolveApiKeyForProfile : string -> option string)
    (createCalendarClient : string -> CalendarTool.Client CalendarEvent CalendarInfo FreeBusy)
    (params : Js.Params) (account calendarId timeMin timeMax query : option string)
    (accessToken : string) :
  readRequired params "action" = Runtime.Returned "list" ->
  readOptional params "account" = Runtime.Returned account ->
  Tools.resolveGoogleAccessToken profiles resolveApiKeyForProfile account
  = Runtime.Returned accessToken ->
  readOptional params "calendarId" = Runtime.Returned calendarId ->
  readOptional params "timeMin" = Runtime.Returned timeMin ->
  readOptional params "timeMax" = Runtime.Returned timeMax ->
  readOptional params "query" = Runtime.Returned query ->
  exists limit,
    CalendarTool.execute jsonResult readRequired readOptional profiles
      resolveApiKeyForProfile createCalendarClient params
    = Pure.andThen
        (CalendarTool.listEvents (createCalendarClient accessToken)
           (CalendarTool.mkListOptions (default "primary" calendarId) timeMin timeMax
              limit query))
        (fun events =>
           Runtime.Returned
             (jsonResult
                (CalendarTool.ListResult (default "primary" calendarId) (length events)
                   events)))
    /\ (limit = Js.NaN <-> params !! "maxResults" = Some (Js.VNumber Js.NaN))
    /\ (limit <> Js.NaN -> Js.within 1 250 limit)
    /\ (forall n, params !! "maxResults" = Some (Js.VNumber n) ->
                  Js.within 1 250 n -> limit = n)
    /\ (forall n, params !! "maxResults" = Some (Js.VNumber n) ->
                  (Js.below 1 n -> limit = Js.ofZ 1) /\ (Js.above 250 n -> limit = Js.ofZ 250))
    /\ ((forall n, params !! "maxResults" <> Some (Js.VNumber n)) -> limit = Js.ofZ 10).
Proof.
  intros Haction Haccount Htoken Hcal Hmin Hmax Hquery.
  unfold CalendarTool.execute. rewrite Haction. cbn [Pure.andThen].
  rewrite Haccount. cbn [Pure.andThen]. rewrite Htoken. cbn [Pure.andThen].
  change (String.eqb "list" "list") with true. cbv iota.
  rewrite Hcal. cbn [Pure.andThen]. rewrite Hmin. cbn [Pure.andThen].
  rewrite Hmax. cbn [Pure.andThen]. rewrite Hquery. cbn [Pure.andThen].
  destruct (limit_cases 250 params ltac:(lia)) as (Hnan & Hin & Hid & Hout & Hdefault).
  eexists. split; [destruct calendarId; reflexivity|].
  split; [exact Hnan|]. split; [exact Hin|]. split; [exact Hid|]. split; [exact Hout|].
  intros Hnone. rewrite (Hdefault Hnone). reflexivity.
Qed.

Section FreeBusyFacts.

Lemma strings_of_strings (ids : list string) : Js.strings (map Js.VString ids) = ids.
Proof.
  unfold Js.strings. induction ids as [|i ids IH]; [reflexivity|]. cbn. now rewrite IH.
Qed.

Lemma all_strings (items : list Js.Value) :
  forallb Js.isString items = true -> items = map Js.VString (Js.strings items).
Proof.
  unfold Js.strings. induction items as [|v items IH]; [reflexivity|]. cbn [forallb].
  intros [Hv Hrest]%andb_true_iff. destruct v; try discriminate Hv.
  cbn. f_equal. now apply IH.
Qed.

End FreeBusyFacts.

(** X18.  The free/busy action reaches the client only with a non-empty
    list of strings.  When [calendarIds] is not an array, is empty or
    holds something that is not a string, the call fails with
    "calendarIds must be a non-empty array of strings", whatever
    [timeMin] and [timeMax] are; and when it is a non-empty array of
    strings, the client is asked about exactly these ids. *)
Theorem freebusy_needs_calendar_ids {CalendarEvent CalendarInfo FreeBusy R : Type}
    (jsonResult : CalendarTool.Payload CalendarEvent CalendarInfo FreeBusy -> R)
    (readRequired : Js.Params -> string -> Runtime.Outcome string)
    (readOptional : Js.Params -> string -> Runtime.Outcome (option string))
    (profiles : list string) (resolveApiKeyForProfile : string -> option string)
    (createCalendarClient : string -> CalendarTool.Client CalendarEvent CalendarInfo FreeBusy)
    (params : Js.Params) (account : option string) (accessToken : string) :
  readRequired params "action" = Runtime.Returned "freebusy" ->
  readOptional params "account" = Runtime.Returned account ->
  Tools.resolveGoogleAccessToken profiles resolveApiKeyForProfile account
  = Runtime.Returned accessToken ->
  let result :=
    CalendarTool.execute jsonResult readRequired readOptional profiles
      resolveApiKeyForProfile createCalendarClient params in
  ((forall ids, ids <> [] -> params !! "calendarIds" <> Some (Js.VArray (map Js.VString ids))) ->
   result = Runtime.Threw (Runtime.ErrorObj CalendarTool.calendarIdsInvalid))
  /\ (forall ids,
        ids <> [] -> params !! "calendarIds" = Some (Js.VArray (map Js.VString ids)) ->
        result
        = Pure.andThen (readRequired params "timeMin") (fun timeMin =>
          Pure.andThen (readRequired params "timeMax") (fun timeMax =>
          Pure.andThen
            (CalendarTool.getFreeBusy (createCalendarClient accessToken) ids timeMin timeMax)
            (fun freeBusy =>
               Runtime.Returned
                 (jsonResult (CalendarTool.FreeBusyResult timeMin timeMax freeBusy)))))).
Proof.
  intros Haction Haccount Htoken result. subst result.
  unfold CalendarTool.execute. rewrite Haction. cbn [Pure.andThen].
  rewrite Haccount. cbn [Pure.andThen]. rewrite Htoken. cbn [Pure.andThen].
  change (String.eqb "freebusy" "list") with false.
  change (String.eqb "freebusy" "get") with false.
  change (String.eqb "freebusy" "calendars") with false.
  change (String.eqb "freebusy" "freebusy") with true. cbv iota.
  split.
  - intros Hbad. destruct (params !! "calendarIds") as [[| | | | |items|]|]; try reflexivity.
    destruct (Nat.eqb (length items) 0) eqn:Elen; [reflexivity|].
    destruct (forallb Js.isString items) eqn:Eall; [|reflexivity].
    exfalso. apply (Hbad (Js.strings items)).
    + intros Hnil. apply all_strings in Eall. rewrite Hnil in Eall. subst items.
      discriminate Elen.
    + now rewrite <- all_strings.
  - intros ids Hne ->. cbv beta iota.
    assert (Hall : forallb Js.isString (map Js.VString ids) = true)
      by (clear; induction ids; [reflexivity | assumption]).
    rewrite Hall, strings_of_strings. destruct ids as [|i ids]; [contradiction|]. reflexivity.
Qed.

(** X19.  Both tools look for the access token before they look at the
    action: with no Google Workspace profile stored, a call whose action
    and account can be read fails with "No Google Workspace account
    configured. Run: clawdbot google login" whatever the action and
    whatever the client would do; and with a token at hand, an action
    that is none of the tool's own fails with "Unknown gmail action: " or
    "Unknown calendar action: " followed by the action. *)
Theorem tools_resolve_token_before_action {CalendarEvent CalendarInfo FreeBusy R R' : Type}
    (gmailResult : GmailTool.Payload -> R)
    (calendarResult : CalendarTool.Payload CalendarEvent CalendarInfo FreeBusy -> R')
    (readRequired : Js.Params -> string -> Runtime.Outcome string)
    (readOptional : Js.Params -> string -> Runtime.Outcome (option string))
    (profiles : list string) (resolveApiKeyForProfile : string -> option string)
    (createGmailClient : string -> GmailClient.Client)
    (createCalendarClient : string -> CalendarTool.Client CalendarEvent CalendarInfo FreeBusy)
    (params : Js.Params) (action : string) (account : option string) :
  readRequired params "action" = Runtime.Returned action ->
  readOptional params "account" = Runtime.Returned account ->
  let gmail :=
    GmailTool.execute gmailResult readRequired readOptional profiles
      resolveApiKeyForProfile createGmailClient params in
  let calendar :=
    CalendarTool.execute calendarResult readRequired readOptional profiles
      resolveApiKeyForProfile createCalendarClient params in
  (profiles = [] ->
   gmail = Runtime.Threw (Runtime.ErrorObj Tools.noAccountConfigured)
   /\ calendar = Runtime.Threw (Runtime.ErrorObj Tools.noAccountConfigured))
  /\ (forall accessToken,
        Tools.resolveGoogleAccessToken profiles resolveApiKeyForProfile account
        = Runtime.Returned accessToken ->
        (~ In action ["search"; "read"; "thread"; "labels"] ->
         gmail = Runtime.Threw (Runtime.ErrorObj ("Unknown gmail action: " +:+ action)))
        /\ (~ In action ["list"; "get"; "calendars"; "freebusy"] ->
            calendar
            = Runtime.Threw (Runtime.ErrorObj ("Unknown calendar action: " +:+ action)))).
Proof.
  intros Haction Haccount gmail calendar. subst gmail calendar.
  unfold GmailTool.execute, CalendarTool.execute. rewrite Haction. cbn [Pure.andThen].
  rewrite Haccount. cbn [Pure.andThen]. split.
  - intros ->. split; reflexivity.
  - intros accessToken ->. cbn [Pure.andThen].
    assert (Hneq : forall name, name <> action -> String.eqb action name = false)
      by (intros name Hn; apply String.eqb_neq; congruence).
    split; intros Hnot; cbn [In] in Hnot;
      rewrite !Hneq by (intros Heq; apply Hnot; auto 6); reflexivity.
Qed.

(** ** The client methods *)

Section ClientFacts.

Import Runtime Gmail GmailClient.

Lemma fulfilled_map {A} (outs : list (Outcome A)) (l : list A) :
  Pure.fulfilled outs = Some l <-> outs = map Returned l.
Proof.
  revert l. induction outs as [|o outs IH]; intros l; cbn.
  - split; [intros [= <-]; reflexivity | destruct l; [reflexivity | discriminate]].
  - destruct o as [a|e| |e]; try (split; [discriminate | destruct l; discriminate]).
    destruct (Pure.fulfilled outs) as [l'|].
    + split.
      * intros [= <-]. cbn. f_equal. now apply IH.
      * destruct l as [|a' l]; [discriminate|]. cbn. intros [= -> Hrest].
        apply IH in Hrest. now injection Hrest as ->.
    + split; [discriminate|]. destruct l as [|a' l]; [discriminate|]. cbn.
      intros [= -> Hrest]. apply IH in Hrest. discriminate Hrest.
Qed.

Lemma settled_map {A} (l : list A) :
  Pure.crashes (map Returned l) = [] /\ Pure.rejections (map Returned l) = [].
Proof. unfold Pure.crashes, Pure.rejections. induction l; cbn; auto. Qed.

Lemma promiseAll_returned {A} (soonest : list Thrown -> Thrown) (outs : list (Outcome A))
    (l : list A) :
  Pure.promiseAll soonest outs = Returned l <-> outs = map Returned l.
Proof.
  unfold Pure.promiseAll. split.
  - destruct (Pure.crashes outs); [|discriminate].
    destruct (Pure.rejections outs); [|discriminate].
    destruct (Pure.fulfilled outs) as [l'|] eqn:E; [|discriminate].
    intros [= <-]. now apply fulfilled_map.
  - intros ->. destruct (settled_map l) as [-> ->].
    now rewrite (proj2 (fulfilled_map _ l) eq_refl).
Qed.

Lemma rejections_in {A} (outs : list (Outcome A)) (e : Thrown) :
  In (Threw e) outs -> Pure.rejections outs <> [].
Proof.
  unfold Pure.rejections. induction outs as [|o outs IH]; [intros []|].
  intros [->|Hin]; cbn; [discriminate|].
  destruct o; cbn; try discriminate; now apply IH.
Qed.

Lemma crashes_none {A} (outs : list (Outcome A)) :
  (forall e, ~ In (Crashed e) outs) -> Pure.crashes outs = [].
Proof.
  unfold Pure.crashes. induction outs as [|o outs IH]; [reflexivity|]. intros Hno.
  destruct o as [a|e| |e]; cbn; try (apply IH; intros e' Hin; apply (Hno e'); now right).
  destruct (Hno e). now left.
Qed.

Lemma map_returned_Forall2 {A B} (f : A -> Outcome B) (xs : list A) (ys : list B) :
  map f xs = map Returned ys <-> List.Forall2 (fun x y => f x = Returned y) xs ys.
Proof.
  revert ys. induction xs as [|x xs IH]; intros [|y ys]; cbn; split;
    try discriminate; try (intros Hall; inversion Hall; fail).
  - constructor.
  - reflexivity.
  - intros [= Hx Hrest]. constructor; [exact Hx | now apply IH].
  - intros Hall. inversion Hall as [|? ? ? ? Hx Hrest]; subst. rewrite Hx. f_equal.
    now apply IH.
Qed.

Lemma getMessage_returned (H : Host) (api : Api) (messageId : string) (format : Format)
    (r : GmailMessageFull) :
  getMessage_ H api messageId format = Returned r
  <-> exists message,
        messages_get api messageId format = Returned message
        /\ r = parseGmailMessage H message (isFull format).
Proof.
  unfold getMessage_. destruct (messages_get api messageId format) as [m|e| |e]; cbn.
  - split; [intros [= <-]; eauto | intros (m' & [= <-] & ->); reflexivity].
  - split; [discriminate | intros (? & [=] & _)].
  - split; [discriminate | intros (? & [=] & _)].
  - split; [discriminate | intros (? & [=] & _)].
Qed.

(** Parsing without the body leaves both bodies out. *)
Lemma parse_without_body (H : Host) (message : Message) :
  bodyText (parseGmailMessage H message false) = None
  /\ bodyHtml (parseGmailMessage H message false) = None.
Proof. split; reflexivity. Qed.

Lemma isFull_format (includeBody : bool) :
  isFull (if includeBody then Full else Metadata) = includeBody.
Proof. now destruct includeBody. Qed.

(** What a search returns, given what the listing returned. *)
Lemma search_returned (H : Host) (api : Api) (query : string) (maxResults : Js.Num)
    (includeBody : bool) (listing : option (list Message)) (results : list GmailMessageFull) :
  messages_list api query maxResults = Returned listing ->
  searchMessages_ H api query maxResults includeBody = Returned results
  <-> List.Forall2
        (fun m r =>
           exists message,
             messages_get api (default "" (m_id m)) (if includeBody then Full else Metadata)
             = Returned message
             /\ r = parseGmailMessage H message includeBody)
        (List.filter (fun m => JsString.truthy (m_id m)) (default [] listing)) results.
Proof.
  intros Hlist. unfold searchMessages_. rewrite Hlist. cbn [Pure.andThen].
  change (match listing with Some l => l | None => [] end) with (default [] listing).
  assert (Hiff : forall l,
    List.Forall2
      (fun m r =>
         getMessage_ H api (match m_id m with Some i => i | None => "" end)
           (if includeBody then Full else Metadata) = Returned r) l results
    <-> List.Forall2
          (fun m r =>
             exists message,
               messages_get api (default "" (m_id m)) (if includeBody then Full else Metadata)
               = Returned message
               /\ r = parseGmailMessage H message includeBody) l results).
  { intros l. split; intros Hall; induction Hall as [|m r l' rs Hm _ IH]; constructor;
      try exact IH.
    - apply getMessage_returned in Hm as (message & Hget & ->).
      rewrite isFull_format. exists message. destruct (m_id m); auto.
    - destruct Hm as (message & Hget & ->). apply getMessage_returned.
      rewrite isFull_format. exists message. destruct (m_id m); auto. }
  destruct (default [] listing) as [|m l] eqn:El.
  - cbn. split; [intros [= <-]; constructor | intros Hall; inversion Hall; reflexivity].
  - cbn [length Nat.eqb]. rewrite promiseAll_returned, map_returned_Forall2. apply Hiff.
Qed.

End ClientFacts.

(** X20.  A search returns exactly one message for each listed message
    that has an id, in the order of the listing: the parse of what the
    API returned for that id, asked in the format metadata, or full when
    the body is wanted.  It never returns a part of them: when the fetch
    of one listed message is rejected, the search is rejected. *)
Theorem search_results_follow_listing (H : Gmail.Host) (api : GmailClient.Api)
    (query : string) (maxResults : Js.Num) (includeBody : bool)
    (listing : option (list Gmail.Message)) :
  GmailClient.messages_list api query maxResults = Runtime.Returned listing ->
  let listed := List.filter (fun m => JsString.truthy (Gmail.m_id m)) (default [] listing) in
  let format := if includeBody then GmailClient.Full else GmailClient.Metadata in
  (forall results,
     GmailClient.searchMessages_ H api query maxResults includeBody = Runtime.Returned results
     <-> List.Forall2
           (fun m r =>
              exists message,
                GmailClient.messages_get api (default "" (Gmail.m_id m)) format
                = Runtime.Returned message
                /\ r = Gmail.parseGmailMessage H message includeBody)
           listed results)
  /\ (forall m e,
        In m listed ->
        GmailClient.messages_get api (default "" (Gmail.m_id m)) format = Runtime.Threw e ->
        forall results,
          GmailClient.searchMessages_ H api query maxResults includeBody
          <> Runtime.Returned results).
Proof.
  intros Hlist listed format. split.
  - intros results. now apply search_returned.
  - intros m e Hin Hthrew results Hret.
    apply (search_returned H api query maxResults includeBody listing results Hlist) in Hret.
    fold listed in Hret. clearbody listed. fold format in Hret.
    induction Hret as [|m' r l rs (message & Hget & _) _ IH]; [destruct Hin|].
    destruct Hin as [->|Hin]; [congruence | now apply IH].
Qed.

(** X21.  Bodies are absent unless asked for: every message of a search
    or of a thread read without [includeBody], and a message fetched in a
    format other than full, has neither a text nor an HTML body. *)
Theorem bodies_absent_unless_asked (H : Gmail.Host) (api : GmailClient.Api) :
  (forall query maxResults results,
     GmailClient.searchMessages_ H api query maxResults false = Runtime.Returned results ->
     List.Forall (fun r => Gmail.bodyText r = None /\ Gmail.bodyHtml r = None) results)
  /\ (forall threadId results,
        GmailClient.getThread_ H api threadId false = Runtime.Returned results ->
        List.Forall (fun r => Gmail.bodyText r = None /\ Gmail.bodyHtml r = None) results)
  /\ (forall messageId format r,
        format <> GmailClient.Full ->
        GmailClient.getMessage_ H api messageId format = Runtime.Returned r ->
        Gmail.bodyText r = None /\ Gmail.bodyHtml r = None).
Proof.
  split; [|split].
  - intros query maxResults results Hret.
    destruct (GmailClient.messages_list api query maxResults) as [listing|e| |e] eqn:Hlist;
      try (unfold GmailClient.searchMessages_ in Hret; rewrite Hlist in Hret;
           discriminate Hret).
    apply (search_returned H api query maxResults false listing results Hlist) in Hret.
    induction Hret as [|m r l rs (message & _ & ->) _ IH]; constructor;
      [apply parse_without_body | exact IH].
  - intros threadId results. unfold GmailClient.getThread_.
    destruct (GmailClient.threads_get api threadId GmailClient.Metadata) as [response|e| |e];
      cbn [Pure.andThen]; try discriminate.
    intros [= <-]. apply List.Forall_forall. intros r Hin.
    apply in_map_iff in Hin as (m & <- & _). apply parse_without_body.
  - intros messageId format r Hformat Hret.
    apply getMessage_returned in Hret as (message & _ & ->).
    destruct format; [contradiction | |]; apply parse_without_body.
Qed.

(** X22.  Every label [listLabels] returns has a non-empty id and a
    non-empty name, and its type is "system" or "user"; and every label
    the API gave with an id and a name is returned under them. *)
Theorem labels_are_named (api : GmailClient.Api) (labels : list GmailClient.GmailLabel) :
  GmailClient.listLabels_ api = Runtime.Returned labels ->
  List.Forall
    (fun label =>
       GmailClient.label_id label <> "" /\ GmailClient.label_name label <> ""
       /\ (GmailClient.label_type label = "system" \/ GmailClient.label_type label = "user"))
    labels
  /\ exists given,
       GmailClient.labels_list api = Runtime.Returned given
       /\ forall l i n,
            In l (default [] given) ->
            GmailClient.l_id l = Some i -> i <> "" ->
            GmailClient.l_name l = Some n -> n <> "" ->
            exists label,
              In label labels
              /\ GmailClient.label_id label = i /\ GmailClient.label_name label = n.
Proof.
  unfold GmailClient.listLabels_.
  destruct (GmailClient.labels_list api) as [given|e| |e]; cbn [Pure.andThen];
    try discriminate.
  intros [= <-]. change (match given with Some l => l | None => [] end) with (default [] given).
  split.
  - apply List.Forall_forall. intros label Hin.
    apply in_map_iff in Hin as (l & <- & Hl). apply filter_In in Hl as [_ Hl].
    apply andb_true_iff in Hl as [Hid Hname]. cbn.
    destruct (GmailClient.l_id l) as [i|]; [|discriminate Hid].
    destruct (GmailClient.l_name l) as [n|]; [|discriminate Hname].
    cbn in Hid, Hname. apply negb_true_iff, String.eqb_neq in Hid, Hname.
    repeat split; try assumption.
    destruct (GmailClient.l_type l) as [t|]; [|now right].
    destruct (String.eqb t "system"); auto.
  - exists given. split; [reflexivity|]. intros l i n Hin Hi Hine Hn Hnne.
    eexists. split.
    + apply in_map. apply filter_In. split; [exact Hin|].
      rewrite Hi, Hn. cbn. apply String.eqb_neq in Hine, Hnne. now rewrite Hine, Hnne.
    + cbn. now rewrite Hi, Hn.
Qed.

(** * The logout command *)

Section LogoutFacts.

Import Runtime Cli.

Context (success : string -> string).

(** The loop removes the listed profiles it does not pass over and no
    other, counts them, and only prints. *)
Lemma removeEach_spec (targetEmail : option string) (ids : list string) :
  forall (profiles : Profiles) (removed : nat) (out : list Output),
    let result := removeEach success targetEmail ids profiles removed out in
    (forall id,
        (In id ids /\ spared targetEmail (profiles !! id) = false ->
         fst (fst result) !! id = None)
        /\ (~ (In id ids /\ spared targetEmail (profiles !! id) = false) ->
            fst (fst result) !! id = profiles !! id))
    /\ snd (fst result)
       = removed
         + length (List.filter (fun id => negb (spared targetEmail (profiles !! id))) ids)
    /\ exists lines,
         snd result = (out ++ lines)%list
         /\ List.Forall (fun o => exists line, o = Logged line) lines.
Proof.
  induction ids as [|a ids IH]; intros profiles removed out; cbn [removeEach].
  - cbn. split; [|split].
    + intros id. split; [intros [[] _] | reflexivity].
    + lia.
    + exists []. split; [now rewrite app_nil_r | constructor].
  - destruct (spared targetEmail (profiles !! a)) eqn:Ea.
    + destruct (IH profiles removed out) as (Hlook & Hcount & lines & Hout & Hlines).
      cbv zeta. split; [|split].
      * intros id. destruct (Hlook id) as [Hgone Hkept]. split.
        -- intros [[<-|Hin] Hs]; [congruence | now apply Hgone].
        -- intros Hnot. apply Hkept. intros [Hin Hs]. apply Hnot. split; [now right | exact Hs].
      * rewrite Hcount. cbn [List.filter]. rewrite Ea. reflexivity.
      * exists lines. auto.
    + assert (Hsame : forall id,
                spared targetEmail (delete a profiles !! id)
                = spared targetEmail (profiles !! id)).
      { intros id. destruct (String.eqb_spec id a) as [->|Hne].
        - rewrite lookup_delete_eq, Ea. unfold spared. now rewrite andb_false_r.
        - now rewrite lookup_delete_ne by congruence. }
      destruct (IH (delete a profiles) (S removed)
                  (out ++ [Logged (success ("Removed: " +:+ a))])%list)
        as (Hlook & Hcount & lines & Hout & Hlines).
      cbv zeta. split; [|split].
      * intros id. destruct (Hlook id) as [Hgone Hkept]. rewrite Hsame in Hgone, Hkept. split.
        -- intros [Hin Hs]. destruct (String.eqb_spec id a) as [->|Hne].
           ++ destruct (in_dec string_dec a ids) as [Hyes|Hno].
              ** apply Hgone. auto.
              ** rewrite Hkept; [apply lookup_delete_eq | intros [Hyes _]; contradiction].
           ++ apply Hgone. destruct Hin as [<-|Hin]; [congruence | auto].
        -- intros Hnot. destruct (String.eqb_spec id a) as [->|Hne].
           ++ destruct Hnot. split; [now left | exact Ea].
           ++ rewrite Hkept; [now apply lookup_delete_ne; congruence|].
              intros [Hin Hs]. apply Hnot. split; [now right | exact Hs].
      * rewrite Hcount. cbn [List.filter]. rewrite Ea. cbn [negb length].
        rewrite (filter_ext _ (fun id => negb (spared targetEmail (profiles !! id)))
                   (fun id => f_equal negb (Hsame id))). lia.
      * exists (Logged (success ("Removed: " +:+ a)) :: lines). split.
        -- rewrite Hout, <- app_assoc. reflexivity.
        -- constructor; [eauto | exact Hlines].
Qed.

End LogoutFacts.

(** X23.  [google logout] removes from the store exactly the listed
    profiles it does not pass over: all of them when no account is given;
    with an account, those whose credential is missing, or not of type
    oauth, or of that e-mail address, so that the oauth credentials of
    other addresses and every profile that was not listed stay as they
    were.  The store is saved only after at least one removal, and what
    is saved is the store so reduced. *)
Theorem logout_removes_exactly (info success danger : string -> string)
    (stringOf : Runtime.Thrown -> string) (store : Cli.Profiles)
    (listProfilesForProvider : Cli.Profiles -> string -> list string)
    (saveAuthProfileStore : Cli.Profiles -> option Runtime.Thrown)
    (account : option string) :
  let ids := listProfilesForProvider store Cli.PROVIDER_NAME in
  let out :=
    Cli.logout info success danger stringOf (inr store) listProfilesForProvider
      saveAuthProfileStore account in
  let removed id := In id ids /\ Cli.spared account (store !! id) = false in
  (forall saved,
      In (Cli.Saved saved) out ->
      saveAuthProfileStore saved = None
      /\ (exists id, removed id)
      /\ forall id,
           (removed id -> saved !! id = None)
           /\ (~ removed id -> saved !! id = store !! id))
  /\ ((exists id, removed id) ->
      (forall profiles, saveAuthProfileStore profiles = None) ->
      exists saved, In (Cli.Saved saved) out)
  /\ (JsString.truthy account = false -> forall id, In id ids -> removed id).
Proof.
  intros ids out removed. subst out. unfold Cli.logout. fold ids.
  pose proof (removeEach_spec success account ids store 0 []) as Hspec.
  cbv zeta in Hspec.
  destruct (Cli.removeEach success account ids store 0 []) as [[kept count] printed] eqn:Hrun.
  cbn [fst snd] in Hspec. destruct Hspec as (Hlook & Hcount & lines & -> & Hlines).
  cbn [app] in *.
  assert (Hlogged : forall saved, ~ In (Cli.Saved saved) lines).
  { intros saved Hin. rewrite List.Forall_forall in Hlines.
    destruct (Hlines _ Hin) as (line & [=]). }
  assert (Hsome : 0 < count <-> exists id, removed id).
  { rewrite Hcount. cbn [Nat.add]. clear. subst removed. cbv beta.
    induction ids as [|a ids IH]; cbn [List.filter length].
    - split; [lia | intros (id & [] & _)].
    - destruct (Cli.spared account (store !! a)) eqn:Ea; cbn [negb length].
      + rewrite IH. split.
        * intros (id & Hin & Hs). exists id. split; [now right | exact Hs].
        * intros (id & [<-|Hin] & Hs); [congruence | eauto].
      + split; [|lia]. intros _. exists a. split; [now left | exact Ea]. }
  split; [|split].
  - intros saved Hin. destruct (Nat.eqb (length ids) 0) eqn:Elen.
    { destruct Hin as [[=]|[]]. }
    destruct (Nat.ltb 0 count) eqn:Ecount.
    + apply Nat.ltb_lt in Ecount.
      destruct (saveAuthProfileStore kept) as [e|] eqn:Esave.
      * unfold Cli.failed in Hin. apply in_app_or in Hin as [Hin|[[=]|[[=]|[]]]].
        now destruct (Hlogged saved).
      * apply in_app_or in Hin as [Hin|[[= <-]|[[=]|[]]]]; [now destruct (Hlogged saved)|].
        split; [exact Esave|]. split; [now apply Hsome | exact Hlook].
    + destruct (JsString.truthy account).
      * apply in_app_or in Hin as [Hin|[[=]|[]]]. now destruct (Hlogged saved).
      * now destruct (Hlogged saved).
  - intros Hex Hsave. apply Hsome in Hex.
    destruct (Nat.eqb (length ids) 0) eqn:Elen.
    { apply Nat.eqb_eq, length_zero_iff_nil in Elen. rewrite Elen in Hcount.
      cbn in Hcount. lia. }
    rewrite (proj2 (Nat.ltb_lt 0 count) Hex), Hsave. exists kept.
    apply in_or_app. right. now left.
  - intros Hnone id Hin. split; [exact Hin|]. unfold Cli.spared. now rewrite Hnone.
Qed.

(** ** The further theorems at work on sample inputs *)

(** A request for the icon and one without a target leave the listener
    waiting. *)
Lemma listener_skips_witness :
  fst (Auth.serve NodeUrl.platform "S" [Some "/favicon.ico"; None] Runtime.initial)
  = Runtime.Pending.
Proof.
  rewrite (proj2 (listener_skips_other_paths NodeUrl.platform "S"
                    [Some "/favicon.ico"; None] [] Runtime.initial
                    ltac:(repeat constructor; eexists;
                          (split; [vm_compute; reflexivity | vm_compute; discriminate])))).
  reflexivity.
Defined.

(** The granted callback is the second request; the icon came before. *)
Lemma listener_resolves_witness :
  exists before r rest,
    Runtime.requests Samples.granted = (before ++ r :: rest)%list
    /\ Forall (Observed.otherPath NodeUrl.platform) before
    /\ Observed.grants NodeUrl.platform Samples.firstState r "abc".
Proof.
  eapply (listener_resolves_only_with_expected_state NodeUrl.platform Samples.firstState
            (Runtime.requests Samples.granted) Runtime.initial _
            (Auth.mkCallbackOk "abc" Auth.serverClose)).
  vm_compute. reflexivity.
Defined.

(** A pasted URL with another state ends the manual flow, nothing sent. *)
Lemma manual_state_mismatch_witness :
  fst (Auth.loginGoogleWorkspaceManual NodeUrl.platform MoreSamples.wrongState Runtime.initial)
  = Runtime.Threw (Runtime.ErrorObj "OAuth state mismatch - please try again")
  /\ Observed.fetchesOf
       (snd (Auth.loginGoogleWorkspaceManual NodeUrl.platform MoreSamples.wrongState
               Runtime.initial))
     = [].
Proof.
  apply (manual_state_mismatch_sends_nothing NodeUrl.platform MoreSamples.wrongState
           "client-id" "client-secret"
           "http://localhost:51122/oauth-callback?code=abc&state=0000" "abc" "0000"
           Runtime.initial).
  - apply desktop_configured.
  - reflexivity.
  - reflexivity.
  - vm_compute. reflexivity.
  - vm_compute. discriminate.
Defined.

(** A pasted bare code is sent on as the code. *)
Lemma manual_bare_code_witness :
  exists rest,
    Observed.fetchesOf
      (snd (Auth.loginGoogleWorkspaceManual NodeUrl.platform Samples.providerError
              Runtime.initial))
    = (Summary.exchangeRequest "client-id" "client-secret" "pasted-code"
         (Summary.attemptVerifier Samples.providerError 0) :: rest)%list.
Proof.
  apply (proj1 (manual_bare_code_skips_state_check NodeUrl.platform Samples.providerError
                  "client-id" "client-secret" "pasted-code" Runtime.initial
                  (desktop_configured _ _ _ _) eq_refl eq_refl
                  ltac:(vm_compute; discriminate) ltac:(vm_compute; reflexivity))).
Defined.

(** A granted local attempt sends only the verifier it challenged. *)
Lemma verifier_witness :
  Observed.sentOnlyVerifier "client-id" "client-secret"
    (Summary.attemptVerifier Samples.granted 0) Runtime.initial
    (snd (Auth.loginGoogleWorkspaceLocal NodeUrl.platform Samples.granted Runtime.initial)).
Proof.
  apply (proj2 (proj1 (verifier_sent_is_the_challenged_one NodeUrl.platform Samples.granted
                         "client-id" "client-secret" Runtime.initial
                         (desktop_configured _ _ _ _)))).
Defined.

(** Without credentials the login throws and the sink is not called. *)
Lemma unconfigured_witness :
  fst (Auth.loginGoogleWorkspace NodeUrl.platform Samples.unconfigured Runtime.initial)
  = Runtime.Threw (Runtime.ErrorObj Auth.credentialsMissing)
  /\ Summary.sinks
       (snd (Auth.loginGoogleWorkspace NodeUrl.platform Samples.unconfigured Runtime.initial))
     = [].
Proof.
  destruct (proj1 (unconfigured_login_does_nothing NodeUrl.platform Samples.unconfigured
                     Runtime.initial (or_introl eq_refl)))
    as (Hthrown & Hsinks & _).
  split; [exact Hthrown | exact Hsinks].
Defined.

(** Over SSH no listener is bound. *)
Lemma manual_mode_witness :
  Observed.listens
    (snd (Auth.loginGoogleWorkspace NodeUrl.platform MoreSamples.remote Runtime.initial))
  = [].
Proof.
  apply (proj1 (manual_mode_never_listens NodeUrl.platform MoreSamples.remote Runtime.initial
                  eq_refl)).
Defined.

(** A desktop off Linux takes the local flow. *)
Lemma decision_table_witness :
  Probe.shouldUseManualOAuthFlow Samples.desktop = false.
Proof.
  apply (proj1 (decision_table_without_markers Samples.desktop eq_refl)).
  discriminate.
Defined.

(** The comma of a quoted display name stays, with one quote after it. *)
Lemma address_commas_witness :
  Nat.odd (Gmail.countQuotes (" John" +:+ String MoreSamples.quote " <j@x.org>")) = true
  /\ Gmail.countQuotes MoreSamples.quotedHeader <> 0.
Proof.
  apply (address_list_commas_are_quoted MoreSamples.quotedHeader
           (String MoreSamples.quote ("Doe, John" +:+ String MoreSamples.quote " <j@x.org>"))
           (String MoreSamples.quote "Doe")).
  - vm_compute. left. reflexivity.
  - vm_compute. reflexivity.
Defined.

(** Of two headers named To, in upper and in lower case, the first is
    the one found. *)
Lemma header_lookup_witness :
  Gmail.getHeader MoreSamples.headers "To" = "ada@example.com".
Proof.
  apply (proj1 (header_lookup_ignores_case MoreSamples.headers "To")
           [Gmail.mkHeader (Some "Subject") (Some "Hello")]
           (Gmail.mkHeader (Some "TO") (Some "ada@example.com"))
           [Gmail.mkHeader (Some "to") (Some "bob@example.com")]
           eq_refl).
  - repeat constructor. discriminate.
  - reflexivity.
Defined.

(** A granted local login sends nothing but the granted code. *)
Lemma granted_code_witness :
  Observed.fetchesOf
    (snd (Auth.loginGoogleWorkspaceLocal NodeUrl.platform Samples.granted Runtime.initial))
  = Observed.fetchesOf Runtime.initial
  \/ exists before r rest code lookups,
       Runtime.requests Samples.granted = (before ++ r :: rest)%list
       /\ Forall (Observed.otherPath NodeUrl.platform) before
       /\ Observed.grants NodeUrl.platform (Summary.attemptState Samples.granted 0) r code
       /\ Observed.fetchesOf
            (snd (Auth.loginGoogleWorkspaceLocal NodeUrl.platform Samples.granted
                    Runtime.initial))
          = (Observed.fetchesOf Runtime.initial
               ++ Summary.exchangeRequest "client-id" "client-secret" code
                    (Summary.attemptVerifier Samples.granted 0) :: lookups)%list
       /\ Forall Observed.isUserinfo lookups.
Proof.
  exact (local_exchanges_only_granted_code NodeUrl.platform Samples.granted "client-id"
           "client-secret" Runtime.initial (desktop_configured _ _ _ _)).
Defined.

(** A sink that throws leaves the listener bound. *)
Lemma sink_failure_witness :
  fst (Auth.loginGoogleWorkspaceLocal NodeUrl.platform MoreSamples.sinkFails Runtime.initial)
  = Runtime.Threw (Runtime.ErrorObj "browser unavailable")
  /\ Runtime.portBound
       (snd (Auth.loginGoogleWorkspaceLocal NodeUrl.platform MoreSamples.sinkFails
               Runtime.initial))
     = true.
Proof.
  destruct (sink_failure_leaves_port_bound NodeUrl.platform MoreSamples.sinkFails
              "client-id" "client-secret" Runtime.initial
              (Runtime.ErrorObj "browser unavailable")
              ltac:(repeat split; try reflexivity; discriminate) eq_refl eq_refl eq_refl)
    as (Hthrew & Hbound & _).
  split; [exact Hthrew | exact Hbound].
Defined.

(** In the granted login the listener is bound first, the sink called
    next. *)
Lemma listener_first_witness :
  exists rest,
    Runtime.trace
      (snd (Auth.loginGoogleWorkspaceLocal NodeUrl.platform Samples.granted Runtime.initial))
    = Runtime.EvListen Auth.REDIRECT_PORT
        :: Runtime.EvUrlSink (Summary.attemptUrl Samples.granted "client-id" 0) :: rest.
Proof.
  exact (listener_bound_before_sink NodeUrl.platform Samples.granted "client-id"
           "client-secret" Runtime.initial (desktop_configured _ _ _ _) eq_refl eq_refl).
Defined.

(** A search asking for 500 messages asks the client for 50. *)
Lemma gmail_search_limit_witness :
  exists limit includeBody,
    GmailTool.execute id ToolSamples.readRequired ToolSamples.readOptional Samples.profiles
      Samples.keyOf ToolSamples.gmailClient ToolSamples.searchCall
    = Pure.andThen
        (GmailClient.searchMessages
           (ToolSamples.gmailClient "key of google-workspace:ada@example.com")
           "is:unread" limit includeBody)
        (fun messages =>
           Runtime.Returned (GmailTool.SearchResult "is:unread" (length messages) messages))
    /\ limit = Js.ofZ 50.
Proof.
  destruct (gmail_search_limit_is_clamped id ToolSamples.readRequired
              ToolSamples.readOptional Samples.profiles Samples.keyOf
              ToolSamples.gmailClient ToolSamples.searchCall None
              "key of google-workspace:ada@example.com" "is:unread"
              eq_refl eq_refl eq_refl eq_refl)
    as (limit & includeBody & Hrun & _ & _ & _ & Hout & _).
  exists limit, includeBody. split; [exact Hrun|].
  apply (proj2 (Hout (Js.ofZ 500) eq_refl)). reflexivity.
Defined.

(** Listing with a limit of 0 asks for 1. *)
Lemma calendar_list_limit_witness :
  exists limit,
    CalendarTool.execute id ToolSamples.readRequired ToolSamples.readOptional Samples.profiles
      Samples.keyOf ToolSamples.calendarClient ToolSamples.listCall
    = Pure.andThen
        (CalendarTool.listEvents
           (ToolSamples.calendarClient "key of google-workspace:ada@example.com")
           (CalendarTool.mkListOptions "primary" None None limit None))
        (fun events =>
           Runtime.Returned (CalendarTool.ListResult "primary" (length events) events))
    /\ limit = Js.ofZ 1.
Proof.
  destruct (calendar_list_limit_is_clamped id ToolSamples.readRequired
              ToolSamples.readOptional Samples.profiles Samples.keyOf
              ToolSamples.calendarClient ToolSamples.listCall None None None None None
              "key of google-workspace:ada@example.com"
              eq_refl eq_refl eq_refl eq_refl eq_refl eq_refl eq_refl)
    as (limit & Hrun & _ & _ & _ & Hout & _).
  exists limit. split; [exact Hrun|].
  apply (proj1 (Hout (Js.ofZ 0) eq_refl)). reflexivity.
Defined.

(** A free/busy call for the primary calendar reaches the client. *)
Lemma freebusy_witness :
  CalendarTool.execute id ToolSamples.readRequired ToolSamples.readOptional Samples.profiles
    Samples.keyOf ToolSamples.calendarClient ToolSamples.freebusyCall
  = Runtime.Returned
      (CalendarTool.FreeBusyResult "2025-01-01T00:00:00Z" "2025-01-02T00:00:00Z" "busy").
Proof.
  rewrite (proj2 (freebusy_needs_calendar_ids id ToolSamples.readRequired
                    ToolSamples.readOptional Samples.profiles Samples.keyOf
                    ToolSamples.calendarClient ToolSamples.freebusyCall None
                    "key of google-workspace:ada@example.com" eq_refl eq_refl eq_refl)
             ["primary"] ltac:(discriminate) eq_refl).
  reflexivity.
Defined.

(** Sending is not an action of the Gmail tool. *)
Lemma unknown_action_witness :
  GmailTool.execute id ToolSamples.readRequired ToolSamples.readOptional Samples.profiles
    Samples.keyOf ToolSamples.gmailClient ToolSamples.sendCall
  = Runtime.Threw (Runtime.ErrorObj "Unknown gmail action: send").
Proof.
  apply (proj1 (proj2 (tools_resolve_token_before_action id id ToolSamples.readRequired
                         ToolSamples.readOptional Samples.profiles Samples.keyOf
                         ToolSamples.gmailClient ToolSamples.calendarClient
                         ToolSamples.sendCall "send" None eq_refl eq_refl)
                  "key of google-workspace:ada@example.com" eq_refl)).
  cbn. intros [H|[H|[H|[H|[]]]]]; discriminate H.
Defined.

(** The two listed messages come back in order. *)
Lemma search_results_witness :
  exists first second,
    GmailClient.searchMessages_ ToolSamples.host ToolSamples.mailbox "is:unread" (Js.ofZ 10)
      false
    = Runtime.Returned [first; second]
    /\ Gmail.id first = "m1" /\ Gmail.id second = "m2".
Proof.
  destruct (search_results_follow_listing ToolSamples.host ToolSamples.mailbox "is:unread"
              (Js.ofZ 10) false (Some [ToolSamples.mail "m1"; ToolSamples.mail "m2"]) eq_refl)
    as [Hiff _].
  eexists. eexists. split.
  - apply Hiff. repeat constructor; eexists; (split; [reflexivity | reflexivity]).
  - split; reflexivity.
Defined.

(** The unnamed label of the sample mailbox is left out. *)
Lemma labels_witness :
  List.Forall
    (fun label =>
       GmailClient.label_id label <> "" /\ GmailClient.label_name label <> ""
       /\ (GmailClient.label_type label = "system" \/ GmailClient.label_type label = "user"))
    [GmailClient.mkGmailLabel "INBOX" "INBOX" "system" (Some 2%Z) None].
Proof.
  apply (proj1 (labels_are_named ToolSamples.mailbox
                  [GmailClient.mkGmailLabel "INBOX" "INBOX" "system" (Some 2%Z) None]
                  eq_refl)).
Defined.
